(** * Voting application: vote store, storage adapter, voting hook, polling

    A shallow embedding of the client-side voting state machine:

    - [LocalStorage]   the browser's storage facility (Web Storage API);
    - [UseLocalStorage] the hook [useLocalStorage] wrapping it;
    - [Store]          the reducer and the provider of [VotingContext]
                       ([votingReducer], [addVote], [canVote], the two
                       storage effects);
    - [ContestantVoting] the hook [useContestantVoting] (optimistic vote
                       with rollback);
    - [Polling]        the hook [usePolling];
    - [ContestantCard] the vote button of a contestant card;
    - [MockDataService] the in-memory back end ([utils/mockData]), and
                       [App], the store with that back end behind it;
    - [Api]            the HTTP client ([utils/api]);
    - [Responsive]     the hook [useResponsive].

    Conventions.  A React callback closes over the values of the render
    that created it, and writes to the current state through setters and
    [dispatch].  Callbacks therefore take the render they close over as an
    explicit argument ([render]) next to the current state they transform;
    values held in refs ([useRef]) are read from the current state.  An
    [async] function is split at its [await]: the part that runs up to the
    suspension point returns the request left outstanding, and a second
    function takes the outcome of the request.

    Numbers that the source uses as counters are integers ([Z]); a [Date]
    is its time value in milliseconds (the invalid date, which [new Date]
    gives for a string that is no date and on which [toISOString] throws,
    is not represented).  [Date.prototype.toISOString],
    [new Date(string)], [JSON.stringify] and [JSON.parse] belong to the
    platform and are parameters of the development, as is [fetch]; the
    draws of [Math.random()] are a sequence the state carries. *)

From Stdlib Require Import ZArith String List Bool Lia QArith Qround.
From stdpp Require Import base option gmap sets list strings sorting pretty.

Open Scope string_scope.
Open Scope Z_scope.

(** ** Completions: a state monad in which a computation may throw *)

Module Js.

Inductive completion (A : Type) : Type :=
| Normal (a : A)
| Throw (reason : string).
Arguments Normal {A} a.
Arguments Throw {A} reason.

Definition M (W A : Type) : Type := W → completion A * W.

Definition ret {W A} (a : A) : M W A := λ w, (Normal a, w).

Definition bind {W A B} (m : M W A) (k : A → M W B) : M W B :=
  λ w, match m w with
       | (Normal a, w') => k a w'
       | (Throw e, w') => (Throw e, w')
       end.

Definition throw {W A} (reason : string) : M W A := λ w, (Throw reason, w).

(** [try { body } catch (err) { handler }]: what [body] wrote before it
    threw stays written. *)
Definition tryCatch {W A} (body : M W A) (handler : string → M W A) : M W A :=
  λ w, match body w with
       | (Normal a, w') => (Normal a, w')
       | (Throw e, w') => handler e w'
       end.

Definition gets {W A} (f : W → A) : M W A := λ w, (Normal (f w), w).

Definition modify {W} (f : W → W) : M W unit := λ w, (Normal tt, f w).

(** Run a computation on a component of the state. *)
Definition zoom {W V A} (get : W → V) (set : V → W → W) (m : M V A) : M W A :=
  λ w, let '(c, v) := m (get w) in (c, set v w).

Definition when {W} (b : bool) (m : M W unit) : M W unit :=
  if b then m else ret tt.

Definition returns {A} (c : completion A) : bool :=
  match c with Normal _ => true | Throw _ => false end.

End Js.

#[global] Instance Js_ret {W} : MRet (Js.M W) := λ A, @Js.ret W A.
#[global] Instance Js_bind {W} : MBind (Js.M W) := λ A B k m, @Js.bind W A B m k.

(** ** Error values ([types/errors]) *)

Inductive ErrorType : Type :=
| NETWORK_ERROR | VALIDATION_ERROR | STORAGE_ERROR | COMPONENT_ERROR
| VOTE_ERROR | POLLING_ERROR | SESSION_ERROR.

Inductive VoteErrorCode : Type :=
| ALREADY_VOTED | VOTE_LIMIT_EXCEEDED | VOTING_CLOSED
| CONTESTANT_INACTIVE | INVALID_CONTESTANT | NETWORK_FAILURE.

(** ** Voting data ([types/voting], [types/contestant]) *)

Module VotingSession.
Record t : Type := mk {
  id : string;
  isActive : bool;
  startTime : Z;
  endTime : Z;
  maxVotesPerUser : Z;
  contestants : list string
}.
End VotingSession.

Module Contestant.
Record t : Type := mk {
  id : string;
  name : string;
  imageUrl : string;
  description : string;
  voteCount : Z;
  isActive : bool;
  category : option string
}.
End Contestant.

Module UserVoteState.
Record t : Type := mk {
  sessionId : string;
  votedContestants : gset string;
  totalVotes : Z;
  lastUpdated : Z
}.
End UserVoteState.

Module SerializableUserVoteState.
Record t : Type := mk {
  sessionId : string;
  votedContestants : list string;
  totalVotes : Z;
  lastUpdated : string
}.
End SerializableUserVoteState.

(** The render of [useContestantVoting] that a [vote] callback closes over:
    the values of its [useState] cells and of the adapter at that render. *)
Module VoteRender.
Record t : Type := mk {
  contestantId : string;
  sessionId : string;
  isVoting : bool;
  voteCount : Z;
  voteState : SerializableUserVoteState.t;
  storageSupported : bool
}.
End VoteRender.

(** The closures the source stores in [retryAction]. *)
Inductive RetryAction : Type :=
| ClearStorageError          (* [() => setError(null)] of useLocalStorage *)
| ClearVoteError             (* [clearError] of useContestantVoting *)
| RetryVote (closure : VoteRender.t).   (* [vote] of useContestantVoting *)

(** [AppError], and [VoteError] which extends it with [code],
    [contestantId] and [details]; a field the object literal leaves out is
    [None]. *)
Module AppError.
Record t : Type := mk {
  type : ErrorType;
  message : string;
  recoverable : bool;
  retryAction : option RetryAction;
  code : option VoteErrorCode;
  contestantId : option string;
  details : list (string * string)
}.
End AppError.

Definition dquote : string := String (Ascii.ascii_of_nat 34) EmptyString.


(** ** The storage facility ([window.localStorage])

    A key-value store of strings.  A call throws when access is denied
    ([blocked]: storage disabled or forbidden), and a write throws when the
    entries would exceed the quota. *)

Module LocalStorage.

Record t : Type := mk {
  items : gmap string string;
  quota : option nat;
  blocked : bool
}.

Definition usage (m : gmap string string) : nat :=
  map_fold (λ k v n, (String.length k + String.length v + n)%nat) 0%nat m.

Definition overQuota (f : t) (m : gmap string string) : bool :=
  match quota f with
  | None => false
  | Some q => bool_decide (q < usage m)%nat
  end.

Definition withItems (m : gmap string string) (f : t) : t :=
  mk m (quota f) (blocked f).

Definition getItem (key : string) : Js.M t (option string) :=
  λ f, if blocked f then (Js.Throw "SecurityError", f)
       else (Js.Normal (items f !! key), f).

Definition setItem (key value : string) : Js.M t unit :=
  λ f, if blocked f then (Js.Throw "SecurityError", f)
       else if overQuota f (<[key := value]> (items f))
            then (Js.Throw "QuotaExceededError", f)
            else (Js.Normal tt, withItems (<[key := value]> (items f)) f).

Definition removeItem (key : string) : Js.M t unit :=
  λ f, if blocked f then (Js.Throw "SecurityError", f)
       else (Js.Normal tt, withItems (delete key (items f)) f).

(** The facility takes a write of [value] under [key]. *)
Definition accepts (key value : string) (f : t) : bool :=
  negb (blocked f) && negb (overQuota f (<[key := value]> (items f))).

(** [Object.keys(localStorage)] *)
Definition keys (f : t) : list string := elements (dom (items f)).

Definition clear : Js.M t unit :=
  λ f, if blocked f then (Js.Throw "SecurityError", f)
       else (Js.Normal tt, withItems ∅ f).

End LocalStorage.

(** ** The persistent store adapter ([useLocalStorage]) *)

Module UseLocalStorage.

(** The cells of the hook: three [useState] cells and the ref
    [isInitialized]. *)
Record State (T : Type) : Type := mkState {
  value : T;
  error : option AppError.t;
  isSupported : bool;
  isInitialized : bool
}.
Arguments mkState {T}.
Arguments value {T}.
Arguments error {T}.
Arguments isSupported {T}.
Arguments isInitialized {T}.

(** What a call of the hook's functions can touch: its cells and the
    facility. *)
Record World (T : Type) : Type := mkWorld {
  hook : State T;
  localStorage : LocalStorage.t
}.
Arguments mkWorld {T}.
Arguments hook {T}.
Arguments localStorage {T}.

(** The argument of [setValue]: a value, or a function of the previous
    value ([newValue instanceof Function]). *)
Inductive SetArg (T : Type) : Type :=
| Value (v : T)
| Updater (f : T → T).
Arguments Value {T}.
Arguments Updater {T}.

(** A [StorageEvent], as far as the handler reads it. *)
Record StorageEvent : Type := mkEvent {
  key : option string;
  newValue : option string
}.

Definition storageError (message : string) : AppError.t :=
  {| AppError.type := STORAGE_ERROR;
     AppError.message := message;
     AppError.recoverable := true;
     AppError.retryAction := Some ClearStorageError;
     AppError.code := None;
     AppError.contestantId := None;
     AppError.details := [] |}.

Definition quoted (key : string) : string := dquote +:+ key +:+ dquote.

(** The error a failed write leaves in the [error] cell. *)
Definition saveError (key : string) : AppError.t :=
  storageError ("Failed to save value to localStorage for key " +:+ quoted key).

(** [newValue instanceof Function ? newValue(value) : newValue] *)
Definition valueToStore {T} (render : State T) (newValue : SetArg T) : T :=
  match newValue with
  | Value v => v
  | Updater f => f (value render)
  end.

Section Hook.

Variable T : Type.
Variable JSON_stringify : T → string.
(** [None]: [JSON.parse] throws a [SyntaxError]. *)
Variable JSON_parse : string → option T.
(** [typeof window !== 'undefined'] *)
Variable hasWindow : bool.

Definition setValue (v : T) : Js.M (World T) unit :=
  Js.modify (λ w, mkWorld (mkState v (error (hook w)) (isSupported (hook w))
                                   (isInitialized (hook w)))
                          (localStorage w)).

Definition setError (e : option AppError.t) : Js.M (World T) unit :=
  Js.modify (λ w, mkWorld (mkState (value (hook w)) e (isSupported (hook w))
                                   (isInitialized (hook w)))
                          (localStorage w)).

Definition setIsSupported (b : bool) : Js.M (World T) unit :=
  Js.modify (λ w, mkWorld (mkState (value (hook w)) (error (hook w)) b
                                   (isInitialized (hook w)))
                          (localStorage w)).

Definition setIsInitialized (b : bool) : Js.M (World T) unit :=
  Js.modify (λ w, mkWorld (mkState (value (hook w)) (error (hook w))
                                   (isSupported (hook w)) b)
                          (localStorage w)).

Definition onStorage {A} (m : Js.M LocalStorage.t A) : Js.M (World T) A :=
  Js.zoom localStorage (λ f w, mkWorld (hook w) f) m.

Definition parse (item : string) : Js.M (World T) T :=
  match JSON_parse item with
  | Some v => Js.ret v
  | None => Js.throw "SyntaxError"
  end.

Definition checkSupport : Js.M (World T) bool :=
  Js.tryCatch
    (if negb hasWindow then Js.ret false
     else onStorage (LocalStorage.setItem "__localStorage_test__" "test");;
          onStorage (LocalStorage.removeItem "__localStorage_test__");;
          Js.ret true)
    (λ _, Js.ret false).

(** The initializer of the [value] cell, run at the first render. *)
Definition initialValue (key : string) (defaultValue : T)
  : Js.M LocalStorage.t T :=
  if negb hasWindow then Js.ret defaultValue
  else Js.tryCatch
         (item ← LocalStorage.getItem key;
          match item with
          | None => Js.ret defaultValue
          | Some i => match JSON_parse i with
                      | Some v => Js.ret v
                      | None => Js.throw "SyntaxError"
                      end
          end)
         (λ _, Js.ret defaultValue).

(** The effect that checks support and reports a stored value that does
    not parse. *)
Definition initEffect (key : string) : Js.M (World T) unit :=
  initialized ← Js.gets (λ w, isInitialized (hook w));
  Js.when (negb initialized && hasWindow)
    (supported ← checkSupport;
     setIsSupported supported;;
     Js.when supported
       (Js.tryCatch
          (item ← onStorage (LocalStorage.getItem key);
           match item with
           | Some i => parsedValue ← parse i; setValue parsedValue
           | None => Js.ret tt
           end)
          (λ _, setError (Some (storageError
             ("Failed to parse localStorage value for key " +:+ quoted key)))));;
     setIsInitialized true).

(** The listener for the cross-tab [storage] event. *)
Definition handleStorageChange (key : string) (defaultValue : T)
    (e : StorageEvent) : Js.M (World T) unit :=
  if bool_decide (UseLocalStorage.key e = Some key) then
    match newValue e with
    | Some n =>
        Js.tryCatch
          (v ← parse n; setValue v;; setError None)
          (λ _, setError (Some (storageError
             ("Failed to sync localStorage value for key " +:+ quoted key))))
    | None => setValue defaultValue
    end
  else Js.ret tt.

(** [setValue] of the hook's result ([setStoredValue]); [render] is the
    render whose [value] and [isSupported] the callback closes over. *)
Definition setStoredValue (key : string) (render : State T)
    (newValue : SetArg T) : Js.M (World T) unit :=
  Js.tryCatch
    (setValue (valueToStore render newValue);;
     Js.when (isSupported render && hasWindow)
       (onStorage (LocalStorage.setItem key
                     (JSON_stringify (valueToStore render newValue))));;
     setError None)
    (λ _, setError (Some (saveError key))).

Definition removeValue (key : string) (defaultValue : T) (render : State T)
  : Js.M (World T) unit :=
  Js.tryCatch
    (setValue defaultValue;;
     Js.when (isSupported render && hasWindow)
       (onStorage (LocalStorage.removeItem key));;
     setError None)
    (λ _, setError (Some (storageError
       ("Failed to remove value from localStorage for key " +:+ quoted key)))).

End Hook.

End UseLocalStorage.

(** ** Arrays of strings: [sort] and [every] as the effects use them *)

(** [Array.prototype.sort] without a comparator orders strings by their
    code units. *)
Definition strLe (a b : string) : Prop := String.leb a b = true.

#[global] Instance strLe_dec (a b : string) : Decision (strLe a b).
Proof. unfold strLe. apply _. Defined.

Definition Array_sort (xs : list string) : list string := merge_sort strLe xs.

(** [xs.every((id, index) => id === ys[index])] *)
Fixpoint everyEqualAt (xs ys : list string) : bool :=
  match xs, ys with
  | [], _ => true
  | _ :: _, [] => false
  | x :: xs', y :: ys' => String.eqb x y && everyEqualAt xs' ys'
  end.

(** The comparison both storage effects make between the voted ids of the
    store and those of the stored value, on the sorted arrays. *)
Definition differs (total : Z) (ids : list string)
    (otherTotal : Z) (otherIds : list string) : bool :=
  negb (total =? otherTotal)
  || negb (length ids =? length otherIds)%nat
  || negb (everyEqualAt ids otherIds).

(** ** The vote state store ([VotingContext]) *)

Module Store.

Module VotingState.
Record t : Type := mk {
  loading : bool;
  error : option AppError.t;
  session : option VotingSession.t;
  contestants : list Contestant.t;
  userVoteState : UserVoteState.t;
  votingWindowActive : bool
}.
End VotingState.

Inductive VotingAction : Type :=
| SET_LOADING (payload : bool)
| SET_ERROR (payload : option AppError.t)
| SET_SESSION (payload : option VotingSession.t)
| SET_CONTESTANTS (payload : list Contestant.t)
| UPDATE_CONTESTANT (payload : Contestant.t)
| SET_USER_VOTE_STATE (payload : UserVoteState.t)
| ADD_VOTE (contestantId : string)
| SET_VOTING_WINDOW_STATUS (payload : bool)
| RESET_STATE.

(** The request [addVote] hands to [mockDataService.submitVote]. *)
Record VoteRequest : Type := mkRequest {
  contestantId : string;
  sessionId : string;
  userId : string
}.

(** How the awaited submission ends for [addVote]: the promise resolves
    (the response is not read), or it rejects with an [Error] carrying a
    message ([Some]) or with another value ([None]). *)
Inductive Submission : Type :=
| Resolved
| Rejected (message : option string).

(** [initialState]; its [lastUpdated] is the time the module was loaded. *)
Definition initialState (loadTime : Z) : VotingState.t :=
  {| VotingState.loading := false;
     VotingState.error := None;
     VotingState.session := None;
     VotingState.contestants := [];
     VotingState.userVoteState :=
       {| UserVoteState.sessionId := "";
          UserVoteState.votedContestants := ∅;
          UserVoteState.totalVotes := 0;
          UserVoteState.lastUpdated := loadTime |};
     VotingState.votingWindowActive := false |}.

(** [isActive && now >= startTime && now <= endTime], [false] without a
    session. *)
Definition withinWindow (now : Z) (payload : option VotingSession.t) : bool :=
  match payload with
  | Some p => VotingSession.isActive p
              && (VotingSession.startTime p <=? now)
              && (now <=? VotingSession.endTime p)
  | None => false
  end.

Definition votingReducer (loadTime now : Z)
    (state : VotingState.t) (action : VotingAction) : VotingState.t :=
  let '(VotingState.mk loading error session contestants uvs window) := state in
  match action with
  | SET_LOADING payload =>
      VotingState.mk payload error session contestants uvs window
  | SET_ERROR payload =>
      VotingState.mk loading payload session contestants uvs window
  | SET_SESSION payload =>
      VotingState.mk loading error payload contestants
        (match payload with
         | Some p => UserVoteState.mk (VotingSession.id p)
                       (UserVoteState.votedContestants uvs)
                       (UserVoteState.totalVotes uvs)
                       (UserVoteState.lastUpdated uvs)
         | None => uvs
         end)
        (withinWindow now payload)
  | SET_CONTESTANTS payload =>
      VotingState.mk loading error session payload uvs window
  | UPDATE_CONTESTANT payload =>
      VotingState.mk loading error session
        (map (λ contestant,
                if String.eqb (Contestant.id contestant) (Contestant.id payload)
                then payload else contestant) contestants)
        uvs window
  | SET_USER_VOTE_STATE payload =>
      VotingState.mk loading error session contestants payload window
  | ADD_VOTE contestantId =>
      VotingState.mk loading error session contestants
        (UserVoteState.mk (UserVoteState.sessionId uvs)
           ({[contestantId]} ∪ UserVoteState.votedContestants uvs)
           (UserVoteState.totalVotes uvs + 1)
           now)
        window
  | SET_VOTING_WINDOW_STATUS payload =>
      VotingState.mk loading error session contestants uvs payload
  | RESET_STATE => initialState loadTime
  end.

(** A state with its [error] field replaced and every other field kept. *)
Definition withError (e : option AppError.t) (state : VotingState.t)
  : VotingState.t :=
  VotingState.mk (VotingState.loading state) e (VotingState.session state)
    (VotingState.contestants state) (VotingState.userVoteState state)
    (VotingState.votingWindowActive state).

(** *** Computed values *)

Definition hasVotedFor (state : VotingState.t) (contestantId : string) : bool :=
  bool_decide (contestantId ∈
    UserVoteState.votedContestants (VotingState.userVoteState state)).

Definition canVote (state : VotingState.t) : bool :=
  match VotingState.session state with
  | None => false
  | Some session =>
      if negb (VotingState.votingWindowActive state) then false
      else UserVoteState.totalVotes (VotingState.userVoteState state)
           <? VotingSession.maxVotesPerUser session
  end.

Definition remainingVotes (state : VotingState.t) : Z :=
  match VotingState.session state with
  | None => 0
  | Some session =>
      Z.max 0 (VotingSession.maxVotesPerUser session
               - UserVoteState.totalVotes (VotingState.userVoteState state))
  end.

Definition getContestantById (state : VotingState.t) (id : string)
  : option Contestant.t :=
  find (λ contestant, String.eqb (Contestant.id contestant) id)
       (VotingState.contestants state).

(** *** [addVote] *)

Definition voteError (message : string) (recoverable : bool) : AppError.t :=
  {| AppError.type := VOTE_ERROR;
     AppError.message := message;
     AppError.recoverable := recoverable;
     AppError.retryAction := None;
     AppError.code := None;
     AppError.contestantId := None;
     AppError.details := [] |}.

Definition alreadyVotedError : AppError.t :=
  voteError "You have already voted for this contestant" false.

Definition votingLimitError : AppError.t :=
  voteError "You have reached your voting limit" false.

Definition submissionError (message : option string) : AppError.t :=
  voteError (default "Failed to submit vote" message) true.

(** [state.session?.id || ''] *)
Definition sessionIdOrEmpty (state : VotingState.t) : string :=
  match VotingState.session state with
  | Some session => VotingSession.id session
  | None => ""
  end.

Section Reducer.

Variable loadTime : Z.

Definition setError (now : Z) (e : AppError.t) (state : VotingState.t)
  : VotingState.t :=
  votingReducer loadTime now state (SET_ERROR (Some e)).

(** [addVote] up to its [await]: the validation reads the render the
    callback closes over, an error is dispatched to the current state, and
    a call that passes leaves a request outstanding. *)
Definition addVote_call (now : Z) (render : VotingState.t)
    (contestantId : string) (state : VotingState.t)
  : VotingState.t * option VoteRequest :=
  if hasVotedFor render contestantId then
    (setError now alreadyVotedError state, None)
  else if negb (canVote render) then
    (setError now votingLimitError state, None)
  else
    (state, Some (mkRequest contestantId (sessionIdOrEmpty render) "anonymous")).

(** [addVote] after its [await]. *)
Definition addVote_settle (now : Z) (contestantId : string)
    (outcome : Submission) (state : VotingState.t) : VotingState.t :=
  match outcome with
  | Resolved => votingReducer loadTime now state (ADD_VOTE contestantId)
  | Rejected message => setError now (submissionError message) state
  end.

(** A call of [addVote] on the current render whose submission settles
    before anything else happens. *)
Definition addVote (now : Z) (contestantId : string)
    (outcome : VoteRequest → Submission) (state : VotingState.t)
  : VotingState.t :=
  match addVote_call now state contestantId state with
  | (state', None) => state'
  | (state', Some request) =>
      addVote_settle now contestantId (outcome request) state'
  end.

Definition setSession (now : Z) (session : option VotingSession.t)
    (state : VotingState.t) : VotingState.t :=
  votingReducer loadTime now state (SET_SESSION session).

Definition setVotingWindowStatus (now : Z) (active : bool)
    (state : VotingState.t) : VotingState.t :=
  votingReducer loadTime now state (SET_VOTING_WINDOW_STATUS active).

Definition resetState (now : Z) (state : VotingState.t) : VotingState.t :=
  votingReducer loadTime now state RESET_STATE.

End Reducer.

(** *** The store as a machine

    The operations of the provider, with [addVote] split at its [await]:
    [outstanding] holds the submissions that have not settled yet.  The
    restore effect takes the stored value the adapter holds at the render
    it runs in. *)

Record Machine : Type := mkMachine {
  state : VotingState.t;
  outstanding : list VoteRequest
}.

Inductive Operation : Type :=
| SetLoading (loading : bool)
| SetError (error : option AppError.t)
| SetSession (session : option VotingSession.t)
| SetContestants (contestants : list Contestant.t)
| UpdateContestant (contestant : Contestant.t)
| SetVotingWindowStatus (active : bool)
| AddVoteCall (contestantId : string)
| AddVoteSettle (contestantId : string) (outcome : Submission)
| ResetState
| RestoreVotes (storedVoteState : SerializableUserVoteState.t).

(** The operations that leave the votes in place: all but [resetState] and
    a restore from storage. *)
Definition keepsVotes (op : Operation) : bool :=
  match op with
  | ResetState | RestoreVotes _ => false
  | _ => true
  end.

(** Take the first outstanding request for a contestant off the list. *)
Fixpoint takeRequest (contestantId : string) (requests : list VoteRequest)
  : option (VoteRequest * list VoteRequest) :=
  match requests with
  | [] => None
  | r :: rest =>
      if String.eqb (Store.contestantId r) contestantId then Some (r, rest)
      else match takeRequest contestantId rest with
           | Some (found, rest') => Some (found, r :: rest')
           | None => None
           end
  end.

Section Provider.

Variable loadTime : Z.
(** [date.toISOString()] and [new Date(string)] on time values. *)
Variable Date_toISOString : Z → string.
Variable Date_parse : string → Z.

(** The object the serialization effect builds from the vote state;
    [Array.from] of a set lists its elements. *)
Definition toSerializable (u : UserVoteState.t) : SerializableUserVoteState.t :=
  {| SerializableUserVoteState.sessionId := UserVoteState.sessionId u;
     SerializableUserVoteState.votedContestants :=
       elements (UserVoteState.votedContestants u);
     SerializableUserVoteState.totalVotes := UserVoteState.totalVotes u;
     SerializableUserVoteState.lastUpdated :=
       Date_toISOString (UserVoteState.lastUpdated u) |}.

(** The vote state the restore effect builds from a stored value. *)
Definition fromSerializable (s : SerializableUserVoteState.t) : UserVoteState.t :=
  {| UserVoteState.sessionId := SerializableUserVoteState.sessionId s;
     UserVoteState.votedContestants :=
       list_to_set (SerializableUserVoteState.votedContestants s);
     UserVoteState.totalVotes := SerializableUserVoteState.totalVotes s;
     UserVoteState.lastUpdated :=
       Date_parse (SerializableUserVoteState.lastUpdated s) |}.

(** [votedContestants.sort()] sorts the array of the object in place. *)
Definition sortIds (s : SerializableUserVoteState.t) : SerializableUserVoteState.t :=
  {| SerializableUserVoteState.sessionId := SerializableUserVoteState.sessionId s;
     SerializableUserVoteState.votedContestants :=
       Array_sort (SerializableUserVoteState.votedContestants s);
     SerializableUserVoteState.totalVotes := SerializableUserVoteState.totalVotes s;
     SerializableUserVoteState.lastUpdated := SerializableUserVoteState.lastUpdated s |}.

(** [storedVoteState.sessionId === state.session?.id] *)
Definition sameSession (stored : SerializableUserVoteState.t)
    (state : VotingState.t) : bool :=
  match VotingState.session state with
  | Some session =>
      String.eqb (SerializableUserVoteState.sessionId stored)
                 (VotingSession.id session)
  | None => false
  end.

(** The guard of the restore effect, and the comparison it makes. *)
Definition restoreApplies (isResetting : bool)
    (stored : SerializableUserVoteState.t) (state : VotingState.t) : bool :=
  negb isResetting
  && sameSession stored state
  && (0 <? SerializableUserVoteState.totalVotes stored)
  && differs
       (UserVoteState.totalVotes (VotingState.userVoteState state))
       (Array_sort (elements (UserVoteState.votedContestants
                                (VotingState.userVoteState state))))
       (SerializableUserVoteState.totalVotes stored)
       (Array_sort (SerializableUserVoteState.votedContestants stored)).

(** The restore effect on the state of the store. *)
Definition restore (isResetting : bool) (now : Z)
    (stored : SerializableUserVoteState.t) (state : VotingState.t)
  : VotingState.t :=
  if restoreApplies isResetting stored state then
    votingReducer loadTime now state
      (SET_USER_VOTE_STATE (fromSerializable (sortIds stored)))
  else state.

Definition dispatch (now : Z) (action : VotingAction) (m : Machine) : Machine :=
  mkMachine (votingReducer loadTime now (state m) action) (outstanding m).

Definition step (now : Z) (op : Operation) (m : Machine) : option Machine :=
  match op with
  | SetLoading loading => Some (dispatch now (SET_LOADING loading) m)
  | SetError error => Some (dispatch now (SET_ERROR error) m)
  | SetSession session => Some (dispatch now (SET_SESSION session) m)
  | SetContestants contestants =>
      Some (dispatch now (SET_CONTESTANTS contestants) m)
  | UpdateContestant contestant =>
      Some (dispatch now (UPDATE_CONTESTANT contestant) m)
  | SetVotingWindowStatus active =>
      Some (dispatch now (SET_VOTING_WINDOW_STATUS active) m)
  | AddVoteCall contestantId =>
      match addVote_call loadTime now (state m) contestantId (state m) with
      | (state', None) => Some (mkMachine state' (outstanding m))
      | (state', Some request) =>
          Some (mkMachine state' (outstanding m ++ [request]))
      end
  | AddVoteSettle contestantId outcome =>
      match takeRequest contestantId (outstanding m) with
      | Some (_, rest) =>
          Some (mkMachine (addVote_settle loadTime now contestantId outcome (state m))
                          rest)
      | None => None
      end
  | ResetState => Some (dispatch now RESET_STATE m)
  | RestoreVotes stored =>
      Some (mkMachine (restore false now stored (state m)) (outstanding m))
  end.

(** A run: operations with the time each one happens at. *)
Fixpoint run (ops : list (Z * Operation)) (m : Machine) : option Machine :=
  match ops with
  | [] => Some m
  | (now, op) :: rest =>
      match step now op m with
      | Some m' => run rest m'
      | None => None
      end
  end.

(** The state [useReducer] starts from. *)
Definition mountState (now : Z) (initialSession : option VotingSession.t)
    (initialContestants : list Contestant.t) : VotingState.t :=
  {| VotingState.loading := false;
     VotingState.error := None;
     VotingState.session := initialSession;
     VotingState.contestants := initialContestants;
     VotingState.userVoteState :=
       {| UserVoteState.sessionId :=
            match initialSession with
            | Some session => VotingSession.id session
            | None => ""
            end;
          UserVoteState.votedContestants := ∅;
          UserVoteState.totalVotes := 0;
          UserVoteState.lastUpdated := loadTime |};
     VotingState.votingWindowActive := withinWindow now initialSession |}.

Definition mount (now : Z) (initialSession : option VotingSession.t)
    (initialContestants : list Contestant.t) : Machine :=
  mkMachine (mountState now initialSession initialContestants) [].

(** Operations whose submissions settle before the next operation: a call
    of [addVote] comes with the outcome of its submission. *)
Inductive Atomic : Type :=
| Plain (action : VotingAction)
| AddVote (contestantId : string) (outcome : Submission)
| RestoreFrom (storedVoteState : SerializableUserVoteState.t).

(** The actions the provider's plain action creators dispatch
    ([setLoading], [setError], [setSession], [setContestants],
    [updateContestant], [setVotingWindowStatus], [resetState]). *)
Definition plain (action : VotingAction) : bool :=
  match action with
  | SET_USER_VOTE_STATE _ | ADD_VOTE _ => false
  | _ => true
  end.

Definition applyAtomic (now : Z) (op : Atomic) (state : VotingState.t)
  : VotingState.t :=
  match op with
  | Plain action => votingReducer loadTime now state action
  | AddVote contestantId outcome =>
      addVote loadTime now contestantId (λ _, outcome) state
  | RestoreFrom stored => restore false now stored state
  end.

Definition runAtomic (ops : list (Z * Atomic)) (state : VotingState.t)
  : VotingState.t :=
  fold_left (λ s '(now, op), applyAtomic now op s) ops state.

(** The operation of the machine that dispatches a plain action. *)
Definition operationOf (action : VotingAction) : option Operation :=
  match action with
  | SET_LOADING loading => Some (SetLoading loading)
  | SET_ERROR error => Some (SetError error)
  | SET_SESSION session => Some (SetSession session)
  | SET_CONTESTANTS contestants => Some (SetContestants contestants)
  | UPDATE_CONTESTANT contestant => Some (UpdateContestant contestant)
  | SET_VOTING_WINDOW_STATUS active => Some (SetVotingWindowStatus active)
  | RESET_STATE => Some ResetState
  | SET_USER_VOTE_STATE _ | ADD_VOTE _ => None
  end.

(** The same operations in the machine: a call that passes validation is
    followed at once by its settlement. *)
Definition expand (state : VotingState.t) (now : Z) (op : Atomic)
  : list (Z * Operation) :=
  match op with
  | Plain action =>
      match operationOf action with
      | Some operation => [(now, operation)]
      | None => []
      end
  | AddVote contestantId outcome =>
      if hasVotedFor state contestantId || negb (canVote state)
      then [(now, AddVoteCall contestantId)]
      else [(now, AddVoteCall contestantId);
            (now, AddVoteSettle contestantId outcome)]
  | RestoreFrom stored => [(now, RestoreVotes stored)]
  end.

Fixpoint expandAll (ops : list (Z * Atomic)) (state : VotingState.t)
  : list (Z * Operation) :=
  match ops with
  | [] => []
  | (now, op) :: rest =>
      expand state now op ++ expandAll rest (applyAtomic now op state)
  end.

(** A stored value whose total is the number of distinct ids it lists. *)
Definition consistent (stored : SerializableUserVoteState.t) : Prop :=
  SerializableUserVoteState.totalVotes stored
  = Z.of_nat (size (list_to_set (C := gset string)
                      (SerializableUserVoteState.votedContestants stored))).

(** An atomic operation of the public interface: a plain action, a vote,
    or a restore of a consistent stored value. *)
Definition wellFormed (op : Atomic) : Prop :=
  match op with
  | Plain action => plain action = true
  | AddVote _ _ => True
  | RestoreFrom stored => consistent stored
  end.

(** The invariant of the vote state. *)
Definition totalMatchesVotes (state : VotingState.t) : Prop :=
  UserVoteState.totalVotes (VotingState.userVoteState state)
  = Z.of_nat (size (UserVoteState.votedContestants
                      (VotingState.userVoteState state))).

End Provider.

End Store.

(** ** The provider: the store together with its storage adapter *)

Module VotingProvider.

Import Store.

Abbreviation Stored := SerializableUserVoteState.t.

Record t : Type := mk {
  state : VotingState.t;
  storage : UseLocalStorage.World Stored
}.

(** [state.session?.id || 'default'] *)
Definition sessionIdOrDefault (state : VotingState.t) : string :=
  match VotingState.session state with
  | Some session =>
      if String.eqb (VotingSession.id session) "" then "default"
      else VotingSession.id session
  | None => "default"
  end.

Definition storageKey (state : VotingState.t) : string :=
  "voting-state-" +:+ sessionIdOrDefault state.

Definition storedVoteState (p : t) : Stored :=
  UseLocalStorage.value (UseLocalStorage.hook (storage p)).

(** The array of the stored value sorted in place. *)
Definition sortStoredInPlace (sortIds : Stored → Stored) (p : t) : t :=
  let w := storage p in
  let h := UseLocalStorage.hook w in
  mk (state p)
     (UseLocalStorage.mkWorld
        (UseLocalStorage.mkState (sortIds (UseLocalStorage.value h))
           (UseLocalStorage.error h) (UseLocalStorage.isSupported h)
           (UseLocalStorage.isInitialized h))
        (UseLocalStorage.localStorage w)).

Section Effects.

Variable loadTime : Z.
Variable Date_toISOString : Z → string.
Variable Date_parse : string → Z.
Variable JSON_stringify : Stored → string.
Variable JSON_parse : string → option Stored.
Variable hasWindow : bool.

Definition dispatch (now : Z) (action : VotingAction) (p : t) : t :=
  mk (votingReducer loadTime now (state p) action) (storage p).

(** [resetState] of the provider. *)
Definition resetState (now : Z) (p : t) : t := dispatch now RESET_STATE p.

(** The effect that restores the vote state from the stored value. *)
Definition restoreEffect (isResetting : bool) (now : Z) (p : t) : t :=
  let stored := storedVoteState p in
  if negb isResetting
     && sameSession stored (state p)
     && (0 <? SerializableUserVoteState.totalVotes stored)
  then
    mk (restore loadTime Date_parse isResetting now stored (state p))
       (storage (sortStoredInPlace sortIds p))
  else p.

(** The effect that writes the vote state to storage when it differs from
    the stored value. *)
Definition persistEffect (p : t) : Js.M t unit :=
  let uvs := VotingState.userVoteState (state p) in
  if negb (String.eqb (UserVoteState.sessionId uvs) "") then
    let serializableState := toSerializable Date_toISOString uvs in
    let stored := storedVoteState p in
    Js.modify (sortStoredInPlace sortIds);;
    Js.when
      (differs (SerializableUserVoteState.totalVotes stored)
               (Array_sort (SerializableUserVoteState.votedContestants stored))
               (SerializableUserVoteState.totalVotes serializableState)
               (Array_sort (SerializableUserVoteState.votedContestants
                              serializableState)))
      (Js.zoom storage (λ w q, mk (state q) w)
         (UseLocalStorage.setStoredValue Stored JSON_stringify hasWindow
            (storageKey (state p))
            (UseLocalStorage.hook (storage p))
            (UseLocalStorage.Value (sortIds serializableState))))
  else Js.ret tt.

(** The dependencies of the restore effect:
    [[storedVoteState.sessionId, storedVoteState.totalVotes,
      storedVoteState.votedContestants.length, state.session?.id]]. *)
Definition restoreDeps (p : t) : string * Z * nat * option string :=
  (SerializableUserVoteState.sessionId (storedVoteState p),
   SerializableUserVoteState.totalVotes (storedVoteState p),
   length (SerializableUserVoteState.votedContestants (storedVoteState p)),
   VotingSession.id <$> VotingState.session (state p)).

(** The provider between two commits: its state and adapter, and the
    dependencies the restore effect had at the commit before ([None]
    before the first commit). *)
Record Committed : Type := mkCommitted {
  provider : t;
  lastDeps : option (string * Z * nat * option string)
}.

(** React runs the restore effect at a commit when one of its
    dependencies differs from the commit before. *)
Definition restoreDue (c : Committed) : bool :=
  negb (bool_decide (lastDeps c = Some (restoreDeps (provider c)))).

(** The restore effect dispatches at this commit. *)
Definition restores (c : Committed) : bool :=
  restoreDue c
  && restoreApplies false (storedVoteState (provider c)) (state (provider c)).

(** The commit of a render that is not resetting, with the adapter
    initialized.  The effects run in the order of the source and both
    read the values of the render: what the restore effect dispatches is
    not seen by the serialization effect of the same commit.  The
    dependencies of the serialization effect hold the set, the date and
    the stored array themselves, which are new objects whenever the vote
    state or the stored value has been set; a run of it with unchanged
    dependencies would find nothing to write, so it is run at every
    commit. *)
Definition commit (now : Z) (c : Committed) : Committed :=
  let render := provider c in
  let restored :=
    if restoreDue c then restoreEffect false now render else render in
  mkCommitted (snd (persistEffect render restored))
              (Some (restoreDeps render)).

(** The adapter's listener, for the key of the current render. *)
Definition storageEvent (defaultValue : Stored)
    (e : UseLocalStorage.StorageEvent) : Js.M t unit :=
  λ p, Js.zoom storage (λ w q, mk (state q) w)
         (UseLocalStorage.handleStorageChange Stored JSON_parse
            (storageKey (state p)) defaultValue e) p.

End Effects.

(** *** The first render of the provider *)

(** The two storage facilities of the window. *)
Record Browser : Type := mkBrowser {
  sessionStorage : LocalStorage.t;
  localStorage : LocalStorage.t
}.

Definition onSession {A} (m : Js.M LocalStorage.t A) : Js.M Browser A :=
  Js.zoom sessionStorage (λ f b, mkBrowser f (localStorage b)) m.

Definition onLocal {A} (m : Js.M LocalStorage.t A) : Js.M Browser A :=
  Js.zoom localStorage (λ f b, mkBrowser (sessionStorage b) f) m.

(** [Object.keys(localStorage)] *)
Definition Object_keys : Js.M LocalStorage.t (list string) :=
  λ f, if LocalStorage.blocked f then (Js.Throw "SecurityError", f)
       else (Js.Normal (LocalStorage.keys f), f).

(** [array.forEach(f)] *)
Fixpoint forEach {W A} (l : list A) (f : A → Js.M W unit) : Js.M W unit :=
  match l with
  | [] => Js.ret tt
  | x :: rest => Js.bind (f x) (λ _ : unit, forEach rest f)
  end.

(** The check for a reset in progress, at the top of the component: the
    result is [isResetting]. *)
Definition detectReset (hasWindow : bool) : Js.M Browser bool :=
  Js.bind
    (if hasWindow then
       flag ← onSession (LocalStorage.getItem "voting-reset-in-progress");
       Js.ret (bool_decide (flag = Some "true"))
     else Js.ret false)
    (λ isResetting : bool,
       (if isResetting then
          onSession (LocalStorage.removeItem "voting-reset-in-progress");;
          Js.when hasWindow
            (keys ← onLocal Object_keys;
             forEach keys
               (λ key, Js.when (String.prefix "voting-state-" key)
                         (onLocal (LocalStorage.removeItem key))))
        else Js.ret tt);;
       Js.ret isResetting).

End VotingProvider.

(** ** The per-contestant voting hook ([useContestantVoting]) *)

Module ContestantVoting.

Abbreviation Stored := SerializableUserVoteState.t.

(** The cells of the hook: [isVoting], [voteCount], [error] and the ref
    [isMountedRef]. *)
Record Cells : Type := mkCells {
  isVoting : bool;
  voteCount : Z;
  error : option AppError.t;
  isMounted : bool
}.

Record World : Type := mkWorld {
  cells : Cells;
  storage : UseLocalStorage.World Stored
}.

(** What [submitVote] resolves to. *)
Record VoteResponse : Type := mkResponse {
  success : bool;
  responseVoteCount : Z;
  responseError : option string
}.

Inductive Submission : Type :=
| Resolved (response : VoteResponse)
| Rejected (message : option string).

Definition storageKey (sessionId : string) : string :=
  "voting-state-" +:+ sessionId.

(** [voteState.votedContestants.includes(contestantId)] at a render. *)
Definition hasVoted (render : VoteRender.t) : bool :=
  existsb (String.eqb (VoteRender.contestantId render))
    (SerializableUserVoteState.votedContestants (VoteRender.voteState render)).

Definition createVoteError (render : VoteRender.t) (code : VoteErrorCode)
    (message : string) (retryAction : option RetryAction) : AppError.t :=
  {| AppError.type := VOTE_ERROR;
     AppError.message := message;
     AppError.recoverable := bool_decide (is_Some retryAction);
     AppError.retryAction := retryAction;
     AppError.code := Some code;
     AppError.contestantId := Some (VoteRender.contestantId render);
     AppError.details :=
       [("contestantId", VoteRender.contestantId render);
        ("sessionId", VoteRender.sessionId render)] |}.

(** The [switch] on [response.error]. *)
Definition classify (responseError : option string) : VoteErrorCode * string :=
  match responseError with
  | Some "VOTE_LIMIT_EXCEEDED" =>
      (VOTE_LIMIT_EXCEEDED, "You have reached your voting limit")
  | Some "VOTING_CLOSED" => (VOTING_CLOSED, "Voting window has closed")
  | Some "CONTESTANT_INACTIVE" =>
      (CONTESTANT_INACTIVE, "This contestant is no longer active")
  | Some "" | None => (INVALID_CONTESTANT, "Failed to submit vote")
  | Some other => (INVALID_CONTESTANT, other)
  end.

(** The state the optimistic update writes. *)
Definition optimisticVoteState (nowISO : string) (render : VoteRender.t) : Stored :=
  let voteState := VoteRender.voteState render in
  {| SerializableUserVoteState.sessionId :=
       SerializableUserVoteState.sessionId voteState;
     SerializableUserVoteState.votedContestants :=
       SerializableUserVoteState.votedContestants voteState
       ++ [VoteRender.contestantId render];
     SerializableUserVoteState.totalVotes :=
       SerializableUserVoteState.totalVotes voteState + 1;
     SerializableUserVoteState.lastUpdated := nowISO |}.

Definition setCells (f : Cells → Cells) : Js.M World unit :=
  Js.modify (λ w, mkWorld (f (cells w)) (storage w)).

Definition setIsVoting (b : bool) : Js.M World unit :=
  setCells (λ c, mkCells b (voteCount c) (error c) (isMounted c)).

Definition setVoteCount (f : Z → Z) : Js.M World unit :=
  setCells (λ c, mkCells (isVoting c) (f (voteCount c)) (error c) (isMounted c)).

Definition setError (e : option AppError.t) : Js.M World unit :=
  setCells (λ c, mkCells (isVoting c) (voteCount c) e (isMounted c)).

Definition unmount : Js.M World unit :=
  setCells (λ c, mkCells (isVoting c) (voteCount c) (error c) false).

(** A submission that did not succeed: the promise rejected, or resolved
    to a response without [success]. *)
Definition failed (outcome : Submission) : Prop :=
  match outcome with
  | Rejected _ => True
  | Resolved response => success response = false
  end.

(** The error [vote] builds for a failed submission; its retry action is
    the [vote] callback itself. *)
Definition failureError (render : VoteRender.t) (outcome : Submission)
  : AppError.t :=
  match outcome with
  | Rejected message =>
      createVoteError render NETWORK_FAILURE
        (default "Network error occurred" message) (Some (RetryVote render))
  | Resolved response =>
      createVoteError render (fst (classify (responseError response)))
        (snd (classify (responseError response))) (Some (RetryVote render))
  end.

Definition alreadyVotedError (render : VoteRender.t) : AppError.t :=
  createVoteError render ALREADY_VOTED
    "You have already voted for this contestant" None.

(** The world with its [error] cell replaced. *)
Definition withError (e : option AppError.t) (w : World) : World :=
  mkWorld (mkCells (isVoting (cells w)) (voteCount (cells w)) e
                   (isMounted (cells w)))
          (storage w).

Section Hook.

Variable JSON_stringify : Stored → string.
Variable hasWindow : bool.

(** [setVoteState], the adapter's [setValue] of the render. *)
Definition setVoteState (render : VoteRender.t) (v : Stored) : Js.M World unit :=
  Js.zoom storage (λ s w, mkWorld (cells w) s)
    (UseLocalStorage.setStoredValue Stored JSON_stringify hasWindow
       (storageKey (VoteRender.sessionId render))
       (UseLocalStorage.mkState (VoteRender.voteState render) None
          (VoteRender.storageSupported render) true)
       (UseLocalStorage.Value v)).

(** "Rollback optimistic update". *)
Definition rollback (render : VoteRender.t) : Js.M World unit :=
  setVoteState render (VoteRender.voteState render);;
  setVoteCount (λ _, VoteRender.voteCount render).

(** The [catch] block of [vote]. *)
Definition catchBlock (render : VoteRender.t) (message : option string)
  : Js.M World unit :=
  mounted ← Js.gets (λ w, isMounted (cells w));
  if negb mounted then Js.ret tt
  else
    rollback render;;
    setError (Some (createVoteError render NETWORK_FAILURE
                      (default "Network error occurred" message)
                      (Some (RetryVote render)))).

(** The [finally] block of [vote]. *)
Definition finallyBlock : Js.M World unit :=
  mounted ← Js.gets (λ w, isMounted (cells w));
  Js.when mounted (setIsVoting false).

(** [vote] up to [await submitVote(contestantId)]: the result is the
    contestant whose submission is left outstanding, if any. *)
Definition vote_call (nowISO : string) (render : VoteRender.t)
  : Js.M World (option string) :=
  if hasVoted render then
    setError (Some (alreadyVotedError render));;
    Js.ret None
  else if VoteRender.isVoting render then Js.ret None
  else
    setIsVoting true;;
    setError None;;
    submitted ← Js.tryCatch
      (setVoteState render (optimisticVoteState nowISO render);;
       setVoteCount (λ prev, prev + 1);;
       Js.ret (Some (VoteRender.contestantId render)))
      (λ err, catchBlock render (Some err);; Js.ret None);
    match submitted with
    | Some contestantId => Js.ret (Some contestantId)
    | None => finallyBlock;; Js.ret None
    end.

(** [vote] from the point where the submission settles. *)
Definition vote_settle (render : VoteRender.t) (outcome : Submission)
  : Js.M World unit :=
  Js.tryCatch
    (match outcome with
     | Rejected message => Js.throw (default "" message)
     | Resolved response =>
         mounted ← Js.gets (λ w, isMounted (cells w));
         if negb mounted then Js.ret tt
         else if success response then
           setVoteCount (λ _, responseVoteCount response)
         else
           let '(errorCode, errorMessage) := classify (responseError response) in
           rollback render;;
           setError (Some (createVoteError render errorCode errorMessage
                             (Some (RetryVote render))))
     end)
    (λ err, catchBlock render
              (match outcome with
               | Rejected None => None
               | _ => Some err
               end));;
  finallyBlock.

(** The adapter after [setVoteState(v)] called from a render. *)
Definition written (render : VoteRender.t) (v : Stored)
    (s : UseLocalStorage.World Stored) : UseLocalStorage.World Stored :=
  snd (UseLocalStorage.setStoredValue Stored JSON_stringify hasWindow
         (storageKey (VoteRender.sessionId render))
         (UseLocalStorage.mkState (VoteRender.voteState render) None
            (VoteRender.storageSupported render) true)
         (UseLocalStorage.Value v) s).

(** The render of the hook at the current state. *)
Definition currentRender (contestantId sessionId : string) (w : World)
  : VoteRender.t :=
  {| VoteRender.contestantId := contestantId;
     VoteRender.sessionId := sessionId;
     VoteRender.isVoting := isVoting (cells w);
     VoteRender.voteCount := voteCount (cells w);
     VoteRender.voteState :=
       UseLocalStorage.value (UseLocalStorage.hook (storage w));
     VoteRender.storageSupported :=
       UseLocalStorage.isSupported (UseLocalStorage.hook (storage w)) |}.

(** Running the closure an error carries as its retry action. *)
Definition retry (nowISO : string) (action : RetryAction)
  : Js.M World (option string) :=
  match action with
  | RetryVote closure => vote_call nowISO closure
  | ClearVoteError => setError None;; Js.ret None
  | ClearStorageError =>
      Js.zoom storage (λ s w, mkWorld (cells w) s)
        (UseLocalStorage.setError Stored None);;
      Js.ret None
  end.

End Hook.

(** The effect that turns an error of the adapter into an error of the
    hook; [storageError] and [error] are those of the render the effect
    belongs to. *)
Definition storageErrorEffect (render : VoteRender.t)
    (storageError error : option AppError.t) : Js.M World unit :=
  match storageError, error with
  | Some e, None =>
      setError (Some (createVoteError render NETWORK_FAILURE
                        ("Storage error: " +:+ AppError.message e)
                        (Some ClearVoteError)))
  | _, _ => Js.ret tt
  end.

End ContestantVoting.

(** ** The polling controller ([usePolling])

    Time is counted in milliseconds.  The platform keeps the intervals
    that [setInterval] created and [clearInterval] has not removed; an
    interval with period [p] fires [p], [2p], [3p], ... milliseconds after
    its creation (a period below one millisecond counts as one).

    The hook is a component of React: when one of its cells ([isPolling],
    [error]) has changed, React renders it again and then runs the effects
    whose dependencies differ from those of the render before.  React
    brings the hook up to date before a timeout runs and before time goes
    on; a zero-delay timeout runs within the millisecond that follows. *)

Module Polling.

Record Timer : Type := mkTimer {
  timerId : nat;
  period : nat;
  remaining : nat
}.

(** The options a render of the hook was called with. *)
Record Options : Type := mkOptions {
  interval : nat;
  enabled : bool;
  immediate : bool
}.

(** The cells and refs of the hook, the platform's timers, the number of
    times the refresh callback has been invoked, and the last render of
    the hook: its options and the value of [isPolling] it read ([None]
    before the first render). *)
Record State : Type := mkState {
  isPolling : bool;
  error : option string;
  intervalRef : option nat;
  isMounted : bool;
  timers : list Timer;
  nextTimerId : nat;
  timeouts : list Options;
  invocations : nat;
  rendered : option (Options * bool)
}.

Definition setIsPolling (b : bool) (s : State) : State :=
  mkState b (error s) (intervalRef s) (isMounted s) (timers s)
          (nextTimerId s) (timeouts s) (invocations s) (rendered s).

Definition setError (e : option string) (s : State) : State :=
  mkState (isPolling s) e (intervalRef s) (isMounted s) (timers s)
          (nextTimerId s) (timeouts s) (invocations s) (rendered s).

(** [setInterval(executeCallback, interval)], stored in [intervalRef]. *)
Definition setInterval (interval : nat) (s : State) : State :=
  mkState (isPolling s) (error s) (Some (nextTimerId s)) (isMounted s)
          (timers s ++ [mkTimer (nextTimerId s) (Nat.max 1 interval)
                                (Nat.max 1 interval)])
          (S (nextTimerId s)) (timeouts s) (invocations s) (rendered s).

(** [clearInterval(intervalRef.current); intervalRef.current = null] *)
Definition clearInterval (id : nat) (s : State) : State :=
  mkState (isPolling s) (error s) None (isMounted s)
          (filter (λ t, timerId t ≠ id) (timers s))
          (nextTimerId s) (timeouts s) (invocations s) (rendered s).

(** [executeCallback] up to its [await]: the refresh callback is invoked
    unless the hook is unmounted. *)
Definition executeCallback (s : State) : State :=
  if negb (isMounted s) then s
  else mkState (isPolling s) (error s) (intervalRef s) (isMounted s)
               (timers s) (nextTimerId s) (timeouts s) (S (invocations s))
               (rendered s).

(** [executeCallback] once the refresh has settled: [None] for success,
    the error otherwise. *)
Definition executeCallback_settle (failure : option string) (s : State) : State :=
  if negb (isMounted s) then s
  else match failure with
       | None => setError None s
       | Some e => setError (Some e) s
       end.

Definition start (options : Options) (s : State) : State :=
  if negb (isMounted s) then s
  else if bool_decide (is_Some (intervalRef s)) then s
  else
    let s1 := setError None (setIsPolling true s) in
    let s2 := if immediate options then executeCallback s1 else s1 in
    setInterval (interval options) s2.

Definition stop (s : State) : State :=
  if negb (isMounted s) then s
  else
    setIsPolling false
      (match intervalRef s with
       | Some id => clearInterval id s
       | None => s
       end).

(** [restart]: [stop], then [start] from a zero-delay timeout. *)
Definition restart (options : Options) (s : State) : State :=
  let s1 := stop s in
  mkState (isPolling s1) (error s1) (intervalRef s1) (isMounted s1)
          (timers s1) (nextTimerId s1) (timeouts s1 ++ [options])
          (invocations s1) (rendered s1).

(** The zero-delay timeouts that are due run, each starting the
    controller if it is still mounted. *)
Definition runTimeouts (s : State) : State :=
  fold_left (λ acc options, if isMounted acc then start options acc else acc)
            (timeouts s)
            (mkState (isPolling s) (error s) (intervalRef s) (isMounted s)
                     (timers s) (nextTimerId s) [] (invocations s)
                     (rendered s)).

(** The cleanup of the hook when its consumer is torn down. *)
Definition unmount (s : State) : State :=
  let s1 := mkState (isPolling s) (error s) (intervalRef s) false (timers s)
                    (nextTimerId s) (timeouts s) (invocations s)
                    (rendered s) in
  match intervalRef s with
  | Some id =>
      mkState (isPolling s1) (error s1) (intervalRef s1) false
              (filter (λ t, timerId t ≠ id) (timers s1))
              (nextTimerId s1) (timeouts s1) (invocations s1) (rendered s1)
  | None => s1
  end.

(** *** Renders and effects *)

Definition setRendered (r : Options * bool) (s : State) : State :=
  mkState (isPolling s) (error s) (intervalRef s) (isMounted s) (timers s)
          (nextTimerId s) (timeouts s) (invocations s) (Some r).

(** The effect "Auto-start/stop based on enabled option". *)
Definition enabledEffect (options : Options) (s : State) : State :=
  if enabled options then start options s else stop s.

(** The effect "Handle interval changes"; [polling] is [isPolling] as the
    render read it. *)
Definition intervalEffect (options : Options) (polling : bool) (s : State)
  : State :=
  if polling then restart options s else s.

(** [start], and with it [restart], is a [useCallback] that changes when
    [interval] or [immediate] does; [stop] and [executeCallback] never
    change. *)
Definition sameStart (last options : Options) : bool :=
  Nat.eqb (interval last) (interval options)
  && Bool.eqb (immediate last) (immediate options).

(** The dependencies [[enabled, start, stop]] of the first effect, and
    [[interval, isPolling, restart]] of the second, against the render
    before. *)
Definition enabledEffectDue (options : Options) (s : State) : bool :=
  match rendered s with
  | None => true
  | Some (last, _) =>
      negb (Bool.eqb (enabled last) (enabled options) && sameStart last options)
  end.

Definition intervalEffectDue (options : Options) (polling : bool) (s : State)
  : bool :=
  match rendered s with
  | None => true
  | Some (last, lastPolling) =>
      negb (sameStart last options && Bool.eqb lastPolling polling)
  end.

(** One render of the hook with [options], and the effects that React
    runs after it, in the order of the source.  Both effects read the
    values of the render. *)
Definition render (options : Options) (s : State) : State :=
  if negb (isMounted s) then s
  else
    let polling := isPolling s in
    let s1 := if enabledEffectDue options s then enabledEffect options s
              else s in
    let s2 := if intervalEffectDue options polling s
              then intervalEffect options polling s1 else s1 in
    setRendered (options, polling) s2.

(** The value of [isPolling] is the one the last render read. *)
Definition upToDate (s : State) : bool :=
  match rendered s with
  | None => true
  | Some (_, polling) => Bool.eqb (isPolling s) polling
  end.

(** React renders the hook again, with the options of the last render,
    while [isPolling] differs from what that render read. *)
Fixpoint rerenders (fuel : nat) (s : State) : State :=
  match fuel with
  | O => s
  | S fuel' =>
      match rendered s with
      | Some (options, _) =>
          if upToDate s then s else rerenders fuel' (render options s)
      | None => s
      end
  end.

(** Two renders bring a mounted hook up to date (lemma
    [rerender_upToDate]). *)
Definition rerender (s : State) : State := rerenders 2 s.

(** The first render of the hook, and what follows from it. *)
Definition initial : State :=
  mkState false None None true [] 0%nat [] 0%nat None.

Definition mount (options : Options) : State :=
  rerender (render options initial).

(** *** Time *)

(** One millisecond passes for one interval. *)
Definition tickTimer (t : Timer) : Timer * bool :=
  if (remaining t <=? 1)%nat then (mkTimer (timerId t) (period t) (period t), true)
  else (mkTimer (timerId t) (period t) (remaining t - 1), false).

(** One millisecond passes: every interval that is due fires, and each
    firing runs [executeCallback]. *)
Definition fire (s : State) : State :=
  let ticked := map tickTimer (timers s) in
  let fired := length (filter (λ r, snd r = true) ticked) in
  Nat.iter fired executeCallback
    (mkState (isPolling s) (error s) (intervalRef s) (isMounted s)
             (map fst ticked) (nextTimerId s) (timeouts s) (invocations s)
             (rendered s)).

(** The hook is brought up to date, the timeouts that are due run, the
    hook is brought up to date again, and then the millisecond passes. *)
Definition tick (s : State) : State :=
  fire (rerender (runTimeouts (rerender s))).

Definition advance (elapsed : nat) (s : State) : State :=
  Nat.iter elapsed tick s.

(** A mounted controller with no interval and no restart pending. *)
Definition idle (s : State) : Prop :=
  isMounted s = true ∧ intervalRef s = None ∧ isPolling s = false
  ∧ timers s = [] ∧ timeouts s = [].

(** What can happen to the controller: a call of one of the functions it
    returns, passing time, the settlement of a refresh, and a render by
    its parent. *)
Inductive Action : Type :=
| Start (options : Options)
| Stop
| Restart (options : Options)
| Advance (elapsed : nat)
| Settle (failure : option string)
| Render (options : Options).

Definition perform (a : Action) (s : State) : State :=
  rerender
    (match a with
     | Start options => start options s
     | Stop => stop s
     | Restart options => restart options s
     | Advance elapsed => advance elapsed s
     | Settle failure => executeCallback_settle failure s
     | Render options => render options s
     end).

Definition performAll (actions : list Action) (s : State) : State :=
  fold_left (λ s a, perform a s) actions s.

(** What is left in place of an unmounted controller. *)
Definition frozen (s s' : State) : Prop :=
  isMounted s' = false ∧ invocations s' = invocations s
  ∧ isPolling s' = isPolling s ∧ error s' = error s
  ∧ intervalRef s' = intervalRef s.




End Polling.

(** ** The vote button of a contestant card ([ContestantCard.handleVote]) *)

Module ContestantCard.

(** What [handleVote] reads at the render it closes over: the props, the
    store's [hasVotedFor] for the contestant, and the card's own
    [isVoting] cell. *)
Record Render : Type := mkRender {
  votingEnabled : bool;
  hasVoted : bool;
  isVoting : bool;
  contestantIsActive : bool
}.

(** [handleVote] up to [await addVote(contestant.id)]: the new value of
    the card's [isVoting] cell, and whether [addVote] is called. *)
Definition handleVote_call (render : Render) (isVotingCell : bool)
  : bool * bool :=
  if negb (votingEnabled render) || hasVoted render || isVoting render
     || negb (contestantIsActive render)
  then (isVotingCell, false)
  else (true, true).

(** [handleVote] after the [await]: the [finally] block clears the cell. *)
Definition handleVote_finally : bool := false.

(** What [getButtonState] returns. *)
Record ButtonState : Type := mkButtonState {
  disabled : bool;
  text : string;
  className : string
}.

Definition getButtonState (render : Render) : ButtonState :=
  if negb (contestantIsActive render) then
    mkButtonState true "Inactive" "bg-gray-300 text-gray-500 cursor-not-allowed"
  else if negb (votingEnabled render) then
    mkButtonState true "Voting Closed"
      "bg-gray-300 text-gray-500 cursor-not-allowed"
  else if hasVoted render then
    mkButtonState true "Voted âœ“" "bg-green-500 text-white cursor-not-allowed"
  else if isVoting render then
    mkButtonState true "Voting..." "bg-blue-400 text-white cursor-not-allowed"
  else
    mkButtonState false "Vote"
      "bg-blue-600 text-white hover:bg-blue-700 focus:ring-blue-500 cursor-pointer".

End ContestantCard.

(** ** The mock data service ([utils/mockData])

    The in-memory back end the store submits votes to.  [Math.random()]
    draws come from a sequence the world carries ([randoms]; past its end
    every draw is [0]); a draw is a rational in [[0, 1)], so the rounding of
    floating-point products is not modelled.  The [Map] of users to [Set]s
    of contestant ids is a finite map of finite sets.  An [async] method is
    taken from the end of its [delay] to the settlement of its promise; the
    draw that fixes the length of the delay is made first. *)

Module MockDataService.

Definition mockContestants : list Contestant.t :=
  [ Contestant.mk "contestant-1" "Sarah Johnson"
      "https://images.unsplash.com/photo-1494790108755-2616b612b786?w=400&h=400&fit=crop&crop=face"
      "Professional singer from Nashville with a powerful voice and stage presence."
      1247 true (Some "Music");
    Contestant.mk "contestant-2" "Marcus Chen"
      "https://images.unsplash.com/photo-1507003211169-0a1dd7228f2d?w=400&h=400&fit=crop&crop=face"
      "Contemporary dancer and choreographer known for innovative performances."
      892 true (Some "Dance");
    Contestant.mk "contestant-3" "Emma Rodriguez"
      "https://images.unsplash.com/photo-1438761681033-6461ffad8d80?w=400&h=400&fit=crop&crop=face"
      "Stand-up comedian with sharp wit and relatable storytelling."
      1156 true (Some "Comedy");
    Contestant.mk "contestant-4" "David Thompson"
      "https://images.unsplash.com/photo-1472099645785-5658abf4ff4e?w=400&h=400&fit=crop&crop=face"
      "Magician specializing in close-up magic and mind-bending illusions."
      743 true (Some "Magic");
    Contestant.mk "contestant-5" "Aisha Patel"
      "https://images.unsplash.com/photo-1544005313-94ddf0286df2?w=400&h=400&fit=crop&crop=face"
      "Acrobat and aerial performer with breathtaking stunts and grace."
      1034 true (Some "Acrobatics");
    Contestant.mk "contestant-6" "Jake Williams"
      "https://images.unsplash.com/photo-1500648767791-00dcc994a43e?w=400&h=400&fit=crop&crop=face"
      "Multi-instrumentalist and songwriter with original compositions."
      567 true (Some "Music");
    Contestant.mk "contestant-7" "Luna Martinez"
      "https://images.unsplash.com/photo-1534528741775-53994a69daeb?w=400&h=400&fit=crop&crop=face"
      "Spoken word artist and poet with powerful social commentary."
      423 false (Some "Poetry");
    Contestant.mk "contestant-8" "Ryan O'Connor"
      "https://images.unsplash.com/photo-1506794778202-cad84cf45f1d?w=400&h=400&fit=crop&crop=face"
      "Beatboxer and vocal percussionist with incredible range and creativity."
      789 true (Some "Music") ].

(** [startTime] is 2025-07-28T00:00:00Z and [endTime] 2025-07-29T23:59:59Z,
    as time values. *)
Definition mockVotingSession : VotingSession.t :=
  {| VotingSession.id := "session-2025-finale";
     VotingSession.isActive := true;
     VotingSession.startTime := 1753660800000;
     VotingSession.endTime := 1753833599000;
     VotingSession.maxVotesPerUser := 3;
     VotingSession.contestants := map Contestant.id mockContestants |}.

(** The private fields of the class. *)
Record t : Type := mk {
  contestants : list Contestant.t;
  session : VotingSession.t;
  userVotes : gmap string (gset string);
  lastUpdateTime : Z
}.

Record World : Type := mkWorld {
  service : t;
  localStorage : LocalStorage.t;
  randoms : list Q
}.

(** The argument of [submitVote]; [userId] is optional. *)
Record VoteRequest : Type := mkRequest {
  contestantId : string;
  sessionId : string;
  userId : option string
}.

Record VoteResponse : Type := mkResponse {
  success : bool;
  contestant : Contestant.t;
  userVoteState : UserVoteState.t
}.

Record ContestantsResponse : Type := mkContestantsResponse {
  responseContestants : list Contestant.t;
  responseSession : VotingSession.t;
  timestamp : Z
}.

Record PollingUpdateResponse : Type := mkPollingResponse {
  pollContestants : list Contestant.t;
  pollSession : VotingSession.t;
  hasChanges : bool;
  pollTimestamp : Z
}.

Record Statistics : Type := mkStatistics {
  totalVotes : Z;
  activeContestants : nat;
  totalUsers : nat;
  lastUpdate : Z
}.

(** [Math.random()] *)
Definition Math_random : Js.M World Q :=
  λ w, (Js.Normal (hd 0%Q (randoms w)),
        mkWorld (service w) (localStorage w) (tl (randoms w))).

(** [Math.random() < rate] *)
Definition below (r rate : Q) : bool := negb (Qle_bool rate r).

(** [Math.floor(r * n)] *)
Definition scaled (r : Q) (n : Z) : Z := Qfloor (r * inject_Z n).

Definition setService (f : t → t) : Js.M World unit :=
  Js.modify (λ w, mkWorld (f (service w)) (localStorage w) (randoms w)).

Definition onStorage {A} (m : Js.M LocalStorage.t A) : Js.M World A :=
  Js.zoom localStorage (λ f w, mkWorld (service w) f (randoms w)) m.

Definition votesKey (s : t) : string :=
  "voting-app-votes-" +:+ VotingSession.id (session s).

(** [array[index]] *)
Definition at_index {A} (l : list A) (index : Z) : option A :=
  if index <? 0 then None else l !! Z.to_nat index.

Definition withVoteCount (voteCount : Z) (c : Contestant.t) : Contestant.t :=
  Contestant.mk (Contestant.id c) (Contestant.name c) (Contestant.imageUrl c)
    (Contestant.description c) voteCount (Contestant.isActive c)
    (Contestant.category c).

(** An assignment to [voteCount] of the first object of the array that
    [select] picks (the object [find] returned). *)
Fixpoint updateFirst (select : Contestant.t → bool) (f : Z → Z)
    (l : list Contestant.t) : list Contestant.t :=
  match l with
  | [] => []
  | c :: rest =>
      if select c then withVoteCount (f (Contestant.voteCount c)) c :: rest
      else c :: updateFirst select f rest
  end.

(** An assignment to [voteCount] of the object at [index] of the array
    [filter(select)] builds; the objects are those of the array itself. *)
Fixpoint updateSelected (select : Contestant.t → bool) (index : nat) (f : Z → Z)
    (l : list Contestant.t) : list Contestant.t :=
  match l with
  | [] => []
  | c :: rest =>
      if select c then
        match index with
        | O => withVoteCount (f (Contestant.voteCount c)) c :: rest
        | S index' => c :: updateSelected select index' f rest
        end
      else c :: updateSelected select index f rest
  end.

(** An assignment to [voteCount] of the object at [index]. *)
Definition updateAt (index : nat) (f : Z → Z) (l : list Contestant.t)
  : list Contestant.t :=
  alter (λ c, withVoteCount (f (Contestant.voteCount c)) c) index l.

(** The messages [simulateError] picks from. *)
Definition errors : list string :=
  [ "Network timeout"; "Server temporarily unavailable";
    "Rate limit exceeded"; "Invalid request format" ].

Definition simulateError (errorRate : Q) : Js.M World unit :=
  r ← Math_random;
  if below r errorRate then
    pick ← Math_random;
    Js.throw (default "" (at_index errors (scaled pick (Z.of_nat (length errors)))))
  else Js.ret tt.

Section Service.

(** [JSON.stringify] of the record of arrays [saveVotesToStorage] builds,
    and [JSON.parse] of a stored text read back as such a record ([None]:
    the text does not parse, or reading the value as a record of arrays
    throws). *)
Variable JSON_stringify : gmap string (list string) → string.
Variable JSON_parse : string → option (gmap string (list string)).
Variable hasWindow : bool.

Definition loadPersistedVotes : Js.M World unit :=
  if negb hasWindow then Js.ret tt
  else
    Js.tryCatch
      (key ← Js.gets (λ w, votesKey (service w));
       storedVotes ← onStorage (LocalStorage.getItem key);
       match storedVotes with
       | None => Js.ret tt
       | Some text =>
           if String.eqb text "" then Js.ret tt
           else match JSON_parse text with
                | None => Js.throw "SyntaxError"
                | Some votesData =>
                    setService (λ s, mk (contestants s) (session s)
                                        (list_to_set <$> votesData)
                                        (lastUpdateTime s))
                end
       end)
      (λ _, Js.ret tt).

Definition saveVotesToStorage : Js.M World unit :=
  if negb hasWindow then Js.ret tt
  else
    Js.tryCatch
      (s ← Js.gets service;
       onStorage (LocalStorage.setItem (votesKey s)
                    (JSON_stringify (elements <$> userVotes s))))
      (λ _, Js.ret tt).

(** [new MockDataService()] at time [now]. *)
Definition construct (now : Z) (storage : LocalStorage.t) (randoms : list Q)
  : World :=
  snd (loadPersistedVotes
         (mkWorld (mk mockContestants mockVotingSession ∅ now) storage randoms)).

(** [delay()] up to its timeout: the length of the delay in
    milliseconds. *)
Definition delay (base spread : Z) : Js.M World Q :=
  r ← Math_random; Js.ret (inject_Z base + r * inject_Z spread)%Q.

Definition getContestants (now : Z) : Js.M World ContestantsResponse :=
  delay 300 700;;
  simulateError 0.02;;
  s ← Js.gets service;
  Js.ret (mkContestantsResponse (contestants s) (session s) now).

(** [submitVote] from the end of its delay. *)
Definition submitVote_body (now : Z) (voteRequest : VoteRequest)
  : Js.M World VoteResponse :=
  simulateError 0.08;;
  s ← Js.gets service;
  let contestantId := contestantId voteRequest in
  let userId := default "anonymous" (userId voteRequest) in
  if negb (String.eqb (sessionId voteRequest) (VotingSession.id (session s)))
  then Js.throw "Invalid session ID"
  else if negb (VotingSession.isActive (session s))
  then Js.throw "Voting session is not active"
  else if (now <? VotingSession.startTime (session s))
          || (VotingSession.endTime (session s) <? now)
  then Js.throw "Voting window is closed"
  else
    match find (λ c, String.eqb (Contestant.id c) contestantId) (contestants s) with
    | None => Js.throw "Contestant not found"
    | Some contestant =>
        if negb (Contestant.isActive contestant)
        then Js.throw "Contestant is not active"
        else
          let userVoteSet := default ∅ (userVotes s !! userId) in
          if bool_decide (contestantId ∈ userVoteSet)
          then Js.throw "You have already voted for this contestant"
          else if VotingSession.maxVotesPerUser (session s)
                  <=? Z.of_nat (size userVoteSet)
          then Js.throw "You have reached your voting limit"
          else
            let userVoteSet' := {[contestantId]} ∪ userVoteSet in
            setService (λ s, mk (contestants s) (session s)
                                (<[userId := userVoteSet']> (userVotes s))
                                (lastUpdateTime s));;
            saveVotesToStorage;;
            setService (λ s, mk (updateFirst
                                   (λ c, String.eqb (Contestant.id c) contestantId)
                                   (λ n, n + 1) (contestants s))
                                (session s) (userVotes s) now);;
            Js.ret (mkResponse true
                      (withVoteCount (Contestant.voteCount contestant + 1) contestant)
                      (UserVoteState.mk (VotingSession.id (session s)) userVoteSet'
                         (Z.of_nat (size userVoteSet')) now))
    end.

Definition submitVote (now : Z) (voteRequest : VoteRequest)
  : Js.M World VoteResponse :=
  delay 500 1000;;
  submitVote_body now voteRequest.

Definition getVotingSession : Js.M World VotingSession.t :=
  delay 300 700;;
  simulateError 0.01;;
  Js.gets (λ w, session (service w)).

Definition pollUpdates (now : Z) (since : option Z)
  : Js.M World PollingUpdateResponse :=
  delay 200 300;;
  simulateError 0.03;;
  s ← Js.gets service;
  let hasChanges := match since with
                    | None => true
                    | Some t => t <? lastUpdateTime s
                    end in
  (if hasChanges then
     r ← Math_random;
     if below r 0.3 then
       index ← Math_random;
       match at_index (contestants s)
               (scaled index (Z.of_nat (length (contestants s)))) with
       | None => Js.throw "TypeError"
       | Some randomContestant =>
           Js.when (Contestant.isActive randomContestant)
             (by_ ← Math_random;
              setService (λ s', mk (updateAt
                                      (Z.to_nat (scaled index
                                         (Z.of_nat (length (contestants s)))))
                                      (λ n, n + (scaled by_ 5 + 1))
                                      (contestants s'))
                                   (session s') (userVotes s') now))
       end
     else Js.ret tt
   else Js.ret tt);;
  s' ← Js.gets service;
  Js.ret (mkPollingResponse (contestants s') (session s') hasChanges now).

Definition getUserVoteState (now : Z) (sessionId : string)
    (userId : option string) : Js.M World UserVoteState.t :=
  delay 300 700;;
  simulateError 0.02;;
  s ← Js.gets service;
  if negb (String.eqb sessionId (VotingSession.id (session s)))
  then Js.throw "Invalid session ID"
  else
    let userVoteSet := default ∅ (userVotes s !! default "anonymous" userId) in
    Js.ret (UserVoteState.mk (VotingSession.id (session s)) userVoteSet
              (Z.of_nat (size userVoteSet)) now).

Definition setVotingWindowStatus (now : Z) (isActive : bool) : Js.M World unit :=
  setService (λ s,
    mk (contestants s)
       (VotingSession.mk (VotingSession.id (session s)) isActive
          (VotingSession.startTime (session s)) (VotingSession.endTime (session s))
          (VotingSession.maxVotesPerUser (session s))
          (VotingSession.contestants (session s)))
       (userVotes s) now).

(** [contestants.forEach(c => c.voteCount = ...)], one draw for each. *)
Fixpoint redraw (l : list Contestant.t) : Js.M World (list Contestant.t) :=
  match l with
  | [] => Js.ret []
  | c :: rest =>
      r ← Math_random;
      rest' ← redraw rest;
      Js.ret (withVoteCount (scaled r 1000 + 100) c :: rest')
  end.

Definition resetVotes (now : Z) : Js.M World unit :=
  setService (λ s, mk (contestants s) (session s) ∅ (lastUpdateTime s));;
  s ← Js.gets service;
  redrawn ← redraw (contestants s);
  setService (λ s, mk redrawn (session s) (userVotes s) now).

Definition simulateVoteActivity (now : Z) : Js.M World unit :=
  s ← Js.gets service;
  let active := filter (λ c, Contestant.isActive c = true) (contestants s) in
  if (length active =? 0)%nat then Js.ret tt
  else
    index ← Math_random;
    match at_index active (scaled index (Z.of_nat (length active))) with
    | None => Js.throw "TypeError"
    | Some _ =>
        by_ ← Math_random;
        setService (λ s, mk (updateSelected Contestant.isActive
                               (Z.to_nat (scaled index (Z.of_nat (length active))))
                               (λ n, n + (scaled by_ 3 + 1))
                               (contestants s))
                            (session s) (userVotes s) now)
    end.

Definition getStatistics (s : t) : Statistics :=
  mkStatistics
    (fold_left (λ sum c, sum + Contestant.voteCount c) (contestants s) 0)
    (length (filter (λ c, Contestant.isActive c = true) (contestants s)))
    (size (userVotes s))
    (lastUpdateTime s).

(** The public methods, for runs of the service; the value a method
    returns is dropped. *)
Inductive Operation : Type :=
| GetContestants
| SubmitVote (voteRequest : VoteRequest)
| GetVotingSession
| PollUpdates (since : option Z)
| GetUserVoteState (sessionId : string) (userId : option string)
| SetVotingWindowStatus (isActive : bool)
| ResetVotes
| SimulateVoteActivity.

Definition step (now : Z) (op : Operation) (w : World) : World :=
  match op with
  | GetContestants => snd (getContestants now w)
  | SubmitVote voteRequest => snd (submitVote now voteRequest w)
  | GetVotingSession => snd (getVotingSession w)
  | PollUpdates since => snd (pollUpdates now since w)
  | GetUserVoteState sessionId userId =>
      snd (getUserVoteState now sessionId userId w)
  | SetVotingWindowStatus isActive => snd (setVotingWindowStatus now isActive w)
  | ResetVotes => snd (resetVotes now w)
  | SimulateVoteActivity => snd (simulateVoteActivity now w)
  end.

Definition run (ops : list (Z * Operation)) (w : World) : World :=
  fold_left (λ w '(now, op), step now op w) ops w.

Definition keepsVotes (op : Operation) : bool :=
  match op with
  | ResetVotes => false
  | _ => true
  end.

(** The votes the service holds for a user. *)
Definition votesOf (userId : string) (w : World) : gset string :=
  default ∅ (userVotes (service w) !! userId).

(** No user holds more votes than the session allows. *)
Definition withinLimit (w : World) : Prop :=
  ∀ userId, Z.of_nat (size (votesOf userId w))
            ≤ VotingSession.maxVotesPerUser (session (service w)).

(** A contestant at a later time: the same object, its vote count no
    lower, and the same if the contestant is inactive. *)
Definition later (before after : Contestant.t) : Prop :=
  after = withVoteCount (Contestant.voteCount after) before
  ∧ Contestant.voteCount before ≤ Contestant.voteCount after
  ∧ (Contestant.isActive before = false
     → Contestant.voteCount after = Contestant.voteCount before).

(** Every draw left is a number in [[0, 1)]. *)
Definition unitDraws (w : World) : Prop :=
  Forall (λ r, (0 <= r)%Q ∧ (r < 1)%Q) (randoms w).

End Service.

End MockDataService.

(** ** The store with the mock service behind it

    [addVote] of the provider submits to [mockDataService.submitVote] as
    user ['anonymous'].  An event is a plain action of the provider, a call
    of [addVote] (which, when it passes validation, calls [submitVote] and
    so makes the draw of its delay), the settlement of the oldest
    outstanding submission for a contestant (the delay ends, the service
    runs the submission, and [addVote] continues with its outcome), or a
    method of the service called by some other client. *)

Module App.

Import Store.

Record t : Type := mk {
  store : Machine;
  backend : MockDataService.World
}.

Inductive Event : Type :=
| Dispatch (action : VotingAction)
| AddVoteCall (contestantId : string)
| AddVoteSettle (contestantId : string)
| Service (op : MockDataService.Operation).

(** The request as the service reads it. *)
Definition toService (request : VoteRequest) : MockDataService.VoteRequest :=
  MockDataService.mkRequest (contestantId request) (sessionId request)
    (Some (userId request)).

(** What [addVote] sees of the settled promise: the service throws
    [Error]s, whose message [addVote] reads. *)
Definition submission (c : Js.completion MockDataService.VoteResponse)
  : Submission :=
  match c with
  | Js.Normal _ => Resolved
  | Js.Throw message => Rejected (Some message)
  end.

(** The events that leave the votes of the service in place. *)
Definition keepsVotes (e : Event) : bool :=
  match e with
  | Service op => MockDataService.keepsVotes op
  | _ => true
  end.

Section Wiring.

Variable loadTime : Z.
Variable JSON_stringify : gmap string (list string) → string.
Variable hasWindow : bool.

Definition step (now : Z) (e : Event) (a : t) : option t :=
  match e with
  | Dispatch action =>
      if plain action
      then Some (mk (mkMachine (votingReducer loadTime now (state (store a)) action)
                               (outstanding (store a)))
                    (backend a))
      else None
  | AddVoteCall contestantId =>
      match addVote_call loadTime now (state (store a)) contestantId
              (state (store a)) with
      | (state', None) =>
          Some (mk (mkMachine state' (outstanding (store a))) (backend a))
      | (state', Some request) =>
          Some (mk (mkMachine state' (outstanding (store a) ++ [request]))
                   (snd (MockDataService.delay 500 1000 (backend a))))
      end
  | AddVoteSettle contestantId =>
      match takeRequest contestantId (outstanding (store a)) with
      | Some (request, rest) =>
          let '(completion, backend') :=
            MockDataService.submitVote_body JSON_stringify hasWindow now
              (toService request) (backend a) in
          Some (mk (mkMachine
                      (addVote_settle loadTime now contestantId
                         (submission completion) (state (store a)))
                      rest)
                   backend')
      | None => None
      end
  | Service op =>
      Some (mk (store a)
               (MockDataService.step JSON_stringify hasWindow now op (backend a)))
  end.

Fixpoint run (events : list (Z * Event)) (a : t) : option t :=
  match events with
  | [] => Some a
  | (now, e) :: rest =>
      match step now e a with
      | Some a' => run rest a'
      | None => None
      end
  end.

End Wiring.

End App.

(** ** The HTTP client ([utils/api])

    [fetch] belongs to the platform: it is a parameter that gives, for a
    URL and the request options, what the promise settles to.  When the
    timeout of [apiRequest] aborts the request, [fetch] rejects with an
    error named [AbortError].  Values of type [any] ([details]) are values
    of a type [Json] of the platform. *)

Module Api.

Definition API_TIMEOUT : Z := 10000.

(** What a promise settles to: a value, a rejection with an [Error]
    ([name], [message]), or a rejection with some other value. *)
Inductive Settled (A : Type) : Type :=
| Fulfilled (a : A)
| RejectedError (name message : string)
| RejectedOther.
Arguments Fulfilled {A} a.
Arguments RejectedError {A} name message.
Arguments RejectedOther {A}.

Record RequestInit : Type := mkInit {
  method : option string;
  body : option string;
  headers : list (string * string)
}.

(** [String.prototype.includes] *)
Fixpoint includes (needle haystack : string) : bool :=
  String.prefix needle haystack
  || match haystack with
     | EmptyString => false
     | String _ rest => includes needle rest
     end.

(** [value || fallback] on strings: the empty string is falsy. *)
Definition orElse (value : option string) (fallback : string) : string :=
  match value with
  | Some "" | None => fallback
  | Some v => v
  end.

Section Client.

Variable Json : Type.
(** A number, a string and [undefined] as values of type [any], and the
    own enumerable properties an object spread copies. *)
Variable JSON_number : Z → Json.
Variable JSON_string : string → Json.
Variable undefined : Json.
Variable ownProperties : Json → gmap string Json.

(** The class [ApiError]. *)
Record ApiError : Type := mkApiError {
  message : string;
  status : Z;
  code : option string;
  details : option Json
}.

(** The body of an error response as [apiRequest] reads it. *)
Record ErrorData : Type := mkErrorData {
  dataMessage : option string;
  dataCode : option string;
  dataDetails : option Json
}.

(** A response: [json] is what [response.json()] settles to, read as the
    data of the caller; [errorData] is the same body read as the
    description of an error, [None] when [response.json()] rejects or
    gives no object. *)
Record Response (T : Type) : Type := mkResponse {
  responseStatus : Z;
  statusText : string;
  json : Settled T;
  errorData : option ErrorData
}.
Arguments responseStatus {T}.
Arguments statusText {T}.
Arguments json {T}.
Arguments errorData {T}.
Arguments mkResponse {T}.

(** [response.ok] *)
Definition ok {T} (response : Response T) : bool :=
  (200 <=? responseStatus response) && (responseStatus response <=? 299).

(** The [AppError] that [convertToAppError] builds. *)
Record AppError : Type := mkAppError {
  type : ErrorType;
  appMessage : string;
  recoverable : bool;
  appDetails : gmap string Json
}.

(** The value of an optional string property. *)
Definition property (value : option string) : Json :=
  match value with
  | Some v => JSON_string v
  | None => undefined
  end.

(** The outer [catch] of [apiRequest], for a value that is no
    [ApiError]. *)
Definition caught (name message : string) : ApiError :=
  if String.eqb name "AbortError"
  then mkApiError "Request timeout" 408 (Some "TIMEOUT") None
  else if includes "Failed to fetch" message
  then mkApiError "Network error - please check your connection" 0
         (Some "NETWORK_ERROR") None
  else mkApiError "An unexpected error occurred" 500 (Some "UNKNOWN_ERROR") None.

Definition unexpected : ApiError :=
  mkApiError "An unexpected error occurred" 500 (Some "UNKNOWN_ERROR") None.

(** [process.env.NEXT_PUBLIC_API_BASE_URL || '/api'] *)
Definition API_BASE_URL (env : option string) : string := orElse env "/api".

Section Request.

Variable T : Type.
Variable env : option string.
Variable fetch : string → RequestInit → Settled (Response T).

(** The result is the data, or the [ApiError] thrown. *)
Definition apiRequest (endpoint : string) (options : RequestInit) : T + ApiError :=
  match fetch (API_BASE_URL env +:+ endpoint)
          (mkInit (method options) (body options)
                  (("Content-Type", "application/json") :: headers options)) with
  | Fulfilled response =>
      if negb (ok response) then
        let errorMessage :=
          "HTTP " +:+ pretty (responseStatus response) +:+ ": "
          +:+ statusText response in
        let errorCode := pretty (responseStatus response) in
        inr (match errorData response with
             | Some d =>
                 mkApiError (orElse (dataMessage d) errorMessage)
                   (responseStatus response)
                   (Some (orElse (dataCode d) errorCode))
                   (dataDetails d)
             | None =>
                 mkApiError errorMessage (responseStatus response)
                   (Some errorCode) None
             end)
      else
        match json response with
        | Fulfilled data => inl data
        | RejectedError name message => inr (caught name message)
        | RejectedOther => inr unexpected
        end
  | RejectedError name message => inr (caught name message)
  | RejectedOther => inr unexpected
  end.

Definition convertToAppError (error : ApiError) : AppError :=
  let errorType :=
    match code error with
    | Some "NETWORK_ERROR" | Some "TIMEOUT" => NETWORK_ERROR
    | Some "VALIDATION_ERROR" => VALIDATION_ERROR
    | Some "VOTE_ERROR" => VOTE_ERROR
    | _ => NETWORK_ERROR
    end in
  mkAppError errorType (message error)
    ((status error <? 500) && negb (status error =? 0))
    (match details error with
     | Some d => ownProperties d
     | None => ∅
     end
     ∪ {[ "status" := JSON_number (status error);
          "code" := property (code error) ]}).

(** [try { return await apiRequest(...) } catch (error) { ... }] of the
    exported functions. *)
Definition converted (result : T + ApiError) : T + AppError :=
  match result with
  | inl data => inl data
  | inr error => inr (convertToAppError error)
  end.

Definition fetchContestants : T + AppError :=
  converted (apiRequest "/contestants" (mkInit None None [])).

Definition submitVote (JSON_stringify : MockDataService.VoteRequest → string)
    (voteRequest : MockDataService.VoteRequest) : T + AppError :=
  converted (apiRequest "/vote"
               (mkInit (Some "POST") (Some (JSON_stringify voteRequest)) [])).

Definition fetchVotingSession : T + AppError :=
  converted (apiRequest "/session" (mkInit None None [])).

Definition healthCheck : bool :=
  match apiRequest "/health" (mkInit (Some "GET") None []) with
  | inl _ => true
  | inr _ => false
  end.

End Request.

(** [validateVoteRequest]: the message, or [None] for [null]. *)
Definition validateVoteRequest (voteRequest : MockDataService.VoteRequest)
  : option string :=
  if String.eqb (MockDataService.contestantId voteRequest) ""
  then Some "Contestant ID is required"
  else if String.eqb (MockDataService.sessionId voteRequest) ""
  then Some "Session ID is required"
  else if (String.length (MockDataService.contestantId voteRequest) <? 1)%nat
  then Some "Invalid contestant ID"
  else if (String.length (MockDataService.sessionId voteRequest) <? 1)%nat
  then Some "Invalid session ID"
  else None.

(** *** [withRetry] *)

(** What a call of [apiCall] throws: an [ApiError], the [AppError] the
    exported functions throw, or some other value. *)
Inductive Thrown : Type :=
| ThrownApiError (error : ApiError)
| ThrownAppError (error : AppError)
| ThrownOther.

(** "Don't retry on client errors (4xx) except for 408". *)
Definition clientError (error : Thrown) : bool :=
  match error with
  | ThrownApiError e =>
      (400 <=? status e) && (status e <? 500) && negb (status e =? 408)
  | _ => false
  end.

(** The result ([None] as the thrown value: [lastError] was never
    assigned), the number of calls of [apiCall], and the delays slept
    through, in milliseconds. *)
Record Retried (T : Type) : Type := mkRetried {
  result : T + option Thrown;
  calls : nat;
  delays : list Q
}.
Arguments mkRetried {T}.
Arguments result {T}.
Arguments calls {T}.
Arguments delays {T}.

Section Retry.

Variable T : Type.
(** The outcome of the call of [apiCall] in each attempt, and the draw of
    [Math.random()] after each failed attempt. *)
Variable apiCall : nat → T + Thrown.
Variable jitter : nat → Q.
Variable maxRetries : Z.
Variable baseDelay : Q.

(** [baseDelay * Math.pow(2, attempt) + Math.random() * 1000] *)
Definition backoff (attempt : nat) : Q :=
  (baseDelay * inject_Z (2 ^ Z.of_nat attempt) + jitter attempt * 1000)%Q.

(** The [for] loop; [remaining] counts the attempts the loop condition
    still lets through. *)
Fixpoint attempts (remaining attempt : nat) (lastError : option Thrown)
    (slept : list Q) : Retried T :=
  match remaining with
  | O => mkRetried (inr lastError) attempt slept
  | S remaining' =>
      match apiCall attempt with
      | inl data => mkRetried (inl data) (S attempt) slept
      | inr error =>
          if clientError error then mkRetried (inr (Some error)) (S attempt) slept
          else if Z.of_nat attempt =? maxRetries
          then mkRetried (inr (Some error)) (S attempt) slept
          else attempts remaining' (S attempt) (Some error)
                 (slept ++ [backoff attempt])
      end
  end.

Definition withRetry : Retried T :=
  attempts (Z.to_nat (maxRetries + 1)) 0 None [].

End Retry.

Section Callers.

Variable T : Type.
Variable env : option string.
(** The [fetch] of each attempt. *)
Variable fetches : nat → string → RequestInit → Settled (Response T).
Variable endpoint : string.
Variable options : RequestInit.

(** [() => apiRequest(endpoint, options)] as the [apiCall] of
    [withRetry]. *)
Definition direct (attempt : nat) : T + Thrown :=
  match apiRequest T env (fetches attempt) endpoint options with
  | inl data => inl data
  | inr error => inr (ThrownApiError error)
  end.

(** An exported function as the [apiCall] of [withRetry]. *)
Definition exported (attempt : nat) : T + Thrown :=
  match converted T (apiRequest T env (fetches attempt) endpoint options) with
  | inl data => inl data
  | inr error => inr (ThrownAppError error)
  end.

End Callers.

(** *** [batchRequests] *)

(** A relative index of [slice]. *)
Definition relative (length index : Z) : Z :=
  if index <? 0 then Z.max (length + index) 0 else Z.min index length.

(** [Array.prototype.slice] *)
Definition Array_slice {A} (start finish : Z) (l : list A) : list A :=
  let from := relative (Z.of_nat (length l)) start in
  let to := relative (Z.of_nat (length l)) finish in
  take (Z.to_nat (to - from)) (drop (Z.to_nat from) l).

Section Batch.

Variable T : Type.

(** [try { return await request() } catch (error) { return error }] *)
Definition capture (outcome : T + Thrown) : T + Thrown := outcome.

(** The [for] loop, with a bound on the number of iterations; [None]:
    the loop has not ended within the bound. *)
Fixpoint batches (fuel : nat) (i concurrency : Z) (requests : list (T + Thrown))
    (results : list (T + Thrown)) : option (list (T + Thrown)) :=
  match fuel with
  | O => None
  | S fuel' =>
      if i <? Z.of_nat (length requests) then
        batches fuel' (i + concurrency) concurrency requests
          (results ++ map capture (Array_slice i (i + concurrency) requests))
      else Some results
  end.

Definition batchRequests (fuel : nat) (requests : list (T + Thrown))
    (concurrency : Z) : option (list (T + Thrown)) :=
  batches fuel 0 concurrency requests [].

End Batch.

End Client.

Arguments mkApiError {Json}.
Arguments message {Json}.
Arguments status {Json}.
Arguments code {Json}.
Arguments details {Json}.
Arguments mkErrorData {Json}.
Arguments mkResponse {Json T}.
Arguments responseStatus {Json T}.
Arguments statusText {Json T}.
Arguments json {Json T}.
Arguments errorData {Json T}.
Arguments ok {Json T}.
Arguments mkAppError {Json}.
Arguments type {Json}.
Arguments appMessage {Json}.
Arguments recoverable {Json}.
Arguments appDetails {Json}.
Arguments caught {Json}.
Arguments unexpected {Json}.
Arguments apiRequest {Json T}.
Arguments converted {Json} _ _ _ _ {T}.
Arguments ThrownApiError {Json}.
Arguments ThrownAppError {Json}.
Arguments ThrownOther {Json}.
Arguments clientError {Json}.
Arguments mkRetried {Json T}.
Arguments result {Json T}.
Arguments calls {Json T}.
Arguments delays {Json T}.
Arguments attempts {Json T}.
Arguments direct {Json T}.
Arguments exported {Json} _ _ _ _ {T}.
Arguments withRetry {Json T}.
Arguments batches {Json T}.
Arguments batchRequests {Json T}.

End Api.

(** ** The screen-size hook ([useResponsive])

    Time is counted in milliseconds.  [window] is [None] where there is no
    window (rendering on the server).  A resize of the window changes its
    dimensions and then calls the listeners of the [resize] event. *)

Module Responsive.

Inductive ScreenSize : Type := mobile | tablet | desktop.

Module BREAKPOINTS.
Definition mobile : Z := 0.
Definition tablet : Z := 768.
Definition desktop : Z := 1024.
End BREAKPOINTS.

Definition calculateScreenSize (windowWidth : Z) : ScreenSize :=
  if BREAKPOINTS.desktop <=? windowWidth then desktop
  else if BREAKPOINTS.tablet <=? windowWidth then tablet
  else mobile.

Record Window : Type := mkWindow {
  innerWidth : Z;
  innerHeight : Z
}.

(** The three cells of the hook, the window, whether the hook listens to
    [resize], and the timeout [handleResize] has pending with the
    milliseconds left before it fires. *)
Record State : Type := mkState {
  screenSize : ScreenSize;
  width : Z;
  height : Z;
  window : option Window;
  listening : bool;
  timeoutId : option nat
}.

(** What the hook returns at a render. *)
Record Return : Type := mkReturn {
  isMobile : bool;
  isTablet : bool;
  isDesktop : bool;
  returnScreenSize : ScreenSize;
  returnWidth : Z;
  returnHeight : Z
}.

Definition useResponsive (s : State) : Return :=
  mkReturn
    (match screenSize s with mobile => true | _ => false end)
    (match screenSize s with tablet => true | _ => false end)
    (match screenSize s with desktop => true | _ => false end)
    (screenSize s) (width s) (height s).

(** The state of the first render. *)
Definition initial (window : option Window) : State :=
  mkState mobile 0 0 window false None.

Definition updateDimensions (s : State) : State :=
  match window s with
  | None => s
  | Some w =>
      mkState (calculateScreenSize (innerWidth w)) (innerWidth w) (innerHeight w)
              (window s) (listening s) (timeoutId s)
  end.

(** The two effects of the first render: the dimensions are read, and the
    listener is installed where there is a window. *)
Definition mount (s : State) : State :=
  let s1 := updateDimensions s in
  match window s1 with
  | None => s1
  | Some _ =>
      mkState (screenSize s1) (width s1) (height s1) (window s1) true
              (timeoutId s1)
  end.

(** [clearTimeout(timeoutId); timeoutId = setTimeout(updateDimensions, 100)] *)
Definition handleResize (s : State) : State :=
  mkState (screenSize s) (width s) (height s) (window s) (listening s)
          (Some 100%nat).

(** The window is resized to [w] by [h]. *)
Definition resize (w h : Z) (s : State) : State :=
  match window s with
  | None => s
  | Some _ =>
      let s1 := mkState (screenSize s) (width s) (height s)
                        (Some (mkWindow w h)) (listening s) (timeoutId s) in
      if listening s1 then handleResize s1 else s1
  end.

(** One millisecond passes. *)
Definition tick (s : State) : State :=
  match timeoutId s with
  | None => s
  | Some remaining =>
      if (remaining <=? 1)%nat then
        updateDimensions
          (mkState (screenSize s) (width s) (height s) (window s) (listening s)
                   None)
      else
        mkState (screenSize s) (width s) (height s) (window s) (listening s)
                (Some (remaining - 1)%nat)
  end.

Definition advance (elapsed : nat) (s : State) : State :=
  Nat.iter elapsed tick s.

(** The cleanup of the second effect. *)
Definition unmount (s : State) : State :=
  mkState (screenSize s) (width s) (height s) (window s) false None.

Inductive Event : Type :=
| Mount
| Resize (w h : Z)
| Tick
| Unmount.

Definition step (e : Event) (s : State) : State :=
  match e with
  | Mount => mount s
  | Resize w h => resize w h s
  | Tick => tick s
  | Unmount => unmount s
  end.

Definition run (events : list Event) (s : State) : State :=
  fold_left (λ s e, step e s) events s.

(** A burst of resizes: before each one, some milliseconds pass. *)
Definition burst (resizes : list (nat * Window)) (s : State) : State :=
  fold_left (λ s '(gap, w), resize (innerWidth w) (innerHeight w) (advance gap s))
            resizes s.

(** The cells of the hook. *)
Definition cells (s : State) : ScreenSize * Z * Z :=
  (screenSize s, width s, height s).

End Responsive.

(** ** Concrete inputs used by the examples below *)

Module Sample.

Import Store.

Definition session : VotingSession.t :=
  {| VotingSession.id := "s1";
     VotingSession.isActive := true;
     VotingSession.startTime := 0;
     VotingSession.endTime := 1000;
     VotingSession.maxVotesPerUser := 3;
     VotingSession.contestants := ["w"; "x"; "y"; "z"] |}.

(** The store mounted with the session, inside its voting window. *)
Definition mounted : Machine := mount 0 5 (Some session) [].

(** The store after a vote for ["x"]. *)
Definition votedX : VotingState.t :=
  VotingState.mk false None (Some session) []
    (UserVoteState.mk "s1" {["x"]} 1 7) true.

(** Two calls of [addVote] for ["x"], the second before the submission of
    the first has settled; both submissions resolve. *)
Definition doubleCall : list (Z * Operation) :=
  [(10, AddVoteCall "x"); (11, AddVoteCall "x");
   (20, AddVoteSettle "x" Resolved); (21, AddVoteSettle "x" Resolved)].

(** A call of [addVote] for ["x"]; while its submission is outstanding
    the vote another tab cast for ["x"] arrives through storage and is
    restored; then the submission resolves. *)
Definition restoreInFlight : list (Z * Operation) :=
  [(10, AddVoteCall "x");
   (15, RestoreVotes
          (SerializableUserVoteState.mk "s1" ["x"] 1 "2024-01-01T10:00:00.000Z"));
   (20, AddVoteSettle "x" Resolved)].

(** A stored value that lists no contestant and counts two votes. *)
Definition storedMiscounted : SerializableUserVoteState.t :=
  SerializableUserVoteState.mk "s1" [] 2 "2024-01-01T10:00:00.000Z".

Definition storedX : SerializableUserVoteState.t :=
  SerializableUserVoteState.mk "s1" ["x"] 1 "2024-01-01T10:00:00.000Z".

Definition storedEmpty : SerializableUserVoteState.t :=
  SerializableUserVoteState.mk "s1" [] 0 "2024-01-01T09:00:00.000Z".

(** A stand-in for [JSON.stringify] on stored values: the session id and
    the ids, separated. *)
Definition stringify (v : SerializableUserVoteState.t) : string :=
  SerializableUserVoteState.sessionId v +:+ ":"
  +:+ String.concat "," (SerializableUserVoteState.votedContestants v).

(** A facility whose quota is used up, one with room for thirty
    characters, and one without a quota. *)
Definition fullStorage : LocalStorage.t := LocalStorage.mk ∅ (Some 0%nat) false.

Definition smallStorage : LocalStorage.t := LocalStorage.mk ∅ (Some 30%nat) false.

(** A facility that denies access. *)
Definition blockedStorage : LocalStorage.t := LocalStorage.mk ∅ None true.

(** The adapter of a string value before its first effect has run. *)
Definition freshAdapter (f : LocalStorage.t) : UseLocalStorage.World string :=
  UseLocalStorage.mkWorld (UseLocalStorage.mkState "default" None true false) f.

Definition emptyStorage : LocalStorage.t := LocalStorage.mk ∅ None false.

(** A facility that holds the votes of session ["s1"]. *)
Definition votedStorage : LocalStorage.t :=
  LocalStorage.mk {["voting-state-s1" := stringify storedX]} None false.

(** The provider after a vote for ["x"] that has been persisted. *)
Definition provider : VotingProvider.t :=
  VotingProvider.mk votedX
    (UseLocalStorage.mkWorld (UseLocalStorage.mkState storedX None true true)
       votedStorage).

(** The voting hook of contestant ["x"], mounted, nothing stored yet. *)
Definition hook : ContestantVoting.World :=
  ContestantVoting.mkWorld
    (ContestantVoting.mkCells false 0 None true)
    (UseLocalStorage.mkWorld (UseLocalStorage.mkState storedEmpty None true true)
       emptyStorage).

(** Atomic operations: the window opens, two votes (one of them repeated),
    a restore from storage, a reset. *)
Definition atomicRun : list (Z * Atomic) :=
  [(1, Plain (SET_VOTING_WINDOW_STATUS true));
   (2, AddVote "x" Resolved);
   (3, AddVote "x" Resolved);
   (4, AddVote "y" (Rejected (Some "Network timeout")));
   (5, RestoreFrom (SerializableUserVoteState.mk "s1" ["x"; "z"; "x"] 2 "t"));
   (6, AddVote "w" Resolved);
   (7, Plain RESET_STATE)].

End Sample.

(** ** Concrete inputs for the service and the client *)

Module Scenario.

(** Draws of [Math.random()] that trigger no simulated failure. *)
Definition draws : list Q := repeat 0.5%Q 40.

(** A time inside the voting window of the mock session. *)
Definition duringVoting : Z := 1753700000000.

(** A stand-in for [JSON.stringify] on the record of arrays the service
    saves (each user with the ids, separated), and a parser that reads
    back the text of one vote for the first contestant. *)
Definition stringify (votes : gmap string (list string)) : string :=
  String.concat ";"
    (map (λ entry, fst entry +:+ ":" +:+ String.concat "," (snd entry))
         (map_to_list votes)).

Definition parse (text : string) : option (gmap string (list string)) :=
  if String.eqb text "anonymous:contestant-1"
  then Some {["anonymous" := ["contestant-1"]]}
  else None.

(** The service as constructed over an empty facility. *)
Definition service : MockDataService.World :=
  MockDataService.construct parse true 0 Sample.emptyStorage draws.

Definition request (contestantId : string) : MockDataService.VoteRequest :=
  MockDataService.mkRequest contestantId "session-2025-finale" None.

(** The service after a vote of ['anonymous'] for the first contestant. *)
Definition voted : MockDataService.World :=
  snd (MockDataService.submitVote stringify true duringVoting
         (request "contestant-1") service).

(** Five submissions, for four contestants, with polls in between. *)
Definition busy : list (Z * MockDataService.Operation) :=
  [(duringVoting, MockDataService.SubmitVote (request "contestant-1"));
   (duringVoting + 1000, MockDataService.SubmitVote (request "contestant-2"));
   (duringVoting + 2000, MockDataService.SimulateVoteActivity);
   (duringVoting + 3000, MockDataService.SubmitVote (request "contestant-3"));
   (duringVoting + 4000, MockDataService.PollUpdates None);
   (duringVoting + 5000, MockDataService.SubmitVote (request "contestant-4"));
   (duringVoting + 6000, MockDataService.SubmitVote (request "contestant-1"))].

(** The provider mounted with the mock session, and two calls of
    [addVote] for the first contestant that overlap. *)
Definition app : App.t :=
  App.mk (Store.mount 0 duringVoting (Some MockDataService.mockVotingSession)
            MockDataService.mockContestants)
         service.

Definition doubleCall : list (Z * App.Event) :=
  [(duringVoting + 10, App.AddVoteCall "contestant-1");
   (duringVoting + 11, App.AddVoteCall "contestant-1");
   (duringVoting + 900, App.AddVoteSettle "contestant-1");
   (duringVoting + 901, App.AddVoteSettle "contestant-1");
   (duringVoting + 2000, App.Service MockDataService.SimulateVoteActivity)].

(** A server that answers every request with status 404 and a body that
    is no JSON. *)
Definition notFound (url : string) (init : Api.RequestInit)
  : Api.Settled (Api.Response string unit) :=
  Api.Fulfilled (Api.mkResponse 404 "Not Found" Api.RejectedOther None).

(** An [apiCall] that fails twice with something other than an
    [ApiError] and then succeeds. *)
Definition flaky (attempt : nat) : Z + Api.Thrown string :=
  if (attempt <? 2)%nat then inr Api.ThrownOther else inl 7.

Definition failing (attempt : nat) : Z + Api.Thrown string :=
  inr Api.ThrownOther.

Definition outcomes : list (Z + Api.Thrown string) :=
  [inl 1; inr Api.ThrownOther; inl 3].

(** The screen-size hook mounted in a window of 1280 by 800. *)
Definition wide : Responsive.State :=
  Responsive.mount (Responsive.initial (Some (Responsive.mkWindow 1280 800))).

(** The window dragged from 1280 to 500 pixels, in three steps less
    than 100 ms apart. *)
Definition dragged : list (nat * Responsive.Window) :=
  [(0%nat, Responsive.mkWindow 1000 700); (50%nat, Responsive.mkWindow 800 600);
   (99%nat, Responsive.mkWindow 500 400)].

(** The first contestant of the mock data. *)
Definition sarah : Contestant.t :=
  Contestant.mk "contestant-1" "Sarah Johnson"
    "https://images.unsplash.com/photo-1494790108755-2616b612b786?w=400&h=400&fit=crop&crop=face"
    "Professional singer from Nashville with a powerful voice and stage presence."
    1247 true (Some "Music").

(** A browser whose session storage holds the reset flag and whose local
    storage holds the votes of a session and a setting. *)
Definition resetting : VotingProvider.Browser :=
  VotingProvider.mkBrowser
    (LocalStorage.mk {["voting-reset-in-progress" := "true"]} None false)
    (LocalStorage.mk {["voting-state-s1" := "s1:x"; "theme" := "dark"]}
       None false).

End Scenario.

(** * Properties *)

(** A lemma of a section depends on the section's variables its statement
    mentions. *)
Set Default Proof Using "Type".

(** Membership and equality of sets of literal strings, by evaluation. *)
Ltac decide_set := apply (bool_decide_unpack _); vm_compute; exact I.

(** Unfolding of the monad's operations. *)
Ltac run_js :=
  unfold mbind, Js_bind, Js.bind, Js.tryCatch, Js.when, Js.zoom, Js.gets,
    Js.modify, Js.throw, Js.ret; simpl.

(** ** The storage facility *)

Lemma setItem_stores key v f f' :
  LocalStorage.setItem key v f = (Js.Normal tt, f') →
  LocalStorage.items f' = <[key := v]> (LocalStorage.items f).
Proof.
  unfold LocalStorage.setItem.
  destruct (LocalStorage.blocked f); [done|].
  destruct (LocalStorage.overQuota _ _); [done|]. by intros [= <-].
Qed.

Lemma setItem_throws_unchanged key v f reason f' :
  LocalStorage.setItem key v f = (Js.Throw reason, f') → f' = f.
Proof.
  unfold LocalStorage.setItem.
  destruct (LocalStorage.blocked f); [by intros [= _ <-]|].
  destruct (LocalStorage.overQuota _ _); [by intros [= _ <-]|done].
Qed.

Lemma setItem_accepts key v f :
  LocalStorage.accepts key v f = true →
  LocalStorage.setItem key v f
  = (Js.Normal tt,
     LocalStorage.withItems (<[key := v]> (LocalStorage.items f)) f).
Proof.
  unfold LocalStorage.accepts, LocalStorage.setItem.
  intros [Hb Hq]%andb_true_iff. apply negb_true_iff in Hb, Hq.
  by rewrite Hb, Hq.
Qed.

(** ** The persistent store adapter *)

Section AdapterFacts.

Import UseLocalStorage.

Variable T : Type.
Variable JSON_stringify : T → string.
Variable hasWindow : bool.

(** What a write leaves behind, by the outcome of the facility's
    [setItem]. *)
Lemma setStoredValue_unfold key render arg (w : World T) :
  setStoredValue T JSON_stringify hasWindow key render arg w
  = if isSupported render && hasWindow then
      match LocalStorage.setItem key (JSON_stringify (valueToStore render arg))
              (localStorage w) with
      | (Js.Normal _, f') =>
          (Js.Normal tt,
           mkWorld (mkState (valueToStore render arg) None
                            (isSupported (hook w)) (isInitialized (hook w))) f')
      | (Js.Throw _, f') =>
          (Js.Normal tt,
           mkWorld (mkState (valueToStore render arg) (Some (saveError key))
                            (isSupported (hook w)) (isInitialized (hook w))) f')
      end
    else
      (Js.Normal tt,
       mkWorld (mkState (valueToStore render arg) None
                        (isSupported (hook w)) (isInitialized (hook w)))
               (localStorage w)).
Proof.
  unfold setStoredValue, onStorage. run_js.
  destruct (isSupported render && hasWindow); simpl; [|done].
  by destruct (LocalStorage.setItem _ _ _) as [[[]|reason] f'].
Qed.

(** A write never throws. *)
Lemma setStoredValue_returns key render arg (w : World T) :
  setStoredValue T JSON_stringify hasWindow key render arg w
  = (Js.Normal tt,
     snd (setStoredValue T JSON_stringify hasWindow key render arg w)).
Proof.
  rewrite setStoredValue_unfold.
  destruct (isSupported render && hasWindow); [|done].
  by destruct (LocalStorage.setItem _ _ _) as [[[]|reason] f'].
Qed.

(** The value in memory is the new value, whatever the facility does. *)
Lemma setStoredValue_value key render arg (w : World T) :
  value (hook (snd (setStoredValue T JSON_stringify hasWindow key render arg w)))
  = valueToStore render arg.
Proof.
  rewrite setStoredValue_unfold.
  destruct (isSupported render && hasWindow); [|done].
  by destruct (LocalStorage.setItem _ _ _) as [[[]|reason] f'].
Qed.

(** A write the facility takes puts the serialized value under the key. *)
Lemma setStoredValue_persists key render arg (w : World T) :
  isSupported render = true → hasWindow = true →
  LocalStorage.accepts key (JSON_stringify (valueToStore render arg))
    (localStorage w) = true →
  LocalStorage.items
    (localStorage (snd (setStoredValue T JSON_stringify hasWindow key render arg w)))
  = <[key := JSON_stringify (valueToStore render arg)]>
      (LocalStorage.items (localStorage w)).
Proof.
  intros Hs Hw Ha. rewrite setStoredValue_unfold, Hs, Hw. simpl.
  by rewrite setItem_accepts.
Qed.

(** Without support the facility is not called. *)
Lemma setStoredValue_unsupported key render arg (w : World T) :
  isSupported render = false →
  setStoredValue T JSON_stringify hasWindow key render arg w
  = (Js.Normal tt,
     mkWorld (mkState (valueToStore render arg) None
                      (isSupported (hook w)) (isInitialized (hook w)))
             (localStorage w)).
Proof. intros Hs. by rewrite setStoredValue_unfold, Hs. Qed.

End AdapterFacts.

(** When [setItem] of the facility throws during a write from a render
    that has [isSupported] set, for any key and any value (given directly
    or by an updater), [setStoredValue] returns normally: no exception
    reaches the caller.  The value in memory is the new value, the [error]
    cell holds a [STORAGE_ERROR], and the entries of the facility are as
    before. *)
Theorem supported_write_failure_is_captured (T : Type) (JSON_stringify : T → string)
    (key : string) (render : UseLocalStorage.State T)
    (arg : UseLocalStorage.SetArg T) (w : UseLocalStorage.World T)
    (reason : string) (f' : LocalStorage.t) :
  UseLocalStorage.isSupported render = true →
  LocalStorage.setItem key
    (JSON_stringify (UseLocalStorage.valueToStore render arg))
    (UseLocalStorage.localStorage w) = (Js.Throw reason, f') →
  UseLocalStorage.setStoredValue T JSON_stringify true key render arg w
  = (Js.Normal tt,
     UseLocalStorage.mkWorld
       (UseLocalStorage.mkState
          (UseLocalStorage.valueToStore render arg)
          (Some (UseLocalStorage.saveError key))
          (UseLocalStorage.isSupported (UseLocalStorage.hook w))
          (UseLocalStorage.isInitialized (UseLocalStorage.hook w)))
       (UseLocalStorage.localStorage w))
  ∧ AppError.type (UseLocalStorage.saveError key) = STORAGE_ERROR.
Proof.
  intros Hsup Hthrow. split; [|done].
  rewrite setStoredValue_unfold, Hsup, Hthrow. simpl.
  by rewrite (setItem_throws_unchanged _ _ _ _ _ Hthrow).
Qed.

(** A write that exceeds the quota of a facility with room left. *)
Lemma supported_write_failure_on_small_storage :
  UseLocalStorage.setStoredValue string (λ s, s) true "k"
    (UseLocalStorage.mkState "default" None true true)
    (UseLocalStorage.Value "a value that is longer than the quota left")
    (UseLocalStorage.mkWorld (UseLocalStorage.mkState "default" None true true)
       Sample.smallStorage)
  = (Js.Normal tt,
     UseLocalStorage.mkWorld
       (UseLocalStorage.mkState "a value that is longer than the quota left"
          (Some (UseLocalStorage.saveError "k")) true true)
       Sample.smallStorage)
  ∧ AppError.type (UseLocalStorage.saveError "k") = STORAGE_ERROR.
Proof.
  apply (supported_write_failure_is_captured string (λ s, s) "k"
           (UseLocalStorage.mkState "default" None true true)
           (UseLocalStorage.Value "a value that is longer than the quota left")
           (UseLocalStorage.mkWorld
              (UseLocalStorage.mkState "default" None true true)
              Sample.smallStorage)
           "QuotaExceededError" Sample.smallStorage).
  - reflexivity.
  - vm_compute. reflexivity.
Defined.

(** That facility passes the support check of the first effect, so a
    render after it has [isSupported] set. *)
Example small_storage_is_supported :
  UseLocalStorage.initEffect string (λ s, Some s) true "k"
    (Sample.freshAdapter Sample.smallStorage)
  = (Js.Normal tt,
     UseLocalStorage.mkWorld (UseLocalStorage.mkState "default" None true true)
       Sample.smallStorage).
Proof. vm_compute. reflexivity. Qed.

(** A facility that denies access fails the support check; a write from a
    render after it does not call the facility and leaves no error. *)
Example blocked_storage_is_unsupported :
  UseLocalStorage.initEffect string (λ s, Some s) true "k"
    (Sample.freshAdapter Sample.blockedStorage)
  = (Js.Normal tt,
     UseLocalStorage.mkWorld (UseLocalStorage.mkState "default" None false true)
       Sample.blockedStorage)
  ∧ UseLocalStorage.setStoredValue string (λ s, s) true "k"
      (UseLocalStorage.mkState "default" None false true)
      (UseLocalStorage.Value "new")
      (UseLocalStorage.mkWorld
         (UseLocalStorage.mkState "default" None false true)
         Sample.blockedStorage)
    = (Js.Normal tt,
       UseLocalStorage.mkWorld (UseLocalStorage.mkState "new" None false true)
         Sample.blockedStorage).
Proof. vm_compute. done. Qed.

(** C8.  As stated this fails on a facility that throws from the start
    (the input of the repository's test "should handle setItem errors":
    [getItem] gives [null], every [setItem] throws).  The support check of
    the first effect fails on it and clears [isSupported]; [setValue] from
    the render that follows puts the new value in memory, does not call
    the facility and calls [setError(null)]: the [error] cell holds no
    [STORAGE_ERROR], where the spec and the test say it holds one. *)
Theorem C8_unsupported_write_records_no_error :
  let mounted :=
    snd (UseLocalStorage.initEffect string (λ s, Some s) true "test"
           (Sample.freshAdapter Sample.fullStorage)) in
  fst (LocalStorage.setItem "test" "new-value" Sample.fullStorage)
  = Js.Throw "QuotaExceededError"
  ∧ UseLocalStorage.isSupported (UseLocalStorage.hook mounted) = false
  ∧ UseLocalStorage.setStoredValue string (λ s, s) true "test"
      (UseLocalStorage.hook mounted) (UseLocalStorage.Value "new-value") mounted
    = (Js.Normal tt,
       UseLocalStorage.mkWorld
         (UseLocalStorage.mkState "new-value" None false true)
         Sample.fullStorage)
  ∧ AppError.type (UseLocalStorage.saveError "test") = STORAGE_ERROR.
Proof. vm_compute. done. Qed.

(** A stored value that does not parse is reported by the first effect and
    the default value is kept. *)
Example unparsable_value_is_reported :
  UseLocalStorage.initEffect string (λ _, None) true "k"
    (Sample.freshAdapter (LocalStorage.mk {["k" := "invalid-json"]} None false))
  = (Js.Normal tt,
     UseLocalStorage.mkWorld
       (UseLocalStorage.mkState "default"
          (Some (UseLocalStorage.storageError
                   ("Failed to parse localStorage value for key "
                    +:+ UseLocalStorage.quoted "k")))
          true true)
       (LocalStorage.mk {["k" := "invalid-json"]} None false)).
Proof. vm_compute. reflexivity. Qed.

(** ** The vote state store *)

Section StoreFacts.

Import Store.

Variable loadTime : Z.

Lemma setError_withError now e s :
  setError loadTime now e s = withError (Some e) s.
Proof. by destruct s. Qed.

Lemma canVote_false_iff s :
  canVote s = false ↔
  VotingState.session s = None
  ∨ VotingState.votingWindowActive s = false
  ∨ ∃ session, VotingState.session s = Some session
      ∧ VotingSession.maxVotesPerUser session
        ≤ UserVoteState.totalVotes (VotingState.userVoteState s).
Proof.
  unfold canVote. destruct (VotingState.session s) as [session|]; [|naive_solver].
  destruct (VotingState.votingWindowActive s); simpl.
  - rewrite Z.ltb_ge. split; [intros H; right; right; eauto|].
    intros [?|[?|(? & [= <-] & ?)]]; done.
  - naive_solver.
Qed.

Lemma canVote_true_intro s session :
  VotingState.session s = Some session →
  VotingState.votingWindowActive s = true →
  UserVoteState.totalVotes (VotingState.userVoteState s)
  < VotingSession.maxVotesPerUser session →
  canVote s = true.
Proof.
  intros Hs Hw Ht. unfold canVote. rewrite Hs, Hw. simpl. by apply Z.ltb_lt.
Qed.

Lemma hasVotedFor_false_intro s c :
  c ∉ UserVoteState.votedContestants (VotingState.userVoteState s) →
  hasVotedFor s c = false.
Proof. intros. unfold hasVotedFor. by apply bool_decide_eq_false. Qed.

Lemma addVote_call_voted now render c state :
  hasVotedFor render c = true →
  addVote_call loadTime now render c state
  = (withError (Some alreadyVotedError) state, None).
Proof.
  intros H. unfold addVote_call. rewrite H. by rewrite setError_withError.
Qed.

Lemma addVote_call_passes now render c state :
  hasVotedFor render c = false → canVote render = true →
  addVote_call loadTime now render c state
  = (state, Some (mkRequest c (sessionIdOrEmpty render) "anonymous")).
Proof. intros Hc Hv. unfold addVote_call. by rewrite Hc, Hv. Qed.

(** A vote that passes validation and whose submission resolves. *)
Lemma addVote_resolved now c s :
  hasVotedFor s c = false → canVote s = true →
  addVote loadTime now c (λ _, Resolved) s
  = votingReducer loadTime now s (ADD_VOTE c).
Proof.
  intros Hc Hv. unfold addVote. by rewrite addVote_call_passes.
Qed.

Lemma addVote_resolved_fields now c s :
  hasVotedFor s c = false → canVote s = true →
  let s' := addVote loadTime now c (λ _, Resolved) s in
  UserVoteState.votedContestants (VotingState.userVoteState s')
  = {[c]} ∪ UserVoteState.votedContestants (VotingState.userVoteState s)
  ∧ UserVoteState.totalVotes (VotingState.userVoteState s')
    = UserVoteState.totalVotes (VotingState.userVoteState s) + 1
  ∧ VotingState.session s' = VotingState.session s
  ∧ VotingState.votingWindowActive s' = VotingState.votingWindowActive s.
Proof.
  intros Hc Hv. simpl. rewrite addVote_resolved by done. by destruct s.
Qed.

(** C10.  [addVote] for a contestant not voted for, when [canVote] is
    false because there is no session, or the voting window is not active,
    or the vote cap is reached: in each of the three cases the error
    dispatched is the voting-limit error, every field of the state other
    than [error] is kept, and no submission is made. *)
Theorem C10_cannot_vote_yields_limit_error now render state c :
  hasVotedFor render c = false →
  (VotingState.session render = None
   ∨ VotingState.votingWindowActive render = false
   ∨ ∃ session, VotingState.session render = Some session
       ∧ VotingSession.maxVotesPerUser session
         ≤ UserVoteState.totalVotes (VotingState.userVoteState render)) →
  canVote render = false
  ∧ addVote_call loadTime now render c state
    = (withError (Some votingLimitError) state, None)
  ∧ AppError.type votingLimitError = VOTE_ERROR
  ∧ AppError.message votingLimitError = "You have reached your voting limit".
Proof.
  intros Hnot Hwhy. apply canVote_false_iff in Hwhy. split; [done|].
  unfold addVote_call. rewrite Hnot, Hwhy. simpl.
  by rewrite setError_withError.
Qed.

(** C4 (scenario A).  From a state whose session allows three votes, with
    the voting window active and no vote yet, [addVote] for ["x"], ["y"]
    and ["z"], each resolving before the next, leaves [totalVotes] at 3,
    the three ids voted and [canVote] false; a fourth [addVote], for
    ["w"], dispatches the voting-limit error, makes no submission and
    keeps every other field of the state. *)
Theorem C4_scenario_A t1 t2 t3 t4 (s0 : VotingState.t) session :
  VotingState.session s0 = Some session →
  VotingSession.maxVotesPerUser session = 3 →
  VotingState.votingWindowActive s0 = true →
  UserVoteState.votedContestants (VotingState.userVoteState s0) = ∅ →
  UserVoteState.totalVotes (VotingState.userVoteState s0) = 0 →
  let s3 := addVote loadTime t3 "z" (λ _, Resolved)
              (addVote loadTime t2 "y" (λ _, Resolved)
                 (addVote loadTime t1 "x" (λ _, Resolved) s0)) in
  UserVoteState.totalVotes (VotingState.userVoteState s3) = 3
  ∧ UserVoteState.votedContestants (VotingState.userVoteState s3)
    = {["x"; "y"; "z"]}
  ∧ canVote s3 = false
  ∧ addVote_call loadTime t4 s3 "w" s3
    = (withError (Some votingLimitError) s3, None)
  ∧ addVote loadTime t4 "w" (λ _, Resolved) s3
    = withError (Some votingLimitError) s3.
Proof.
  intros Hs Hmax Hw Hv Ht.
  set (s1 := addVote loadTime t1 "x" (λ _, Resolved) s0).
  set (s2 := addVote loadTime t2 "y" (λ _, Resolved) s1).
  intros s3.
  destruct (addVote_resolved_fields t1 "x" s0) as (Hv1 & Ht1 & Hs1 & Hw1).
  { apply hasVotedFor_false_intro. rewrite Hv. decide_set. }
  { eapply canVote_true_intro; [done..|lia]. }
  fold s1 in Hv1, Ht1, Hs1, Hw1. rewrite Hv in Hv1. rewrite Ht in Ht1.
  rewrite Hs in Hs1. rewrite Hw in Hw1.
  destruct (addVote_resolved_fields t2 "y" s1) as (Hv2 & Ht2 & Hs2 & Hw2).
  { apply hasVotedFor_false_intro. rewrite Hv1. decide_set. }
  { eapply canVote_true_intro; [done..|lia]. }
  fold s2 in Hv2, Ht2, Hs2, Hw2. rewrite Hv1 in Hv2. rewrite Ht1 in Ht2.
  rewrite Hs1 in Hs2. rewrite Hw1 in Hw2.
  destruct (addVote_resolved_fields t3 "z" s2) as (Hv3 & Ht3 & Hs3 & Hw3).
  { apply hasVotedFor_false_intro. rewrite Hv2. decide_set. }
  { eapply canVote_true_intro; [done..|lia]. }
  fold s3 in Hv3, Ht3, Hs3, Hw3. rewrite Hv2 in Hv3. rewrite Ht2 in Ht3.
  rewrite Hs2 in Hs3. rewrite Hw2 in Hw3.
  assert (canVote s3 = false) as Hfull.
  { unfold canVote. rewrite Hs3, Hw3, Ht3, Hmax. done. }
  assert (hasVotedFor s3 "w" = false) as Hnew.
  { apply hasVotedFor_false_intro. rewrite Hv3. decide_set. }
  split; [by rewrite Ht3|]. split; [rewrite Hv3; decide_set|].
  split; [done|].
  unfold addVote, addVote_call. rewrite Hnew, Hfull. simpl.
  by rewrite setError_withError.
Qed.

End StoreFacts.

(** C10 for a store mounted without a session. *)
Lemma C10_witness :
  Store.canVote (Store.mountState 0 5 None []) = false
  ∧ Store.addVote_call 0 9 (Store.mountState 0 5 None []) "x"
      (Store.mountState 0 5 None [])
    = (Store.withError (Some Store.votingLimitError)
         (Store.mountState 0 5 None []), None)
  ∧ AppError.type Store.votingLimitError = VOTE_ERROR
  ∧ AppError.message Store.votingLimitError
    = "You have reached your voting limit".
Proof.
  apply (C10_cannot_vote_yields_limit_error 0 9).
  - vm_compute. reflexivity.
  - left. reflexivity.
Defined.

(** C4 from the store mounted with the sample session. *)
Lemma C4_witness :
  let s3 := Store.addVote 0 30 "z" (λ _, Store.Resolved)
              (Store.addVote 0 20 "y" (λ _, Store.Resolved)
                 (Store.addVote 0 10 "x" (λ _, Store.Resolved)
                    (Store.state Sample.mounted))) in
  UserVoteState.totalVotes (Store.VotingState.userVoteState s3) = 3
  ∧ UserVoteState.votedContestants (Store.VotingState.userVoteState s3)
    = {["x"; "y"; "z"]}
  ∧ Store.canVote s3 = false
  ∧ Store.addVote_call 0 40 s3 "w" s3
    = (Store.withError (Some Store.votingLimitError) s3, None)
  ∧ Store.addVote 0 40 "w" (λ _, Store.Resolved) s3
    = Store.withError (Some Store.votingLimitError) s3.
Proof.
  apply (C4_scenario_A 0 10 20 30 40 (Store.state Sample.mounted) Sample.session);
    reflexivity.
Defined.

(** The reducer and the computed values on the inputs of the repository's
    tests of the store. *)
Example session_id_follows_session :
  let s := Store.setSession 0 50 (Some Sample.session)
             (Store.mountState 0 5 None []) in
  Store.VotingState.session s = Some Sample.session
  ∧ UserVoteState.sessionId (Store.VotingState.userVoteState s) = "s1"
  ∧ Store.VotingState.votingWindowActive s = true.
Proof. vm_compute. done. Qed.

Example window_closed_outside_times :
  Store.VotingState.votingWindowActive
    (Store.mountState 0 2000 (Some Sample.session) []) = false
  ∧ Store.canVote (Store.mountState 0 2000 (Some Sample.session) []) = false
  ∧ Store.canVote
      (Store.setVotingWindowStatus 0 2001 true
         (Store.mountState 0 2000 (Some Sample.session) [])) = true.
Proof. vm_compute. done. Qed.

Example remaining_votes_count_down :
  Store.remainingVotes (Store.state Sample.mounted) = 3
  ∧ Store.remainingVotes
      (Store.addVote 0 10 "x" (λ _, Store.Resolved) (Store.state Sample.mounted))
    = 2
  ∧ Store.remainingVotes (Store.mountState 0 5 None []) = 0.
Proof. vm_compute. done. Qed.

Example rejected_submission_keeps_votes :
  let s := Store.addVote 0 10 "x" (λ _, Store.Rejected (Some "Network timeout"))
             (Store.state Sample.mounted) in
  Store.hasVotedFor s "x" = false
  ∧ UserVoteState.totalVotes (Store.VotingState.userVoteState s) = 0
  ∧ AppError.message <$> Store.VotingState.error s = Some "Network timeout"
  ∧ AppError.recoverable <$> Store.VotingState.error s = Some true.
Proof. vm_compute. done. Qed.

(** With a session and no more votes than it allows, the remaining votes
    and the total add up to the cap. *)
Lemma remainingVotes_complement (s : Store.VotingState.t) session :
  Store.VotingState.session s = Some session →
  UserVoteState.totalVotes (Store.VotingState.userVoteState s)
  ≤ VotingSession.maxVotesPerUser session →
  Store.remainingVotes s
  + UserVoteState.totalVotes (Store.VotingState.userVoteState s)
  = VotingSession.maxVotesPerUser session.
Proof. intros Hs Ht. unfold Store.remainingVotes. rewrite Hs. lia. Qed.

Section InvariantFacts.

Import Store.

Variable loadTime : Z.
Variable Date_parse : string → Z.

Lemma list_to_set_sort (l : list string) :
  list_to_set (C := gset string) (Array_sort l) = list_to_set l.
Proof. apply list_to_set_perm_L, merge_sort_Permutation. Qed.

(** The reducer keeps the total equal to the number of votes, provided a
    vote state it installs has it so and a vote it adds is a new one. *)
Lemma reducer_keeps_total now s a :
  match a with
  | SET_USER_VOTE_STATE u =>
      UserVoteState.totalVotes u
      = Z.of_nat (size (UserVoteState.votedContestants u))
  | ADD_VOTE c => hasVotedFor s c = false
  | _ => True
  end →
  totalMatchesVotes s → totalMatchesVotes (votingReducer loadTime now s a).
Proof.
  unfold totalMatchesVotes, hasVotedFor.
  destruct s as [? ? ? ? [sid voted total upd] ?], a; simpl; try done.
  - by destruct payload.
  - intros Hc%bool_decide_eq_false ->.
    rewrite size_union by set_solver. rewrite size_singleton. lia.
Qed.

Lemma applyAtomic_keeps_total now op s :
  wellFormed op →
  totalMatchesVotes s →
  totalMatchesVotes (applyAtomic loadTime Date_parse now op s).
Proof.
  intros Hop Hs. destruct op as [action|c outcome|stored]; simpl.
  - apply reducer_keeps_total; [|done]. by destruct action.
  - unfold addVote, addVote_call.
    destruct (hasVotedFor s c) eqn:Hc; [by apply reducer_keeps_total|].
    destruct (canVote s); simpl; [|by apply reducer_keeps_total].
    destruct outcome; simpl; by apply reducer_keeps_total.
  - unfold restore. destruct (restoreApplies _ _ _); [|done].
    apply reducer_keeps_total; [|done]. simpl.
    rewrite list_to_set_sort. exact Hop.
Qed.

Lemma run_app ops1 ops2 m :
  run loadTime Date_parse (ops1 ++ ops2) m
  = run loadTime Date_parse ops1 m ≫= run loadTime Date_parse ops2.
Proof.
  revert m. induction ops1 as [|[now op] ops1 IH]; intros m; simpl; [done|].
  destruct (step _ _ _ _ _); simpl; [apply IH|done].
Qed.

Lemma run_expand now op s :
  wellFormed op →
  run loadTime Date_parse (expand s now op) (mkMachine s [])
  = Some (mkMachine (applyAtomic loadTime Date_parse now op s) []).
Proof.
  destruct op as [action|c outcome|stored]; simpl; try done.
  { by destruct action. }
  intros _. unfold addVote, addVote_call.
  destruct (hasVotedFor s c) eqn:Hc; simpl.
  { unfold addVote_call. by rewrite Hc. }
  destruct (canVote s) eqn:Hv; simpl.
  - unfold addVote_call. rewrite Hc, Hv. simpl. by rewrite String.eqb_refl.
  - unfold addVote_call. by rewrite Hc, Hv.
Qed.

(** An atomic run is a run of the machine in which every submission
    settles right after its call. *)
Lemma runAtomic_is_run ops s :
  Forall (λ '(_, op), wellFormed op) ops →
  run loadTime Date_parse (expandAll loadTime Date_parse ops s) (mkMachine s [])
  = Some (mkMachine (runAtomic loadTime Date_parse ops s) []).
Proof.
  intros Hops. revert s.
  induction Hops as [|[now op] ops Hop _ IH]; intros s; simpl; [done|].
  rewrite run_app, run_expand by done. simpl. apply IH.
Qed.

Lemma runAtomic_keeps_total ops s :
  Forall (λ '(_, op), wellFormed op) ops →
  totalMatchesVotes s →
  totalMatchesVotes (runAtomic loadTime Date_parse ops s).
Proof.
  intros Hops. revert s. unfold runAtomic.
  induction Hops as [|[now op] ops Hop _ IH]; intros s Hs; simpl; [done|].
  apply IH. by apply applyAtomic_keeps_total.
Qed.

(** C1 (amended).  Take the store as the provider mounts it and any
    sequence of the plain actions ([setSession], [resetState] and the
    other setters), of [addVote] calls whose submission settles before the
    next operation, and of restores of stored values whose total is the
    number of distinct ids they list.  The machine runs the sequence to
    the end, no submission is outstanding then, and in the state it
    reaches [totalVotes] is the size of [votedContestants]. *)
Theorem C1_total_matches_votes now0 initialSession initialContestants
    (ops : list (Z * Atomic)) :
  Forall (λ '(_, op), wellFormed op) ops →
  ∃ m,
    run loadTime Date_parse
      (expandAll loadTime Date_parse ops
         (mountState loadTime now0 initialSession initialContestants))
      (mount loadTime now0 initialSession initialContestants)
    = Some m
    ∧ outstanding m = []
    ∧ state m
      = runAtomic loadTime Date_parse ops
          (mountState loadTime now0 initialSession initialContestants)
    ∧ UserVoteState.totalVotes (VotingState.userVoteState (state m))
      = Z.of_nat (size (UserVoteState.votedContestants
                          (VotingState.userVoteState (state m)))).
Proof.
  intros Hops. eexists. split; [by apply runAtomic_is_run|].
  split; [done|]. split; [done|]. simpl.
  by apply (runAtomic_keeps_total ops).
Qed.

End InvariantFacts.

(** C1 on the atomic run of the sample. *)
Lemma C1_witness :
  ∃ m,
    Store.run 0 (λ _, 0)
      (Store.expandAll 0 (λ _, 0) Sample.atomicRun
         (Store.mountState 0 5 (Some Sample.session) []))
      Sample.mounted
    = Some m
    ∧ Store.outstanding m = []
    ∧ Store.state m
      = Store.runAtomic 0 (λ _, 0) Sample.atomicRun
          (Store.mountState 0 5 (Some Sample.session) [])
    ∧ UserVoteState.totalVotes (Store.VotingState.userVoteState (Store.state m))
      = Z.of_nat (size (UserVoteState.votedContestants
                          (Store.VotingState.userVoteState (Store.state m)))).
Proof.
  apply (C1_total_matches_votes 0 (λ _, 0) 5 (Some Sample.session) []
           Sample.atomicRun).
  repeat constructor.
Defined.

(** The atomic run of the sample ends after a reset, and before the reset
    it holds the three votes it cast and restored. *)
Example atomic_run_of_the_sample :
  let before := Store.runAtomic 0 (λ _, 0) (take 6 Sample.atomicRun)
                  (Store.mountState 0 5 (Some Sample.session) []) in
  UserVoteState.votedContestants (Store.VotingState.userVoteState before)
  = {["w"; "x"; "z"]}
  ∧ UserVoteState.totalVotes (Store.VotingState.userVoteState before) = 3
  ∧ Store.runAtomic 0 (λ _, 0) Sample.atomicRun
      (Store.mountState 0 5 (Some Sample.session) [])
    = Store.initialState 0.
Proof. split; [decide_set|]. vm_compute. done. Qed.

(** C1 as stated fails, in three ways.  With two calls of
    [addVote] for the same contestant outstanding at once and both
    submissions resolving, [totalVotes] is 2 and one contestant is voted
    for.  The same happens with a single call when, while its submission
    is outstanding, a restore from storage brings in a vote for the same
    contestant.  And a restore adopts the total of the stored value as it
    is: from a stored value that lists no contestant and counts two votes,
    [totalVotes] is 2 and no contestant is voted for. *)
Lemma C1_counterexample :
  (∃ m, Store.run 0 (λ _, 0) Sample.doubleCall Sample.mounted = Some m
        ∧ UserVoteState.totalVotes
            (Store.VotingState.userVoteState (Store.state m)) = 2
        ∧ size (UserVoteState.votedContestants
                  (Store.VotingState.userVoteState (Store.state m))) = 1%nat
        ∧ ¬ Store.totalMatchesVotes (Store.state m))
  ∧ (∃ m, Store.run 0 (λ _, 0) Sample.restoreInFlight Sample.mounted = Some m
          ∧ UserVoteState.totalVotes
              (Store.VotingState.userVoteState (Store.state m)) = 2
          ∧ size (UserVoteState.votedContestants
                    (Store.VotingState.userVoteState (Store.state m))) = 1%nat
          ∧ ¬ Store.totalMatchesVotes (Store.state m))
  ∧ (∃ m, Store.run 0 (λ _, 0)
            [(9, Store.RestoreVotes Sample.storedMiscounted)] Sample.mounted
          = Some m
          ∧ UserVoteState.totalVotes
              (Store.VotingState.userVoteState (Store.state m)) = 2
          ∧ size (UserVoteState.votedContestants
                    (Store.VotingState.userVoteState (Store.state m))) = 0%nat
          ∧ ¬ Store.totalMatchesVotes (Store.state m)).
Proof.
  split; [|split]; eexists; (split; [reflexivity|]);
    (split; [reflexivity|]); (split; [by vm_compute|]);
    unfold Store.totalMatchesVotes; vm_compute; discriminate.
Qed.

(** ** Serialization of the vote state *)

Section RoundTrip.

Import Store.

Variable Date_toISOString : Z → string.
Variable Date_parse : string → Z.

(** C6.  Serializing a vote state (the voted set as an array, the
    timestamp as a string) and building a vote state back from the result
    gives the same session id, the same voted set and the same total.  It
    is so for the object the serialization effect builds and for the one
    it stores, whose array it has sorted. *)
Theorem C6_serialization_round_trip (u : UserVoteState.t) :
  let restored :=
    fromSerializable Date_parse (toSerializable Date_toISOString u) in
  let restoredSorted :=
    fromSerializable Date_parse (sortIds (toSerializable Date_toISOString u)) in
  (UserVoteState.sessionId restored = UserVoteState.sessionId u
   ∧ UserVoteState.votedContestants restored = UserVoteState.votedContestants u
   ∧ UserVoteState.totalVotes restored = UserVoteState.totalVotes u)
  ∧ (UserVoteState.sessionId restoredSorted = UserVoteState.sessionId u
     ∧ UserVoteState.votedContestants restoredSorted
       = UserVoteState.votedContestants u
     ∧ UserVoteState.totalVotes restoredSorted = UserVoteState.totalVotes u).
Proof.
  simpl. repeat split.
  - apply list_to_set_elements_L.
  - rewrite list_to_set_sort. apply list_to_set_elements_L.
Qed.

(** When the platform reads back the timestamps it prints, the round trip
    gives the vote state itself. *)
Lemma round_trip_exact (u : UserVoteState.t) :
  Date_parse (Date_toISOString (UserVoteState.lastUpdated u))
  = UserVoteState.lastUpdated u →
  fromSerializable Date_parse (toSerializable Date_toISOString u) = u.
Proof.
  intros Hd. destruct u as [sid voted total upd].
  unfold fromSerializable. simpl in *.
  by rewrite Hd, list_to_set_elements_L.
Qed.

(** The serialized form of a state that satisfies the invariant is
    consistent. *)
Lemma toSerializable_consistent (u : UserVoteState.t) :
  UserVoteState.totalVotes u
  = Z.of_nat (size (UserVoteState.votedContestants u)) →
  consistent (toSerializable Date_toISOString u).
Proof.
  intros H. unfold consistent. simpl. by rewrite list_to_set_elements_L.
Qed.

End RoundTrip.

(** ** The provider and its storage *)

Section ResetFacts.

Import Store VotingProvider.

Variable loadTime : Z.
Variable Date_toISOString : Z → string.
Variable Date_parse : string → Z.
Variable JSON_stringify : Stored → string.
Variable hasWindow : bool.

(** C7 (amended).  [resetState] puts every field of the store at its
    initial value: no session, no contestants, an empty vote state, the
    voting window inactive, not loading, no error.  It leaves the adapter
    and the entries of the storage facility as they were, and in the state
    it produces neither storage effect does anything. *)
Theorem C7_reset_restores_fields_only (now now' : Z) (isResetting : bool)
    (p : VotingProvider.t) :
  let p' := resetState loadTime now p in
  (VotingState.session (state p') = None
   ∧ VotingState.contestants (state p') = []
   ∧ UserVoteState.sessionId (VotingState.userVoteState (state p')) = ""
   ∧ UserVoteState.votedContestants (VotingState.userVoteState (state p')) = ∅
   ∧ UserVoteState.totalVotes (VotingState.userVoteState (state p')) = 0
   ∧ VotingState.votingWindowActive (state p') = false
   ∧ VotingState.loading (state p') = false
   ∧ VotingState.error (state p') = None)
  ∧ state p' = initialState loadTime
  ∧ storage p' = storage p
  ∧ restoreEffect loadTime Date_parse isResetting now' p' = p'
  ∧ persistEffect Date_toISOString JSON_stringify hasWindow p' p'
    = (Js.Normal tt, p').
Proof.
  destruct p as [[? ? ? ? ? ?] w]. simpl. repeat split.
  unfold restoreEffect. simpl. by rewrite andb_false_r.
Qed.

End ResetFacts.

(** C7 as stated fails: after [resetState] the facility
    still holds the entry of the session under the store's prefix. *)
Lemma C7_counterexample :
  let p' := VotingProvider.resetState 0 9 Sample.provider in
  VotingProvider.state p' = Store.initialState 0
  ∧ LocalStorage.keys
      (UseLocalStorage.localStorage (VotingProvider.storage p'))
    = ["voting-state-s1"]
  ∧ LocalStorage.items
      (UseLocalStorage.localStorage (VotingProvider.storage p'))
      !! "voting-state-s1" = Some (Sample.stringify Sample.storedX).
Proof. vm_compute. done. Qed.

(** What stays in storage comes back: after [resetState], setting the
    session again and running the restore effect restores the vote. *)
Example votes_return_after_reset :
  let p1 := VotingProvider.resetState 0 9 Sample.provider in
  let p2 := VotingProvider.dispatch 0 10
              (Store.SET_SESSION (Some Sample.session)) p1 in
  let p3 := VotingProvider.restoreEffect 0 (λ _, 0) false 11 p2 in
  Store.hasVotedFor (VotingProvider.state p1) "x" = false
  ∧ Store.hasVotedFor (VotingProvider.state p3) "x" = true
  ∧ UserVoteState.totalVotes
      (Store.VotingState.userVoteState (VotingProvider.state p3)) = 1.
Proof. vm_compute. done. Qed.

(** ** The per-contestant voting hook *)

Section HookFacts.

Import ContestantVoting.

Variable JSON_stringify : Stored → string.
Variable hasWindow : bool.

Lemma setVoteState_run render v (w : World) :
  setVoteState JSON_stringify hasWindow render v w
  = (Js.Normal tt,
     mkWorld (cells w) (written JSON_stringify hasWindow render v (storage w))).
Proof.
  unfold setVoteState, Js.zoom, written.
  by rewrite setStoredValue_returns.
Qed.

Lemma written_value render v s :
  UseLocalStorage.value
    (UseLocalStorage.hook (written JSON_stringify hasWindow render v s)) = v.
Proof. unfold written. by rewrite setStoredValue_value. Qed.

Lemma written_persisted render v s :
  VoteRender.storageSupported render = true → hasWindow = true →
  LocalStorage.accepts (storageKey (VoteRender.sessionId render))
    (JSON_stringify v) (UseLocalStorage.localStorage s) = true →
  LocalStorage.items
    (UseLocalStorage.localStorage (written JSON_stringify hasWindow render v s))
  = <[storageKey (VoteRender.sessionId render) := JSON_stringify v]>
      (LocalStorage.items (UseLocalStorage.localStorage s)).
Proof.
  intros Hs Hw Ha. unfold written.
  by rewrite setStoredValue_persists.
Qed.

(** A call that passes the two guards: the cells and the adapter at the
    point where the submission is left outstanding. *)
Lemma vote_call_passes nowISO render (w : World) :
  hasVoted render = false → VoteRender.isVoting render = false →
  vote_call JSON_stringify hasWindow nowISO render w
  = (Js.Normal (Some (VoteRender.contestantId render)),
     mkWorld (mkCells true (voteCount (cells w) + 1) None (isMounted (cells w)))
             (written JSON_stringify hasWindow render
                (optimisticVoteState nowISO render) (storage w))).
Proof.
  intros Hv Hi. unfold vote_call. rewrite Hv, Hi.
  unfold setIsVoting, setError, setVoteCount, setCells. run_js.
  by rewrite setVoteState_run.
Qed.

(** A call stopped by a guard: at most the [error] cell changes. *)
Lemma vote_call_guarded nowISO render (w : World) :
  hasVoted render = true ∨ VoteRender.isVoting render = true →
  vote_call JSON_stringify hasWindow nowISO render w
  = (Js.Normal None,
     if hasVoted render then withError (Some (alreadyVotedError render)) w
     else w).
Proof.
  intros H. unfold vote_call. destruct (hasVoted render); [done|].
  destruct H as [? | ->]; [done|]. by destruct w.
Qed.

(** A failed submission while the hook is mounted: the state after the
    rollback. *)
Lemma vote_settle_failed render outcome (w : World) :
  failed outcome → isMounted (cells w) = true →
  vote_settle JSON_stringify hasWindow render outcome w
  = (Js.Normal tt,
     mkWorld (mkCells false (VoteRender.voteCount render)
                (Some (failureError render outcome)) true)
             (written JSON_stringify hasWindow render
                (VoteRender.voteState render) (storage w))).
Proof.
  intros Hf Hm. unfold vote_settle.
  destruct outcome as [response|message]; simpl in Hf.
  - run_js. rewrite Hm, Hf. simpl.
    destruct (classify (responseError response)) as [code msg] eqn:Hc.
    unfold rollback. run_js. rewrite setVoteState_run. simpl.
    unfold finallyBlock. run_js. by rewrite Hm.
  - run_js. unfold catchBlock. run_js. rewrite Hm. simpl.
    unfold rollback. run_js. rewrite setVoteState_run. simpl.
    unfold finallyBlock. run_js. rewrite Hm.
    by destruct message.
Qed.

(** A failed submission after the hook was unmounted: nothing is rolled
    back. *)
Lemma vote_settle_unmounted render outcome (w : World) :
  isMounted (cells w) = false →
  vote_settle JSON_stringify hasWindow render outcome w = (Js.Normal tt, w).
Proof.
  intros Hm. unfold vote_settle.
  destruct outcome as [response|message].
  - run_js. rewrite Hm. simpl. unfold finallyBlock. run_js. by rewrite Hm.
  - run_js. unfold catchBlock. run_js. rewrite Hm. simpl.
    unfold finallyBlock. run_js. by rewrite Hm.
Qed.

(** After a call that passed, the next render sees the vote in flight and
    the contestant voted for. *)
Lemma render_after_call nowISO contestantId sessionId (w : World) :
  let render := currentRender contestantId sessionId w in
  let w1 := snd (vote_call JSON_stringify hasWindow nowISO render w) in
  hasVoted render = false → isVoting (cells w) = false →
  VoteRender.isVoting (currentRender contestantId sessionId w1) = true
  ∧ hasVoted (currentRender contestantId sessionId w1) = true.
Proof.
  intros render w1 Hv Hi. subst w1.
  rewrite vote_call_passes by done. simpl. split; [done|].
  unfold hasVoted. simpl. rewrite written_value. simpl.
  rewrite existsb_app. simpl. rewrite String.eqb_refl.
  by rewrite orb_true_r.
Qed.

End HookFacts.

(** ** Votes that are already cast *)

Section VoteGuards.

Import Store.

Variable loadTime : Z.

Lemma voted_reducer_mono now s a c :
  match a with
  | RESET_STATE | SET_USER_VOTE_STATE _ => False
  | _ => True
  end →
  hasVotedFor s c = true →
  hasVotedFor (votingReducer loadTime now s a) c = true.
Proof.
  unfold hasVotedFor. rewrite !bool_decide_eq_true.
  destruct s as [? ? ? ? uvs ?], a; simpl; try done.
  - by destruct payload.
  - set_solver.
Qed.

Variable Date_parse : string → Z.

Lemma step_keeps_voted now op m m' c :
  keepsVotes op = true →
  step loadTime Date_parse now op m = Some m' →
  hasVotedFor (state m) c = true → hasVotedFor (state m') c = true.
Proof.
  intros Hk Hstep Hc.
  destruct op as [l|e|session|cs|contestant|active|c'|c' outcome| |stored];
    simpl in *; try done;
    try (injection Hstep as <-; simpl; by apply voted_reducer_mono).
  - unfold addVote_call in Hstep.
    destruct (hasVotedFor (state m) c');
      [|destruct (negb (canVote (state m)))];
      injection Hstep as <-; simpl; try done;
      by apply voted_reducer_mono.
  - destruct (takeRequest _ _) as [[? rest]|]; [|done].
    injection Hstep as <-. simpl. destruct outcome; simpl;
      by apply voted_reducer_mono.
Qed.

Lemma run_keeps_voted ops m m' c :
  forallb (λ '(_, op), keepsVotes op) ops = true →
  run loadTime Date_parse ops m = Some m' →
  hasVotedFor (state m) c = true → hasVotedFor (state m') c = true.
Proof.
  revert m. induction ops as [|[now op] ops IH]; intros m Hk Hrun Hc; simpl in *.
  - by injection Hrun as <-.
  - apply andb_true_iff in Hk as [Hop Hk].
    destruct (step _ _ _ _ _) as [m1|] eqn:Hstep; [|done].
    eapply IH; [done..|]. by eapply step_keeps_voted.
Qed.

(** C3.  Once a contestant is in the voted set, [addVote] for it
    dispatches the already-voted error, keeps every other field of the
    state and leaves no submission outstanding; and it does so again after
    any further operations, repeated calls among them, as long as none of
    them is [resetState] or a restore from storage.  The voting hook does
    the same at a render that lists the contestant: the error has the code
    [ALREADY_VOTED], nothing is written and nothing is submitted. *)
Theorem C3_already_voted_fails_fast now c m ops m' :
  hasVotedFor (state m) c = true →
  forallb (λ '(_, op), keepsVotes op) ops = true →
  run loadTime Date_parse ops m = Some m' →
  step loadTime Date_parse now (AddVoteCall c) m'
  = Some (mkMachine (withError (Some alreadyVotedError) (state m'))
                    (outstanding m'))
  ∧ AppError.message alreadyVotedError
    = "You have already voted for this contestant"
  ∧ ∀ JSON_stringify hasWindow nowISO render (w : ContestantVoting.World),
      ContestantVoting.hasVoted render = true →
      ContestantVoting.vote_call JSON_stringify hasWindow nowISO render w
      = (Js.Normal None,
         ContestantVoting.withError
           (Some (ContestantVoting.alreadyVotedError render)) w)
      ∧ AppError.code (ContestantVoting.alreadyVotedError render)
        = Some ALREADY_VOTED.
Proof.
  intros Hc Hk Hrun.
  assert (hasVotedFor (state m') c = true) as Hc'
    by by eapply run_keeps_voted.
  split; [simpl; by rewrite addVote_call_voted|]. split; [done|].
  intros JSON_stringify hasWindow nowISO render w Hv. split; [|done].
  rewrite vote_call_guarded by by left. by rewrite Hv.
Qed.

End VoteGuards.

(** C3 after a repeated call and a refresh of the session. *)
Lemma C3_witness :
  Store.step 0 (λ _, 0) 30 (Store.AddVoteCall "x")
    (Store.mkMachine
       (Store.withError (Some Store.alreadyVotedError) Sample.votedX) [])
  = Some (Store.mkMachine
            (Store.withError (Some Store.alreadyVotedError)
               (Store.withError (Some Store.alreadyVotedError) Sample.votedX))
            [])
  ∧ AppError.message Store.alreadyVotedError
    = "You have already voted for this contestant"
  ∧ ∀ JSON_stringify hasWindow nowISO render (w : ContestantVoting.World),
      ContestantVoting.hasVoted render = true →
      ContestantVoting.vote_call JSON_stringify hasWindow nowISO render w
      = (Js.Normal None,
         ContestantVoting.withError
           (Some (ContestantVoting.alreadyVotedError render)) w)
      ∧ AppError.code (ContestantVoting.alreadyVotedError render)
        = Some ALREADY_VOTED.
Proof.
  apply (C3_already_voted_fails_fast 0 (λ _, 0) 30 "x"
           (Store.mkMachine Sample.votedX [])
           [(10, Store.AddVoteCall "x");
            (20, Store.SetSession (Some Sample.session))]).
  - vm_compute. reflexivity.
  - reflexivity.
  - vm_compute. reflexivity.
Defined.

(** C3 as stated fails: a restore from storage replaces the voted set
    without any reset.  The store holds a vote for ["x"]; the value another
    tab stored, which lists ["y"] only, is restored; [addVote] for ["x"]
    then passes both guards, sets no error and leaves a submission
    outstanding. *)
Lemma C3_counterexample :
  ∃ m1 m2,
    Store.hasVotedFor Sample.votedX "x" = true
    ∧ Store.run 0 (λ _, 0)
        [(15, Store.RestoreVotes
                (SerializableUserVoteState.mk "s1" ["y"] 1
                   "2024-01-01T10:00:00.000Z"))]
        (Store.mkMachine Sample.votedX []) = Some m1
    ∧ Store.hasVotedFor (Store.state m1) "x" = false
    ∧ Store.step 0 (λ _, 0) 30 (Store.AddVoteCall "x") m1 = Some m2
    ∧ Store.VotingState.error (Store.state m2) = None
    ∧ Store.outstanding m2 = [Store.mkRequest "x" "s1" "anonymous"].
Proof. eexists _, _. vm_compute. done. Qed.

(** ** Optimistic update and single flight *)

(** The two vote paths.  The store's [addVote] does not update optimistically: a
    call that passes validation leaves the state as it is while the
    submission is outstanding, the vote is added when the submission
    resolves, and a rejected submission leaves the votes as they are and
    sets a recoverable error that carries no retry action.

    The optimistic protocol is that of the voting hook.  A [vote] call that
    passes its guards writes the optimistic state (the contestant appended,
    the total incremented, a new timestamp) to the adapter, and to the
    facility when it takes the write, before the submission is left
    outstanding.  When the submission fails and the hook is still mounted,
    the state the call started from is written back, in memory and to the
    facility, the vote count is restored, and the error is recoverable and
    carries the [vote] callback as its retry action, which submits for the
    same contestant again. *)
Theorem vote_paths_of_store_and_hook
    (loadTime : Z) (JSON_stringify : SerializableUserVoteState.t → string) :
  (∀ now now' c message (state state' : Store.VotingState.t),
     Store.hasVotedFor state c = false → Store.canVote state = true →
     Store.addVote_call loadTime now state c state
     = (state,
        Some (Store.mkRequest c (Store.sessionIdOrEmpty state) "anonymous"))
     ∧ Store.addVote_settle loadTime now' c Store.Resolved state'
       = Store.votingReducer loadTime now' state' (Store.ADD_VOTE c)
     ∧ Store.addVote_settle loadTime now' c (Store.Rejected message) state'
       = Store.withError (Some (Store.submissionError message)) state'
     ∧ AppError.recoverable (Store.submissionError message) = true
     ∧ AppError.retryAction (Store.submissionError message) = None)
  ∧ (∀ nowISO c sid (w : ContestantVoting.World),
     let render := ContestantVoting.currentRender c sid w in
     let prior :=
       UseLocalStorage.value (UseLocalStorage.hook (ContestantVoting.storage w)) in
     let supported :=
       UseLocalStorage.isSupported
         (UseLocalStorage.hook (ContestantVoting.storage w)) in
     let key := ContestantVoting.storageKey sid in
     let entries (w : ContestantVoting.World) :=
       LocalStorage.items
         (UseLocalStorage.localStorage (ContestantVoting.storage w)) in
     let facility (w : ContestantVoting.World) :=
       UseLocalStorage.localStorage (ContestantVoting.storage w) in
     ContestantVoting.hasVoted render = false →
     ContestantVoting.isVoting (ContestantVoting.cells w) = false →
     ∃ w1 optimistic,
       ContestantVoting.vote_call JSON_stringify true nowISO render w
       = (Js.Normal (Some c), w1)
       ∧ UseLocalStorage.value
           (UseLocalStorage.hook (ContestantVoting.storage w1)) = optimistic
       ∧ SerializableUserVoteState.votedContestants optimistic
         = (SerializableUserVoteState.votedContestants prior ++ [c])%list
       ∧ SerializableUserVoteState.totalVotes optimistic
         = SerializableUserVoteState.totalVotes prior + 1
       ∧ SerializableUserVoteState.lastUpdated optimistic = nowISO
       ∧ (supported = true →
          LocalStorage.accepts key (JSON_stringify optimistic) (facility w)
          = true →
          entries w1 !! key = Some (JSON_stringify optimistic))
       ∧ ∀ outcome w',
           ContestantVoting.failed outcome →
           ContestantVoting.isMounted (ContestantVoting.cells w') = true →
           ∃ w2,
             ContestantVoting.vote_settle JSON_stringify true render outcome w'
             = (Js.Normal tt, w2)
             ∧ UseLocalStorage.value
                 (UseLocalStorage.hook (ContestantVoting.storage w2)) = prior
             ∧ ContestantVoting.voteCount (ContestantVoting.cells w2)
               = ContestantVoting.voteCount (ContestantVoting.cells w)
             ∧ ContestantVoting.isVoting (ContestantVoting.cells w2) = false
             ∧ (supported = true →
                LocalStorage.accepts key (JSON_stringify prior) (facility w')
                = true →
                entries w2 !! key = Some (JSON_stringify prior))
             ∧ (supported = true →
                ContestantVoting.storage w' = ContestantVoting.storage w1 →
                entries w !! key = Some (JSON_stringify prior) →
                LocalStorage.accepts key (JSON_stringify optimistic) (facility w)
                = true →
                LocalStorage.accepts key (JSON_stringify prior) (facility w1)
                = true →
                entries w2 = entries w)
             ∧ ContestantVoting.error (ContestantVoting.cells w2)
               = Some (ContestantVoting.failureError render outcome)
             ∧ AppError.recoverable
                 (ContestantVoting.failureError render outcome) = true
             ∧ AppError.retryAction
                 (ContestantVoting.failureError render outcome)
               = Some (RetryVote render)
             ∧ ∀ nowISO' w'',
                 ∃ w3, ContestantVoting.retry JSON_stringify true nowISO'
                         (RetryVote render) w''
                       = (Js.Normal (Some c), w3)).
Proof.
  split.
  { intros now now' c message state state' Hc Hv.
    rewrite addVote_call_passes by done. repeat split.
    simpl. by rewrite setError_withError. }
  intros nowISO c sid w render prior supported key entries facility Hv Hi.
  assert (VoteRender.isVoting render = false) as Hi' by done.
  eexists _, _. split; [by apply vote_call_passes|].
  split; [apply written_value|]. split; [done|]. split; [done|].
  split; [done|]. split.
  { intros Hs Ha. subst entries. simpl.
    rewrite written_persisted by done. apply lookup_insert_eq. }
  intros outcome w' Hf Hm. eexists.
  split; [by apply vote_settle_failed|]. simpl.
  split; [by rewrite written_value|]. split; [done|]. split; [done|].
  split.
  { intros Hs Ha. subst entries. simpl.
    rewrite written_persisted by done. apply lookup_insert_eq. }
  split.
  { intros Hs Hsame Hprior Ha Ha'. subst entries facility. simpl in *.
    rewrite Hsame, written_persisted by done.
    rewrite written_persisted by done.
    rewrite insert_insert_eq. by apply insert_id. }
  split; [done|]. split; [by destruct outcome|].
  split; [by destruct outcome|].
  intros nowISO' w''. eexists. simpl. by apply vote_call_passes.
Qed.

(** C2.  As stated this fails on the store's [addVote].  On the mounted
    store [addVote] for ["x"] passes validation and leaves its submission
    outstanding with the voted set and the total as before: nothing is
    inserted or persisted before the submission settles, where the spec
    (and the repository's test "should add vote successfully") has the
    vote in the store right after the call.  When the submission is then
    rejected, the error carries no retry action. *)
Theorem C2_store_adds_the_vote_after_the_submission :
  let s := Store.state Sample.mounted in
  let called := Store.addVote_call 0 10 s "x" s in
  let failed := Store.addVote_settle 0 20 "x"
                  (Store.Rejected (Some "Network timeout")) (fst called) in
  (Store.hasVotedFor s "x" = false ∧ Store.canVote s = true)
  ∧ snd called = Some (Store.mkRequest "x" "s1" "anonymous")
  ∧ Store.hasVotedFor (fst called) "x" = false
  ∧ UserVoteState.totalVotes (Store.VotingState.userVoteState (fst called)) = 0
  ∧ AppError.retryAction <$> Store.VotingState.error failed = Some None.
Proof. vm_compute. done. Qed.

(** Single flight.  The single-flight guard is in the voting hook, not in
    the store's [addVote].  In the hook, a [vote] call that passes its
    guards leaves one submission outstanding, and a repeat call from the
    render that follows it submits nothing and changes no cell and no
    stored value other than the [error] cell, which it sets to the
    already-voted error because that render lists the contestant; at a
    render that does not list the contestant but has [isVoting] set, the
    repeat call changes nothing at all.  In the store, a repeat
    [addVote] while the first submission is outstanding passes validation
    again and leaves a second submission outstanding; the vote button of a
    contestant card, which calls it, does not call it at a render where
    the card's own [isVoting] is set. *)
Theorem single_flight_of_store_and_hook
    (loadTime : Z) (Date_parse : string → Z)
    (JSON_stringify : SerializableUserVoteState.t → string)
    (hasWindow : bool) :
  (∀ nowISO nowISO' c sid (w : ContestantVoting.World),
     let render := ContestantVoting.currentRender c sid w in
     ContestantVoting.hasVoted render = false →
     ContestantVoting.isVoting (ContestantVoting.cells w) = false →
     ∃ w1,
       ContestantVoting.vote_call JSON_stringify hasWindow nowISO render w
       = (Js.Normal (Some c), w1)
       ∧ ContestantVoting.vote_call JSON_stringify hasWindow nowISO'
           (ContestantVoting.currentRender c sid w1) w1
         = (Js.Normal None,
            ContestantVoting.withError
              (Some (ContestantVoting.alreadyVotedError
                       (ContestantVoting.currentRender c sid w1))) w1))
  ∧ (∀ nowISO render (w : ContestantVoting.World),
     ContestantVoting.hasVoted render = false →
     VoteRender.isVoting render = true →
     ContestantVoting.vote_call JSON_stringify hasWindow nowISO render w
     = (Js.Normal None, w))
  ∧ (∀ now now' c (m : Store.Machine),
     Store.hasVotedFor (Store.state m) c = false →
     Store.canVote (Store.state m) = true →
     let request :=
       Store.mkRequest c (Store.sessionIdOrEmpty (Store.state m)) "anonymous" in
     Store.run loadTime Date_parse
       [(now, Store.AddVoteCall c); (now', Store.AddVoteCall c)] m
     = Some (Store.mkMachine (Store.state m)
               (Store.outstanding m ++ [request; request])%list))
  ∧ (∀ (render : ContestantCard.Render) (cell : bool),
     ContestantCard.isVoting render = true →
     ContestantCard.handleVote_call render cell = (cell, false)).
Proof.
  split; [|split; [|split]].
  - intros nowISO nowISO' c sid w render Hv Hi.
    destruct (render_after_call JSON_stringify hasWindow nowISO c sid w Hv Hi)
      as [_ Hvoted].
    fold render in Hvoted.
    rewrite vote_call_passes in Hvoted |- * by done. simpl in Hvoted.
    eexists. split; [done|].
    rewrite vote_call_guarded by by left. by rewrite Hvoted.
  - intros nowISO render w Hv Hi.
    rewrite vote_call_guarded by by right. by rewrite Hv.
  - intros now now' c m Hc Hv. simpl.
    rewrite addVote_call_passes by done. simpl.
    rewrite addVote_call_passes by done.
    by rewrite <- app_assoc.
  - intros render cell Hi. unfold ContestantCard.handleVote_call.
    rewrite Hi. by rewrite orb_true_r.
Qed.

(** C5.  As stated this fails on the store's [addVote].  The second
    [addVote] for ["x"], called while the submission of the first is
    outstanding, passes validation again and leaves a second submission
    outstanding, where the spec (and the repository's test "should
    prevent duplicate votes") has the repeat call refused. *)
Theorem C5_store_submits_twice :
  ∃ m1 m2,
    Store.step 0 (λ _, 0) 10 (Store.AddVoteCall "x") Sample.mounted = Some m1
    ∧ Store.outstanding m1 = [Store.mkRequest "x" "s1" "anonymous"]
    ∧ Store.step 0 (λ _, 0) 11 (Store.AddVoteCall "x") m1 = Some m2
    ∧ Store.outstanding m2
      = [Store.mkRequest "x" "s1" "anonymous";
         Store.mkRequest "x" "s1" "anonymous"].
Proof. eexists _, _. repeat split. Qed.

(** The sample hook: the optimistic write, then the rollback after a
    rejected submission. *)
Lemma vote_paths_on_sample_hook :
  ∃ w1 w2,
    ContestantVoting.vote_call Sample.stringify true "2024-01-01T10:00:00.000Z"
      (ContestantVoting.currentRender "x" "s1" Sample.hook) Sample.hook
    = (Js.Normal (Some "x"), w1)
    ∧ LocalStorage.items
        (UseLocalStorage.localStorage (ContestantVoting.storage w1))
        !! "voting-state-s1" = Some "s1:x"
    ∧ ContestantVoting.vote_settle Sample.stringify true
        (ContestantVoting.currentRender "x" "s1" Sample.hook)
        (ContestantVoting.Rejected (Some "Network error: Failed to submit vote"))
        w1
      = (Js.Normal tt, w2)
    ∧ UseLocalStorage.value (UseLocalStorage.hook (ContestantVoting.storage w2))
      = Sample.storedEmpty
    ∧ LocalStorage.items
        (UseLocalStorage.localStorage (ContestantVoting.storage w2))
        !! "voting-state-s1" = Some "s1:".
Proof.
  destruct (vote_paths_of_store_and_hook 0 Sample.stringify) as [_ H].
  destruct (H "2024-01-01T10:00:00.000Z" "x" "s1" Sample.hook
              eq_refl eq_refl)
    as (w1 & optimistic & Hcall & Hvalue & Hids & _ & _ & Hstored & Hsettle).
  destruct (Hsettle
              (ContestantVoting.Rejected
                 (Some "Network error: Failed to submit vote"))
              w1 I)
    as (w2 & Hsettled & Hprior & _ & _ & Hback & _).
  { by injection Hcall as <-. }
  exists w1, w2. split; [exact Hcall|].
  injection Hcall as <-.
  split; [reflexivity|]. split; [exact Hsettled|]. split; [exact Hprior|].
  apply Hback; reflexivity.
Defined.

(** The sample hook: a call, then a repeat call from the next render. *)
Lemma single_flight_on_sample_hook :
  ∃ w1,
    ContestantVoting.vote_call Sample.stringify true "2024-01-01T10:00:00.000Z"
      (ContestantVoting.currentRender "x" "s1" Sample.hook) Sample.hook
    = (Js.Normal (Some "x"), w1)
    ∧ ContestantVoting.vote_call Sample.stringify true "2024-01-01T10:00:00.100Z"
        (ContestantVoting.currentRender "x" "s1" w1) w1
      = (Js.Normal None,
         ContestantVoting.withError
           (Some (ContestantVoting.alreadyVotedError
                    (ContestantVoting.currentRender "x" "s1" w1))) w1).
Proof.
  destruct (single_flight_of_store_and_hook 0 (λ _, 0) Sample.stringify true)
    as [H _].
  exact (H "2024-01-01T10:00:00.000Z" "2024-01-01T10:00:00.100Z" "x" "s1"
           Sample.hook eq_refl eq_refl).
Defined.

(** ** The polling controller *)

Section PollingFacts.

Import Polling.

#[local] Open Scope nat_scope.

Lemma stop_idempotent s : stop (stop s) = stop s.
Proof. destruct s as [p e [id|] [] ts nid tos n r]; reflexivity. Qed.

Lemma stop_idle s : idle s → stop s = s.
Proof.
  intros (Hm & Hi & Hp & _). unfold stop. rewrite Hm, Hi. simpl.
  destruct s; simpl in *. by subst.
Qed.


















Lemma sameStart_refl options : sameStart options options = true.
Proof. unfold sameStart. by rewrite Nat.eqb_refl, eqb_reflx. Qed.

(** Two renders bring a mounted hook up to date: the first may call
    [restart], which unsets [isPolling]; the second then does nothing. *)
Lemma rerender_upToDate s :
  isMounted s = true → upToDate (rerender s) = true.
Proof.
  intros Hm. destruct s as [p e i m ts nid tos n [[options polling]|]];
    simpl in Hm; subst; [|done].
  unfold rerender. simpl. unfold upToDate at 2. simpl.
  destruct p, polling; simpl; try done.
  - unfold render at 2. simpl.
    unfold enabledEffectDue, intervalEffectDue. simpl.
    rewrite sameStart_refl, eqb_reflx. simpl.
    unfold intervalEffect, restart, stop. simpl.
    destruct i as [id|]; simpl; unfold upToDate, render; simpl;
      unfold enabledEffectDue, intervalEffectDue; simpl;
      by rewrite sameStart_refl, eqb_reflx.
  - unfold render. simpl.
    unfold enabledEffectDue, intervalEffectDue. simpl.
    by rewrite sameStart_refl, eqb_reflx.
Qed.

End PollingFacts.

(** C9.  As stated this fails on the hook as React runs it.  Mounted
    with an interval of 1000 ms, enabled and not immediate, and [start]
    called three times more, the hook has not invoked the refresh callback
    once after 2500 ms, where the spec counts [2500 / 1000 = 2] invocations:
    no interval is left, since the render that follows a [start] finds
    [isPolling] changed and calls [restart].  The same holds when the hook
    is mounted disabled and then started.  Duplicate timers are not
    created, and a second [stop] changes nothing. *)
Theorem C9_interval_never_fires :
  let options := Polling.mkOptions 1000 true false in
  let repeated := [Polling.Start options; Polling.Start options;
                   Polling.Start options; Polling.Advance 2500] in
  Polling.invocations (Polling.performAll repeated (Polling.mount options))
  = 0%nat
  ∧ Polling.timers (Polling.performAll repeated (Polling.mount options)) = []
  ∧ Polling.invocations
      (Polling.performAll repeated
         (Polling.mount (Polling.mkOptions 1000 false false)))
    = 0%nat
  ∧ (2500 / 1000 = 2)%nat
  ∧ length (Polling.timers
              (Polling.start options
                 (Polling.start options (Polling.start options Polling.initial))))
    = 1%nat
  ∧ Polling.stop (Polling.stop (Polling.start options Polling.initial))
    = Polling.stop (Polling.start options Polling.initial).
Proof. vm_compute. done. Qed.

(** The first renders of that hook: [start] creates an interval, the
    render that follows clears it and leaves a [start] pending, and every
    millisecond from then on does the same. *)
Example first_renders_clear_the_interval :
  let options := Polling.mkOptions 1000 true false in
  Polling.timers (Polling.render options Polling.initial)
  = [Polling.mkTimer 0 1000 1000]
  ∧ Polling.mount options
    = Polling.mkState false None None true [] 1 [options] 0
        (Some (options, false))
  ∧ Polling.tick (Polling.mount options)
    = Polling.mkState false None None true [] 2 [options] 0
        (Some (options, false)).
Proof. vm_compute. done. Qed.

(** After the consumer is torn down no invocation happens. *)
Example no_invocation_after_unmount :
  Polling.invocations
    (Polling.advance 5000
       (Polling.unmount
          (Polling.start (Polling.mkOptions 1000 true false) Polling.initial)))
  = 0%nat.
Proof. vm_compute. reflexivity. Qed.

(** * The service, the client and the hooks *)

(** ** The mock data service *)

Lemma scaled_nonneg (r : Q) (n : Z) :
  (0 <= r)%Q → 0 ≤ n → 0 ≤ MockDataService.scaled r n.
Proof.
  intros Hr Hn. unfold MockDataService.scaled.
  rewrite <- (Qfloor_Z 0). apply Qfloor_resp_le.
  apply Qmult_le_0_compat; [done|].
  change 0%Q with (inject_Z 0). by rewrite <- Zle_Qle.
Qed.

Lemma scaled_below (r : Q) (n : Z) :
  (r < 1)%Q → 0 < n → MockDataService.scaled r n < n.
Proof.
  intros Hr Hn. unfold MockDataService.scaled.
  rewrite Zlt_Qlt. eapply Qle_lt_trans; [apply Qfloor_le|].
  rewrite <- (Qmult_1_l (inject_Z n)) at 2.
  apply Qmult_lt_compat_r; [|done].
  change 0%Q with (inject_Z 0). by rewrite <- Zlt_Qlt.
Qed.

Section ServiceFacts.

Import MockDataService.

Variable JSON_stringify : gmap string (list string) → string.
Variable JSON_parse : string → option (gmap string (list string)).
Variable hasWindow : bool.

Lemma saveVotesToStorage_returns (w : World) :
  ∃ f', saveVotesToStorage JSON_stringify hasWindow w
        = (Js.Normal tt, mkWorld (service w) f' (randoms w)).
Proof.
  unfold saveVotesToStorage, onStorage. destruct hasWindow; run_js.
  - destruct (LocalStorage.setItem _ _ _) as [[[]|reason] f']; eauto.
  - destruct w; eauto.
Qed.

Ltac submit_cases req w :=
  unfold submitVote, submitVote_body, delay, simulateError, Math_random,
    setService, votesOf; run_js;
  destruct (below (hd 0%Q (tl (randoms w))) 0.08) eqn:Hdraw; simpl;
  [|destruct (String.eqb (sessionId req) _) eqn:Hsession; simpl;
    [apply String.eqb_eq in Hsession;
     destruct (VotingSession.isActive (session (service w))) eqn:Hactive; simpl;
     [destruct (_ || _) eqn:Hwindow; simpl;
      [apply orb_true_iff in Hwindow
      |apply orb_false_iff in Hwindow as [Hlo Hhi];
       destruct (find _ _) as [found|] eqn:Hfind; simpl;
        [destruct (Contestant.isActive found) eqn:Hfound; simpl;
         [destruct (bool_decide (contestantId req ∈ _)) eqn:Hvoted; simpl;
          [apply bool_decide_eq_true in Hvoted
          |apply bool_decide_eq_false in Hvoted;
           destruct (_ <=? _) eqn:Hlimit; simpl;
            [|destruct (saveVotesToStorage_returns
                          (mkWorld
                             (mk (contestants (service w)) (session (service w))
                                (<[default "anonymous" (userId req) :=
                                     {[contestantId req]}
                                     ∪ default ∅ (userVotes (service w)
                                          !! default "anonymous" (userId req))]>
                                   (userVotes (service w)))
                                (lastUpdateTime (service w)))
                             (localStorage w) (tl (tl (randoms w)))))
                as [f' Hsave]; simpl in Hsave; rewrite Hsave; simpl]]|]|]]|]
    |apply String.eqb_neq in Hsession]].

(** A rejected submission leaves the service and the storage as they
    were. *)
Lemma submitVote_throws now req w reason w' :
  submitVote JSON_stringify hasWindow now req w = (Js.Throw reason, w') →
  service w' = service w ∧ localStorage w' = localStorage w.
Proof.
  submit_cases req w; intros [= ? <-]; done.
Qed.


Lemma sum_updateFirst select (l : list Contestant.t) found acc :
  find select l = Some found →
  fold_left (λ sum c, sum + Contestant.voteCount c)
    (updateFirst select (λ n, n + 1) l) acc
  = fold_left (λ sum c, sum + Contestant.voteCount c) l acc + 1.
Proof.
  revert acc. induction l as [|c l IH]; intros acc; simpl; [done|].
  destruct (select c); simpl.
  - intros _. generalize (Contestant.voteCount c). intros n.
    replace (acc + (n + 1)) with (acc + n + 1) by lia.
    generalize (acc + n). clear. induction l as [|c l IH]; intros k; simpl; [done|].
    rewrite <- IH. f_equal. lia.
  - apply IH.
Qed.

(** X1.  [submitVote] records a vote exactly when the draw of
    [simulateError] is not below its rate, the request names the session,
    the session is active, the time lies within the voting window, the
    contestant exists and is active, the user has not voted for the
    contestant and holds fewer votes than the session allows. *)
Theorem X1_submitVote_accepts_iff now req (w : World) :
  Js.returns (fst (submitVote JSON_stringify hasWindow now req w)) = true
  ↔ below (nth 1 (randoms w) 0%Q) 0.08 = false
    ∧ sessionId req = VotingSession.id (session (service w))
    ∧ VotingSession.isActive (session (service w)) = true
    ∧ (VotingSession.startTime (session (service w)) ≤ now)
    ∧ (now ≤ VotingSession.endTime (session (service w)))
    ∧ (∃ found,
         find (λ c, String.eqb (Contestant.id c) (contestantId req))
              (contestants (service w)) = Some found
         ∧ Contestant.isActive found = true)
    ∧ (contestantId req ∉ votesOf (default "anonymous" (userId req)) w)
    ∧ Z.of_nat (size (votesOf (default "anonymous" (userId req)) w))
      < VotingSession.maxVotesPerUser (session (service w)).
Proof.
  replace (nth 1 (randoms w) 0%Q) with (hd 0%Q (tl (randoms w)))
    by (by destruct (randoms w) as [|? [|? ?]]).
  submit_cases req w.
  all: split; [try done|].
  all: try (intros (? & ? & ? & ? & ? & (? & ? & ?) & ? & ?)).
  all: try congruence.
  all: try lia.
  intros _. split_and!; try done; try lia. eauto.
Qed.

(** X2.  A submission that is rejected, by the simulated failure or by
    any of the checks, leaves the service and the storage as they were. *)
Theorem X2_submitVote_rejected_changes_nothing now req (w w' : World) reason :
  submitVote JSON_stringify hasWindow now req w = (Js.Throw reason, w') →
  service w' = service w ∧ localStorage w' = localStorage w.
Proof. apply submitVote_throws. Qed.

(** What an accepted submission records. *)
Lemma submitVote_returns now req (w w' : World) response :
  submitVote JSON_stringify hasWindow now req w = (Js.Normal response, w') →
  let user := default "anonymous" (userId req) in
  (votesOf user w' = {[contestantId req]} ∪ votesOf user w)
  ∧ (contestantId req ∉ votesOf user w)
  ∧ (∀ other, other ≠ user → votesOf other w' = votesOf other w)
  ∧ totalVotes (getStatistics (service w'))
    = totalVotes (getStatistics (service w)) + 1
  ∧ success response = true
  ∧ UserVoteState.votedContestants (userVoteState response) = votesOf user w'
  ∧ UserVoteState.totalVotes (userVoteState response)
    = Z.of_nat (size (votesOf user w)) + 1
  ∧ session (service w') = session (service w)
  ∧ Z.of_nat (size (votesOf user w))
    < VotingSession.maxVotesPerUser (session (service w))
  ∧ contestants (service w')
    = updateFirst (λ c, String.eqb (Contestant.id c) (contestantId req))
        (λ n, n + 1) (contestants (service w))
  ∧ randoms w' = tl (tl (randoms w))
  ∧ (∃ found,
       find (λ c, String.eqb (Contestant.id c) (contestantId req))
            (contestants (service w)) = Some found
       ∧ Contestant.isActive found = true)
  ∧ (∀ found,
       find (λ c, String.eqb (Contestant.id c) (contestantId req))
            (contestants (service w)) = Some found →
       contestant response
       = withVoteCount (Contestant.voteCount found + 1) found).
Proof.
  submit_cases req w; try (intros [= ?]; done).
  intros [= <- <-]. simpl. unfold votesOf. simpl.
  rewrite lookup_insert_eq. simpl.
  split_and!; try done.
  - intros other Hne. by rewrite lookup_insert_ne.
  - by apply sum_updateFirst with found.
  - rewrite size_union by (by apply disjoint_singleton_l).
    rewrite size_singleton. lia.
  - lia.
  - eauto.
  - by intros ? [= <-].
Qed.

(** X3.  An accepted submission adds the contestant to the votes of the
    user and to no other user's.  It raises the vote count of the
    contestant found (the first of the array with the id of the request)
    by one and leaves every other contestant as it was, so the total of
    [getStatistics] grows by one.  It answers with that contestant at its
    new count, and with the user's new set and its size. *)
Theorem X3_submitVote_accepted_records_one_vote now req (w w' : World) response :
  submitVote JSON_stringify hasWindow now req w = (Js.Normal response, w') →
  let user := default "anonymous" (userId req) in
  (votesOf user w' = {[contestantId req]} ∪ votesOf user w)
  ∧ (contestantId req ∉ votesOf user w)
  ∧ (∀ other, other ≠ user → votesOf other w' = votesOf other w)
  ∧ totalVotes (getStatistics (service w'))
    = totalVotes (getStatistics (service w)) + 1
  ∧ success response = true
  ∧ UserVoteState.votedContestants (userVoteState response) = votesOf user w'
  ∧ UserVoteState.totalVotes (userVoteState response)
    = Z.of_nat (size (votesOf user w)) + 1
  ∧ session (service w') = session (service w)
  ∧ (∃ found,
       find (λ c, String.eqb (Contestant.id c) (contestantId req))
            (contestants (service w)) = Some found
       ∧ contestant response
         = withVoteCount (Contestant.voteCount found + 1) found)
  ∧ contestants (service w')
    = updateFirst (λ c, String.eqb (Contestant.id c) (contestantId req))
        (λ n, n + 1) (contestants (service w)).
Proof.
  intros Hsubmit. apply submitVote_returns in Hsubmit. simpl in *.
  destruct Hsubmit as (? & ? & ? & ? & ? & ? & ? & ? & ? & ? & ?
                       & (found & Hfind & ?) & Hresponse).
  split_and!; try done. exists found. split; [done|]. by apply Hresponse.
Qed.

Ltac service_cases :=
  unfold step, getContestants, getVotingSession, pollUpdates, getUserVoteState,
    setVotingWindowStatus, simulateVoteActivity, delay, simulateError,
    Math_random, setService; run_js;
  repeat case_match; simplify_eq/=; try done.

Lemma redraw_returns (l : list Contestant.t) (w : World) :
  ∃ l' rs, redraw l w = (Js.Normal l', mkWorld (service w) (localStorage w) rs)
           ∧ (Forall (λ r, (0 <= r)%Q ∧ (r < 1)%Q) (randoms w)
              → Forall (λ r, (0 <= r)%Q ∧ (r < 1)%Q) rs).
Proof.
  revert w. induction l as [|c l IH]; intros w; simpl.
  - exists [], (randoms w). by destruct w.
  - unfold Math_random. run_js.
    destruct (IH (mkWorld (service w) (localStorage w) (tl (randoms w))))
      as (l' & rs & Hl & Hrs).
    simpl in Hl. rewrite Hl. simpl. eexists _, rs. split; [done|].
    intros H. apply Hrs. simpl. destruct (randoms w); [done|]. by inversion H.
Qed.

Lemma resetVotes_spec now (w : World) :
  ∃ l' rs, resetVotes now w
           = (Js.Normal tt,
              mkWorld (mk l' (session (service w)) ∅ now) (localStorage w) rs).
Proof.
  unfold resetVotes, setService. run_js.
  destruct (redraw_returns (contestants (service w))
              (mkWorld (mk (contestants (service w)) (session (service w)) ∅
                           (lastUpdateTime (service w)))
                       (localStorage w) (randoms w)))
    as (l' & rs & Hl & _).
  simpl in Hl. rewrite Hl. simpl. eauto.
Qed.

(** What a method leaves of the session: everything but [isActive]. *)
Lemma step_session now op (w : World) :
  let s := session (service w) in
  let s' := session (service (step JSON_stringify hasWindow now op w)) in
  VotingSession.id s' = VotingSession.id s
  ∧ VotingSession.startTime s' = VotingSession.startTime s
  ∧ VotingSession.endTime s' = VotingSession.endTime s
  ∧ VotingSession.maxVotesPerUser s' = VotingSession.maxVotesPerUser s.
Proof.
  destruct op; simpl.
  - service_cases.
  - destruct (submitVote _ _ _ _ _) as [[response|reason] w'] eqn:Hsubmit; simpl.
    + apply submitVote_returns in Hsubmit. simpl in Hsubmit.
      destruct_and!. by repeat match goal with H : session _ = _ |- _ => rewrite H end.
    + apply submitVote_throws in Hsubmit as [-> _]. done.
  - service_cases.
  - service_cases.
  - service_cases.
  - service_cases.
  - destruct (resetVotes_spec now w) as (l' & rs & ->). done.
  - service_cases.
Qed.

(** The votes a method finds are still there after it, unless the method
    is [resetVotes]. *)
Lemma step_votes now op userId (w : World) :
  keepsVotes op = true →
  votesOf userId w ⊆ votesOf userId (step JSON_stringify hasWindow now op w).
Proof.
  intros Hop. destruct op as [|voteRequest| | | | | |]; simpl; try done.
  2: { destruct (submitVote _ _ _ _ _) as [[response|reason] w'] eqn:Hsubmit; simpl.
       - apply submitVote_returns in Hsubmit. simpl in Hsubmit.
         destruct Hsubmit as (Hvotes & _ & Hother & _).
         destruct (decide (userId = default "anonymous"
                             (MockDataService.userId voteRequest))) as [->|Hne].
         + rewrite Hvotes. apply union_subseteq_r.
         + by rewrite Hother.
       - apply submitVote_throws in Hsubmit as [Hs _]. unfold votesOf. by rewrite Hs. }
  all: service_cases.
Qed.

Lemma votesOf_empty userId (w : World) :
  userVotes (service w) = ∅ → votesOf userId w = ∅.
Proof. unfold votesOf. intros ->. by rewrite lookup_empty. Qed.

Lemma step_withinLimit now op (w : World) :
  withinLimit w → withinLimit (step JSON_stringify hasWindow now op w).
Proof.
  intros Hw. destruct op; simpl.
  - service_cases.
  - destruct (submitVote _ _ _ _ _) as [[response|reason] w'] eqn:Hsubmit; simpl.
    + apply submitVote_returns in Hsubmit. simpl in Hsubmit.
      destruct Hsubmit as (Hvotes & Hnew & Hother & _ & _ & _ & _ & Hs & Hlt & _).
      intros u. rewrite Hs.
      destruct (decide (u = default "anonymous"
                          (MockDataService.userId voteRequest))) as [->|Hne].
      * rewrite Hvotes, size_union, size_singleton
          by (by apply disjoint_singleton_l). lia.
      * rewrite Hother by done. apply Hw.
    + apply submitVote_throws in Hsubmit as [Hs _].
      intros u. unfold votesOf. rewrite Hs. apply Hw.
  - service_cases.
  - service_cases.
  - service_cases.
  - service_cases.
  - destruct (resetVotes_spec now w) as (l' & rs & ->). simpl.
    intros u. rewrite votesOf_empty by done.
    rewrite size_empty. simpl. specialize (Hw u). lia.
  - service_cases.
Qed.


Lemma run_cons now op ops (w : World) :
  run JSON_stringify hasWindow ((now, op) :: ops) w
  = run JSON_stringify hasWindow ops (step JSON_stringify hasWindow now op w).
Proof. done. Qed.

Lemma run_withinLimit ops (w : World) :
  withinLimit w → withinLimit (run JSON_stringify hasWindow ops w).
Proof.
  revert w. induction ops as [|[now op] ops IH]; intros w Hw; [done|].
  rewrite run_cons. by apply IH, step_withinLimit.
Qed.

Lemma run_session ops (w : World) :
  VotingSession.maxVotesPerUser
    (session (service (run JSON_stringify hasWindow ops w)))
  = VotingSession.maxVotesPerUser (session (service w))
  ∧ VotingSession.id (session (service (run JSON_stringify hasWindow ops w)))
    = VotingSession.id (session (service w)).
Proof.
  revert w. induction ops as [|[now op] ops IH]; intros w; [done|].
  rewrite run_cons. destruct (IH (step JSON_stringify hasWindow now op w)) as [-> ->].
  destruct (step_session now op w) as (-> & _ & _ & ->). done.
Qed.

Lemma run_votes ops userId (w : World) :
  forallb keepsVotes (map snd ops) = true →
  votesOf userId w ⊆ votesOf userId (run JSON_stringify hasWindow ops w).
Proof.
  revert w. induction ops as [|[now op] ops IH]; intros w Hops; [done|].
  simpl in Hops. apply andb_true_iff in Hops as [Hop Hops].
  rewrite run_cons. etrans; [by apply (step_votes now op)|]. by apply IH.
Qed.

(** What the constructor loads when nothing is stored under its key. *)
Lemma construct_fresh now storage rs :
  LocalStorage.items storage !! "voting-app-votes-session-2025-finale" = None →
  service (construct JSON_parse hasWindow now storage rs)
  = mk mockContestants mockVotingSession ∅ now.
Proof.
  intros Hkey. unfold construct, loadPersistedVotes, onStorage, LocalStorage.getItem.
  destruct hasWindow; run_js; [|done].
  destruct (LocalStorage.blocked storage); simpl; [done|].
  unfold votesKey. simpl.
  change ("voting-app-votes-" +:+ "session-2025-finale")
    with "voting-app-votes-session-2025-finale".
  by rewrite Hkey.
Qed.

(** X4.  A service constructed over a storage that holds no votes never
    records more than three votes for a user, whatever methods are called
    on it and whatever the draws. *)
Theorem X4_service_keeps_the_vote_limit now storage rs ops userId :
  LocalStorage.items storage !! "voting-app-votes-session-2025-finale" = None →
  (size (votesOf userId
           (run JSON_stringify hasWindow ops
              (construct JSON_parse hasWindow now storage rs))) ≤ 3)%nat.
Proof.
  intros Hkey.
  pose proof (run_withinLimit ops (construct JSON_parse hasWindow now storage rs)) as H.
  destruct (run_session ops (construct JSON_parse hasWindow now storage rs))
    as [Hmax _].
  unfold withinLimit in H. rewrite Hmax in H.
  rewrite (construct_fresh _ _ _ Hkey) in H. simpl in H.
  enough (Z.of_nat (size (votesOf userId
            (run JSON_stringify hasWindow ops
               (construct JSON_parse hasWindow now storage rs)))) ≤ 3) by lia.
  apply H. intros u. rewrite votesOf_empty by (by rewrite construct_fresh).
  by rewrite size_empty.
Qed.

(** X5.  Once the service holds a vote of a user for a contestant, every
    later submission of that user for that contestant is rejected, at any
    time and after any methods but [resetVotes], and changes nothing. *)
Theorem X5_service_rejects_a_second_vote ops now req (w : World) :
  forallb keepsVotes (map snd ops) = true →
  contestantId req ∈ votesOf (default "anonymous" (userId req)) w →
  let w1 := run JSON_stringify hasWindow ops w in
  Js.returns (fst (submitVote JSON_stringify hasWindow now req w1)) = false
  ∧ service (snd (submitVote JSON_stringify hasWindow now req w1)) = service w1.
Proof.
  intros Hops Hin w1.
  assert (contestantId req ∈ votesOf (default "anonymous" (userId req)) w1) as Hin1
    by (by apply (run_votes ops _ w Hops)).
  destruct (submitVote _ _ _ _ w1) as [[response|reason] w'] eqn:Hsubmit; simpl.
  - apply submitVote_returns in Hsubmit. simpl in Hsubmit.
    by destruct Hsubmit as (_ & Hnew & _).
  - split; [done|]. by apply submitVote_throws in Hsubmit as [-> _].
Qed.


Lemma submitVote_saves now req (w w1 : World) response :
  submitVote JSON_stringify true now req w = (Js.Normal response, w1) →
  LocalStorage.accepts (votesKey (service w))
    (JSON_stringify (elements <$> userVotes (service w1))) (localStorage w) = true →
  localStorage w1
  = LocalStorage.withItems
      (<[votesKey (service w) :=
           JSON_stringify (elements <$> userVotes (service w1))]>
         (LocalStorage.items (localStorage w)))
      (localStorage w).
Proof.
  unfold submitVote, submitVote_body, delay, simulateError, Math_random,
    setService, saveVotesToStorage, onStorage, votesOf; run_js.
  repeat case_match; simplify_eq/=; try done.
  - intros [= <- <-]. simpl. intros Ha.
    rewrite setItem_accepts in * by done. by simplify_eq.
  - intros [= <- <-]. simpl. intros Ha.
    rewrite setItem_accepts in * by done. by simplify_eq.
Qed.

Lemma construct_loads now storage rs text votesData :
  LocalStorage.blocked storage = false →
  LocalStorage.items storage !! "voting-app-votes-session-2025-finale" = Some text →
  text ≠ "" →
  JSON_parse text = Some votesData →
  userVotes (service (construct JSON_parse true now storage rs))
  = list_to_set <$> votesData.
Proof.
  intros Hb Hkey Htext Hparse.
  unfold construct, loadPersistedVotes, onStorage, LocalStorage.getItem, setService.
  run_js. rewrite Hb. simpl. unfold votesKey. simpl.
  change ("voting-app-votes-" +:+ "session-2025-finale")
    with "voting-app-votes-session-2025-finale".
  rewrite Hkey. apply String.eqb_neq in Htext. rewrite Htext, Hparse. done.
Qed.

Lemma votes_round_trip (m : gmap string (gset string)) :
  list_to_set <$> (elements <$> m) = m.
Proof.
  rewrite <- map_fmap_compose. rewrite <- (map_fmap_id m) at 2.
  apply map_fmap_ext. intros k votes _. simpl. apply list_to_set_elements_L.
Qed.


(** X6.  The votes an accepted submission saves are what a service
    constructed later over the same storage starts with; [resetVotes]
    empties the votes in memory but leaves the storage alone, so after it
    a newly constructed service holds the old votes again. *)
Theorem X6_persisted_votes_outlive_a_reset
    now now2 now3 req (w w1 : World) response rs :
  VotingSession.id (session (service w)) = "session-2025-finale" →
  submitVote JSON_stringify true now req w = (Js.Normal response, w1) →
  LocalStorage.accepts (votesKey (service w))
    (JSON_stringify (elements <$> userVotes (service w1))) (localStorage w) = true →
  JSON_stringify (elements <$> userVotes (service w1)) ≠ "" →
  JSON_parse (JSON_stringify (elements <$> userVotes (service w1)))
  = Some (elements <$> userVotes (service w1)) →
  userVotes (service (construct JSON_parse true now3 (localStorage w1) rs))
  = userVotes (service w1)
  ∧ userVotes (service (snd (resetVotes now2 w1))) = ∅
  ∧ localStorage (snd (resetVotes now2 w1)) = localStorage w1
  ∧ userVotes (service (construct JSON_parse true now3
                          (localStorage (snd (resetVotes now2 w1))) rs))
    = userVotes (service w1).
Proof.
  intros Hid Hsubmit Haccepts Htext Hparse.
  pose proof (submitVote_saves _ _ _ _ _ Hsubmit Haccepts) as Hsaved.
  assert (userVotes (service (construct JSON_parse true now3 (localStorage w1) rs))
          = userVotes (service w1)) as Hload.
  { rewrite <- (votes_round_trip (userVotes (service w1))) at 1.
    apply construct_loads with (JSON_stringify (elements <$> userVotes (service w1)));
      try done.
    - rewrite Hsaved. simpl.
      unfold LocalStorage.accepts in Haccepts.
      apply andb_true_iff in Haccepts as [Hb _]. by apply negb_true_iff in Hb.
    - rewrite Hsaved. simpl. unfold votesKey. rewrite Hid.
      change ("voting-app-votes-" +:+ "session-2025-finale")
        with "voting-app-votes-session-2025-finale".
      by rewrite lookup_insert_eq. }
  destruct (resetVotes_spec now2 w1) as (l' & rs' & ->). simpl. done.
Qed.

Lemma later_refl c : later c c.
Proof. split_and!; [by destruct c|lia|done]. Qed.

Lemma later_all_refl (l : list Contestant.t) : Forall2 later l l.
Proof. induction l; constructor; [apply later_refl|done]. Qed.

Lemma later_trans a b c : later a b → later b c → later a c.
Proof.
  intros (Hab & Hle1 & Hin1) (Hbc & Hle2 & Hin2).
  split_and!.
  - rewrite Hbc, Hab. by destruct a.
  - lia.
  - intros Ha. rewrite Hin2, Hin1; [done..|]. rewrite Hab. by destruct a.
Qed.

Lemma later_raised c k :
  Contestant.isActive c = true → 0 ≤ k →
  later c (withVoteCount (Contestant.voteCount c + k) c).
Proof. intros Ha Hk. split_and!; simpl; [done|lia|congruence]. Qed.

Lemma later_updateFirst select k (l : list Contestant.t) found :
  find select l = Some found → Contestant.isActive found = true → 0 ≤ k →
  Forall2 later l (updateFirst select (λ n, n + k) l).
Proof.
  intros Hfind Ha Hk. induction l as [|c l IH]; simpl in *; [done|].
  destruct (select c).
  - simplify_eq. constructor; [by apply later_raised|apply later_all_refl].
  - constructor; [apply later_refl|by apply IH].
Qed.

Lemma later_updateSelected index k (l : list Contestant.t) :
  0 ≤ k →
  Forall2 later l (updateSelected Contestant.isActive index (λ n, n + k) l).
Proof.
  intros Hk. revert index. induction l as [|c l IH]; intros index; simpl; [done|].
  destruct (Contestant.isActive c) eqn:Ha.
  - destruct index.
    + constructor; [by apply later_raised|apply later_all_refl].
    + constructor; [apply later_refl|apply IH].
  - constructor; [apply later_refl|apply IH].
Qed.

Lemma later_updateAt index k (l : list Contestant.t) c :
  l !! index = Some c → Contestant.isActive c = true → 0 ≤ k →
  Forall2 later l (updateAt index (λ n, n + k) l).
Proof.
  intros Hl Ha Hk. unfold updateAt.
  revert index Hl. induction l as [|c' l IH]; intros [|index] Hl; simpl in *;
    simplify_eq.
  - constructor; [by apply later_raised|apply later_all_refl].
  - constructor; [apply later_refl|by apply IH].
Qed.

Lemma unit_tl (rs : list Q) :
  Forall (λ r, (0 <= r)%Q ∧ (r < 1)%Q) rs →
  Forall (λ r, (0 <= r)%Q ∧ (r < 1)%Q) (tl rs).
Proof. destruct rs; [done|]. by inversion 1. Qed.

Lemma unit_hd (rs : list Q) :
  Forall (λ r, (0 <= r)%Q ∧ (r < 1)%Q) rs →
  (0 <= hd 0%Q rs)%Q ∧ (hd 0%Q rs < 1)%Q.
Proof. destruct rs; [done|]. by inversion 1. Qed.

Ltac unit_draw :=
  match goal with
  | |- Forall _ _ => repeat apply unit_tl; assumption
  | |- (0 <= hd _ _)%Q => apply unit_hd; repeat apply unit_tl; assumption
  | |- (hd _ _ < 1)%Q => apply unit_hd; repeat apply unit_tl; assumption
  end.

Lemma at_index_lookup {A} (l : list A) index x :
  at_index l index = Some x → l !! Z.to_nat index = Some x.
Proof. unfold at_index. by destruct (index <? 0). Qed.

(** No method but [resetVotes] lowers a vote count or touches the count of
    an inactive contestant, while the draws are numbers in [[0, 1)]. *)
Lemma step_later now op (w : World) :
  keepsVotes op = true → unitDraws w →
  Forall2 later (contestants (service w))
    (contestants (service (step JSON_stringify hasWindow now op w)))
  ∧ unitDraws (step JSON_stringify hasWindow now op w).
Proof.
  intros Hop Hw. unfold unitDraws in *.
  destruct op as [|voteRequest| | | | | |]; simpl; try done.
  2: { destruct (submitVote _ _ _ _ _) as [[response|reason] w'] eqn:Hsubmit; simpl.
       - apply submitVote_returns in Hsubmit. simpl in Hsubmit.
         destruct Hsubmit
           as (_ & _ & _ & _ & _ & _ & _ & _ & _ & -> & -> & (found & ? & ?) & _).
         split; [|unit_draw]. by apply later_updateFirst with found.
       - pose proof Hsubmit as Hsame. apply submitVote_throws in Hsame as [-> _].
         split; [apply later_all_refl|].
         revert Hsubmit. submit_cases voteRequest w; intros [= ? <-]; simpl; unit_draw. }
  all: service_cases.
  all: try (split; [apply later_all_refl|unit_draw]).
  - split; [|unit_draw].
    eapply later_updateAt; [by apply at_index_lookup|done|].
    enough (0 ≤ scaled (hd 0%Q (tail (tail (tail (tail (randoms w)))))) 5) by lia.
    apply scaled_nonneg; [unit_draw|lia].
  - split; [|unit_draw].
    eapply later_updateAt; [by apply at_index_lookup|done|].
    enough (0 ≤ scaled (hd 0%Q (tail (tail (tail (tail (randoms w)))))) 5) by lia.
    apply scaled_nonneg; [unit_draw|lia].
  - split; [|unit_draw].
    apply later_updateSelected.
    enough (0 ≤ scaled (hd 0%Q (tail (randoms w))) 3) by lia.
    apply scaled_nonneg; [unit_draw|lia].
Qed.

(** X7.  While the draws are numbers in [[0, 1)], the methods other than
    [resetVotes] keep the contestants in place, never lower a vote count,
    and never change the vote count of an inactive contestant. *)
Theorem X7_vote_counts_only_grow ops (w : World) :
  forallb keepsVotes (map snd ops) = true → unitDraws w →
  Forall2 later (contestants (service w))
    (contestants (service (run JSON_stringify hasWindow ops w))).
Proof.
  revert w. induction ops as [|[now op] ops IH]; intros w Hops Hw.
  - apply later_all_refl.
  - simpl in Hops. apply andb_true_iff in Hops as [Hop Hops].
    rewrite run_cons. destruct (step_later now op w Hop Hw) as [Hstep Hw'].
    specialize (IH _ Hops Hw').
    revert Hstep IH. generalize (contestants (service w)).
    generalize (contestants (service (step JSON_stringify hasWindow now op w))).
    generalize (contestants (service (run JSON_stringify hasWindow ops
                  (step JSON_stringify hasWindow now op w)))).
    intros l3 l2 l1 H12. revert l3. induction H12; intros l3 H23.
    + done.
    + inversion H23; subst. constructor; [by eapply later_trans|by apply IHForall2].
Qed.

End ServiceFacts.

(** X2 on a submission before the voting window opens. *)
Lemma X2_witness :
  MockDataService.service
    (snd (MockDataService.submitVote Scenario.stringify true 0
            (Scenario.request "contestant-1") Scenario.service))
  = MockDataService.service Scenario.service
  ∧ MockDataService.localStorage
      (snd (MockDataService.submitVote Scenario.stringify true 0
              (Scenario.request "contestant-1") Scenario.service))
    = MockDataService.localStorage Scenario.service.
Proof.
  apply (X2_submitVote_rejected_changes_nothing Scenario.stringify true 0
           (Scenario.request "contestant-1") Scenario.service _
           "Voting window is closed").
  vm_compute. reflexivity.
Defined.

(** X3 on the first vote of ['anonymous'], for the first contestant. *)
Lemma X3_witness :
  MockDataService.votesOf "anonymous" Scenario.voted = {["contestant-1"]}
  ∧ MockDataService.totalVotes
      (MockDataService.getStatistics (MockDataService.service Scenario.voted))
    = MockDataService.totalVotes
        (MockDataService.getStatistics (MockDataService.service Scenario.service))
      + 1.
Proof.
  destruct (X3_submitVote_accepted_records_one_vote Scenario.stringify true
              Scenario.duringVoting (Scenario.request "contestant-1")
              Scenario.service Scenario.voted
              (MockDataService.mkResponse true
                 (MockDataService.withVoteCount 1248 Scenario.sarah)
                 (UserVoteState.mk "session-2025-finale" {["contestant-1"]} 1
                    Scenario.duringVoting)))
    as (Hvotes & _ & _ & Htotal & _).
  - vm_compute. reflexivity.
  - split; [|exact Htotal]. etransitivity; [exact Hvotes|]. decide_set.
Defined.

(** X4 on five submissions to a newly constructed service. *)
Lemma X4_witness :
  (size (MockDataService.votesOf "anonymous"
           (MockDataService.run Scenario.stringify true Scenario.busy
              (MockDataService.construct Scenario.parse true 0
                 Sample.emptyStorage Scenario.draws))) ≤ 3)%nat.
Proof.
  apply (X4_service_keeps_the_vote_limit Scenario.stringify Scenario.parse true).
  reflexivity.
Defined.

(** X5 on a second vote for the first contestant, a day later. *)
Lemma X5_witness :
  Js.returns
    (fst (MockDataService.submitVote Scenario.stringify true
            (Scenario.duringVoting + 86400000) (Scenario.request "contestant-1")
            (MockDataService.run Scenario.stringify true
               [(Scenario.duringVoting + 1000, MockDataService.GetContestants);
                (Scenario.duringVoting + 2000, MockDataService.SimulateVoteActivity)]
               Scenario.voted)))
  = false.
Proof.
  apply (X5_service_rejects_a_second_vote Scenario.stringify true
           [(Scenario.duringVoting + 1000, MockDataService.GetContestants);
            (Scenario.duringVoting + 2000, MockDataService.SimulateVoteActivity)]
           (Scenario.duringVoting + 86400000) (Scenario.request "contestant-1")
           Scenario.voted).
  - reflexivity.
  - decide_set.
Defined.

(** X6 on the first vote: a service constructed after it, and one
    constructed after a reset, hold the vote. *)
Lemma X6_witness :
  MockDataService.userVotes
    (MockDataService.service
       (MockDataService.construct Scenario.parse true
          (Scenario.duringVoting + 2000)
          (MockDataService.localStorage
             (snd (MockDataService.resetVotes (Scenario.duringVoting + 1000)
                     Scenario.voted)))
          Scenario.draws))
  = MockDataService.userVotes (MockDataService.service Scenario.voted).
Proof.
  apply (X6_persisted_votes_outlive_a_reset Scenario.stringify Scenario.parse
           Scenario.duringVoting (Scenario.duringVoting + 1000)
           (Scenario.duringVoting + 2000) (Scenario.request "contestant-1")
           Scenario.service Scenario.voted
           (MockDataService.mkResponse true
              (MockDataService.withVoteCount 1248 Scenario.sarah)
              (UserVoteState.mk "session-2025-finale" {["contestant-1"]} 1
                 Scenario.duringVoting))
           Scenario.draws).
  - reflexivity.
  - vm_compute. reflexivity.
  - vm_compute. reflexivity.
  - vm_compute. discriminate.
  - vm_compute. reflexivity.
Defined.

(** X7 on the five submissions: no vote count of the mock data is lower
    afterwards. *)
Lemma X7_witness :
  Forall2 MockDataService.later
    (MockDataService.contestants (MockDataService.service Scenario.service))
    (MockDataService.contestants
       (MockDataService.service
          (MockDataService.run Scenario.stringify true Scenario.busy
             Scenario.service))).
Proof.
  apply (X7_vote_counts_only_grow Scenario.stringify true Scenario.busy
           Scenario.service).
  - reflexivity.
  - unfold MockDataService.unitDraws. simpl.
    repeat (constructor; [split; [discriminate|reflexivity]|]). constructor.
Defined.

(** ** The store with the mock service behind it *)

Section AppFacts.

Import Store.

Variable loadTime : Z.
Variable JSON_stringify : gmap string (list string) → string.
Variable hasWindow : bool.

Lemma submitVote_body_as_method now req (w : MockDataService.World) :
  MockDataService.submitVote_body JSON_stringify hasWindow now req w
  = MockDataService.submitVote JSON_stringify hasWindow now req
      (MockDataService.mkWorld (MockDataService.service w)
         (MockDataService.localStorage w)
         (0%Q :: MockDataService.randoms w)).
Proof.
  unfold MockDataService.submitVote, MockDataService.delay,
    MockDataService.Math_random. run_js. by destruct w.
Qed.

Lemma takeRequest_found c requests r rest :
  takeRequest c requests = Some (r, rest) →
  contestantId r = c ∧ r ∈ requests ∧ rest ⊆ requests.
Proof.
  revert r rest. induction requests as [|r' requests IH]; intros r rest; simpl; [done|].
  destruct (String.eqb (contestantId r') c) eqn:Heq.
  - intros [= <- <-]. apply String.eqb_eq in Heq.
    split_and!; [done|apply list_elem_of_here|]. intros x Hx. by apply list_elem_of_further.
  - destruct (takeRequest c requests) as [[found rest']|]; [|done].
    intros [= <- <-]. destruct (IH _ _ eq_refl) as (? & ? & Hsub).
    split_and!; [done|by apply list_elem_of_further|].
    intros x [->|Hx]%elem_of_cons; [apply list_elem_of_here|].
    apply list_elem_of_further. by apply Hsub.
Qed.

(** The invariant of the pair: the total counts the voted contestants,
    which the service holds for ['anonymous'], and every outstanding
    request is for that user. *)
Lemma step_invariant now e (a a' : App.t) :
  App.keepsVotes e = true →
  App.step loadTime JSON_stringify hasWindow now e a = Some a' →
  (totalMatchesVotes (state (App.store a))
   ∧ UserVoteState.votedContestants (VotingState.userVoteState (state (App.store a)))
     ⊆ MockDataService.votesOf "anonymous" (App.backend a)
   ∧ Forall (λ r, userId r = "anonymous") (outstanding (App.store a))) →
  (totalMatchesVotes (state (App.store a'))
   ∧ UserVoteState.votedContestants (VotingState.userVoteState (state (App.store a')))
     ⊆ MockDataService.votesOf "anonymous" (App.backend a')
   ∧ Forall (λ r, userId r = "anonymous") (outstanding (App.store a'))).
Proof.
  intros Hkeep Hstep (Htotal & Hsub & Hreq).
  destruct a as [[s reqs] w]. simpl in *.
  destruct e as [action|c|c|op]; simpl in Hstep.
  - destruct (plain action) eqn:Hplain; [|done]. simplify_eq. simpl.
    split_and!; [|  |done].
    + apply reducer_keeps_total; [by destruct action|done].
    + destruct s as [? ? ? ? [] ?], action; simpl in *; try done;
        try (by destruct payload).
  - unfold addVote_call in Hstep.
    destruct (hasVotedFor s c); [|destruct (negb (canVote s))]; simplify_eq; simpl.
    + split_and!; [by destruct s|by destruct s|done].
    + split_and!; [by destruct s|by destruct s|done].
    + split_and!; [done|by destruct w|].
      apply Forall_app. split; [done|]. by repeat constructor.
  - destruct (takeRequest c reqs) as [[r rest]|] eqn:Htake; [|done].
    apply takeRequest_found in Htake as (Hc & Hin & Hrest).
    rewrite submitVote_body_as_method in Hstep.
    destruct (MockDataService.submitVote _ _ _ _ _) as [[response|reason] w'] eqn:Hsubmit.
    + simplify_eq. simpl.
      apply submitVote_returns in Hsubmit. simpl in Hsubmit.
      destruct Hsubmit as (Hvotes & Hnew & _).
      rewrite Forall_forall in Hreq. rewrite (Hreq _ Hin) in Hvotes, Hnew.
      unfold MockDataService.votesOf in *. simpl in *.
      destruct s as [? ? ? ? [sid voted total updated] ?]. simpl in *.
      unfold totalMatchesVotes in *. simpl in *.
      split_and!.
      * rewrite size_union
          by (apply disjoint_singleton_l; intros Hc; by apply Hnew, Hsub).
        rewrite size_singleton. lia.
      * rewrite Hvotes. by apply union_mono_l.
      * apply Forall_forall. intros x Hx. apply Hreq. by apply Hrest.
    + simplify_eq. simpl.
      apply submitVote_throws in Hsubmit as [Hs _].
      unfold MockDataService.votesOf in *. simpl in *. rewrite Hs.
      split_and!; [by destruct s|by destruct s|].
      apply Forall_forall. intros x Hx. rewrite Forall_forall in Hreq.
      apply Hreq. by apply Hrest.
  - simplify_eq. simpl. split_and!; [done| |done].
    etrans; [done|]. by apply step_votes.
Qed.


Lemma run_invariant events (a a' : App.t) :
  forallb App.keepsVotes (map snd events) = true →
  App.run loadTime JSON_stringify hasWindow events a = Some a' →
  (totalMatchesVotes (state (App.store a))
   ∧ UserVoteState.votedContestants (VotingState.userVoteState (state (App.store a)))
     ⊆ MockDataService.votesOf "anonymous" (App.backend a)
   ∧ Forall (λ r, userId r = "anonymous") (outstanding (App.store a))) →
  (totalMatchesVotes (state (App.store a'))
   ∧ UserVoteState.votedContestants (VotingState.userVoteState (state (App.store a')))
     ⊆ MockDataService.votesOf "anonymous" (App.backend a')
   ∧ Forall (λ r, userId r = "anonymous") (outstanding (App.store a'))).
Proof.
  revert a. induction events as [|[now e] events IH]; intros a Hkeep; simpl.
  - by intros [= <-].
  - simpl in Hkeep. apply andb_true_iff in Hkeep as [He Hkeep].
    destruct (App.step _ _ _ _ _ _) as [a1|] eqn:Hstep; [|done].
    intros Hrun Ha. apply (IH a1 Hkeep Hrun). by apply (step_invariant now e a).
Qed.

(** X8.  With the mock service as the back end of the store, the total of
    the store equals the number of voted contestants in every state
    reached from the mounted provider by plain actions, calls of [addVote]
    that may overlap, settlements, and methods of the service other than
    [resetVotes]: the service accepts a contestant once, so a second
    submission for it is rejected.  The voted contestants of the store are
    votes the service holds for ['anonymous']. *)
Theorem X8_mock_backend_counts_each_vote_once
    now0 initialSession initialContestants (w0 : MockDataService.World)
    events (a : App.t) :
  forallb App.keepsVotes (map snd events) = true →
  App.run loadTime JSON_stringify hasWindow events
    (App.mk (mount loadTime now0 initialSession initialContestants) w0) = Some a →
  totalMatchesVotes (state (App.store a))
  ∧ UserVoteState.votedContestants (VotingState.userVoteState (state (App.store a)))
    ⊆ MockDataService.votesOf "anonymous" (App.backend a).
Proof.
  intros Hkeep Hrun.
  destruct (run_invariant events _ a Hkeep Hrun) as (? & ? & _); [|done].
  simpl. split_and!; [done|apply empty_subseteq|done].
Qed.

End AppFacts.

(** X8 on two overlapping calls of [addVote] for the first contestant:
    the service rejects the second submission, and the store counts one
    vote. *)
Lemma X8_witness :
  match App.run 0 Scenario.stringify true Scenario.doubleCall Scenario.app with
  | Some a =>
      Store.totalMatchesVotes (Store.state (App.store a))
      ∧ UserVoteState.totalVotes
          (Store.VotingState.userVoteState (Store.state (App.store a))) = 1
  | None => False
  end.
Proof.
  destruct (App.run 0 Scenario.stringify true Scenario.doubleCall Scenario.app)
    as [a|] eqn:Hrun; [|vm_compute in Hrun; discriminate].
  destruct (X8_mock_backend_counts_each_vote_once 0 Scenario.stringify true
              Scenario.duringVoting (Some MockDataService.mockVotingSession)
              MockDataService.mockContestants Scenario.service
              Scenario.doubleCall a eq_refl Hrun) as [Htotal _].
  split; [exact Htotal|].
  vm_compute in Hrun. injection Hrun as <-. reflexivity.
Defined.

(** ** The HTTP client *)

(** X9.  [validateVoteRequest] accepts a request exactly when its
    contestant id and its session id are not empty; the two "Invalid ..."
    messages are never returned, and the user id is not looked at. *)
Theorem X9_validateVoteRequest_accepts_iff (req : MockDataService.VoteRequest) :
  (Api.validateVoteRequest req = None
   ↔ MockDataService.contestantId req ≠ "" ∧ MockDataService.sessionId req ≠ "")
  ∧ Api.validateVoteRequest req ≠ Some "Invalid contestant ID"
  ∧ Api.validateVoteRequest req ≠ Some "Invalid session ID"
  ∧ Api.validateVoteRequest req
    = Api.validateVoteRequest
        (MockDataService.mkRequest (MockDataService.contestantId req)
           (MockDataService.sessionId req) None).
Proof.
  unfold Api.validateVoteRequest. destruct req as [c s u]. simpl.
  destruct (String.eqb c "") eqn:Hc.
  { apply String.eqb_eq in Hc. split_and!; try done. split; [done|]. by intros []. }
  destruct (String.eqb s "") eqn:Hs.
  { apply String.eqb_eq in Hs. split_and!; try done. split; [done|]. by intros []. }
  apply String.eqb_neq in Hc, Hs.
  destruct c as [|? ?]; [done|]. destruct s as [|? ?]; [done|]. simpl.
  split_and!; done.
Qed.

Section ClientFacts.

Variable Json : Type.
Variable JSON_number : Z → Json.
Variable JSON_string : string → Json.
Variable undefined : Json.
Variable ownProperties : Json → gmap string Json.
Variable T : Type.
Variable env : option string.

Abbreviation convert :=
  (Api.convertToAppError Json JSON_number JSON_string undefined ownProperties).

Lemma caught_recoverable name message :
  Api.recoverable (convert (Api.caught name message))
  = String.eqb name "AbortError".
Proof.
  unfold Api.caught. destruct (String.eqb name "AbortError"); [done|].
  by destruct (Api.includes _ _).
Qed.

(** X10.  An error that an exported function of the client throws is
    flagged recoverable exactly when the request timed out (the rejection
    is an [AbortError]) or the response carries an error status below 500
    other than 0; a network failure, an unreadable body of a successful
    response and a status of 500 or more are not recoverable. *)
Theorem X10_recoverable_iff_timeout_or_client_status
    (fetch : string → Api.RequestInit → Api.Settled (Api.Response Json T))
    endpoint options error :
  Api.converted JSON_number JSON_string undefined ownProperties
    (Api.apiRequest env fetch endpoint options) = inr error →
  Api.recoverable error = true
  ↔ match fetch (Api.API_BASE_URL env +:+ endpoint)
            (Api.mkInit (Api.method options) (Api.body options)
               (("Content-Type", "application/json") :: Api.headers options)) with
    | Api.Fulfilled response =>
        if Api.ok response then
          match Api.json response with
          | Api.RejectedError name _ => name = "AbortError"
          | _ => False
          end
        else Api.responseStatus response < 500
             ∧ Api.responseStatus response ≠ 0
    | Api.RejectedError name _ => name = "AbortError"
    | Api.RejectedOther => False
    end.
Proof.
  unfold Api.converted, Api.apiRequest.
  destruct (fetch _ _) as [response|name message|]; simpl.
  - destruct (Api.ok response) eqn:Hok; simpl.
    + destruct (Api.json response) as [data|name message|]; simpl; [done| |].
      * intros [= <-]. rewrite caught_recoverable. apply String.eqb_eq.
      * by intros [= <-].
    + intros [= <-].
      destruct (Api.errorData response); simpl;
        rewrite andb_true_iff, negb_true_iff, Z.ltb_lt, Z.eqb_neq; done.
  - intros [= <-]. rewrite caught_recoverable. apply String.eqb_eq.
  - by intros [= <-].
Qed.


Section RetryFacts.

Variable apiCall : nat → T + Api.Thrown Json.
Variable jitter : nat → Q.
Variable maxRetries : Z.
Variable baseDelay : Q.

Abbreviation loop := (Api.attempts apiCall jitter maxRetries baseDelay).
Abbreviation backoff := (Api.backoff jitter baseDelay).

(** The loop through [k] failed attempts that are retried. *)
Lemma attempts_retried k remaining attempt lastError slept :
  (∀ j, (attempt ≤ j < attempt + k)%nat →
        Z.of_nat j ≠ maxRetries
        ∧ ∃ e, apiCall j = inr e ∧ Api.clientError e = false) →
  ∃ lastError',
    loop (k + remaining)%nat attempt lastError slept
    = loop remaining (attempt + k)%nat lastError'
        (slept ++ map backoff (seq attempt k)).
Proof.
  revert attempt lastError slept.
  induction k as [|k IH]; intros attempt lastError slept Hfail.
  - exists lastError. simpl. by rewrite Nat.add_0_r, app_nil_r.
  - destruct (Hfail attempt ltac:(lia)) as (Hne & e & He & Hclient).
    destruct (IH (S attempt) (Some e) (slept ++ [backoff attempt])%list)
      as [last Hlast].
    { intros j Hj. apply Hfail. lia. }
    exists last. simpl. rewrite He, Hclient.
    apply Z.eqb_neq in Hne. rewrite Hne, Hlast.
    f_equal; [lia|]. by rewrite <- app_assoc.
Qed.

Lemma withRetry_stops (k : nat) :
  Z.of_nat k ≤ maxRetries →
  (∀ j, (j < k)%nat → ∃ e, apiCall j = inr e ∧ Api.clientError e = false) →
  match apiCall k with
  | inl _ => True
  | inr e => Api.clientError e = true
  end →
  Api.withRetry apiCall jitter maxRetries baseDelay
  = Api.mkRetried
      (match apiCall k with
       | inl data => inl data
       | inr e => inr (Some e)
       end)
      (S k) (map backoff (seq 0 k)).
Proof.
  intros Hk Hfail Hend. unfold Api.withRetry.
  replace (Z.to_nat (maxRetries + 1))
    with (k + S (Z.to_nat (maxRetries - Z.of_nat k)))%nat by lia.
  destruct (attempts_retried k (S (Z.to_nat (maxRetries - Z.of_nat k))) 0%nat None [])
    as [last ->].
  { intros j Hj. split; [lia|]. apply Hfail. lia. }
  simpl. destruct (apiCall k) as [data|e]; [done|]. by rewrite Hend.
Qed.

Lemma withRetry_gives_up :
  (∀ j, Z.of_nat j ≤ maxRetries →
        ∃ e, apiCall j = inr e ∧ Api.clientError e = false) →
  (maxRetries < 0
   ∧ Api.withRetry apiCall jitter maxRetries baseDelay = Api.mkRetried (inr None) 0 [])
  ∨ (0 ≤ maxRetries
     ∧ ∃ e, apiCall (Z.to_nat maxRetries) = inr e
            ∧ Api.withRetry apiCall jitter maxRetries baseDelay
              = Api.mkRetried (inr (Some e)) (S (Z.to_nat maxRetries))
                  (map backoff (seq 0 (Z.to_nat maxRetries)))).
Proof.
  intros Hfail. unfold Api.withRetry.
  destruct (decide (maxRetries < 0)) as [Hneg|Hpos].
  - left. split; [done|]. by replace (Z.to_nat (maxRetries + 1)) with 0%nat by lia.
  - right. split; [lia|].
    destruct (Hfail (Z.to_nat maxRetries) ltac:(lia)) as (e & He & Hclient).
    exists e. split; [done|].
    replace (Z.to_nat (maxRetries + 1)) with (Z.to_nat maxRetries + 1)%nat by lia.
    destruct (attempts_retried (Z.to_nat maxRetries) 1 0%nat None []) as [last ->].
    { intros j Hj. split; [lia|]. apply Hfail. lia. }
    simpl. rewrite He, Hclient.
    replace (Z.of_nat (Z.to_nat maxRetries) =? maxRetries) with true
      by (symmetry; apply Z.eqb_eq; lia).
    done.
Qed.

(** X11.  [withRetry] ends with the first attempt that succeeds or that
    fails with a client error (an [ApiError] with a status from 400 to
    499 other than 408): it gives that result after one call per attempt
    and a sleep after each earlier failure. *)
Theorem X11_withRetry_stops_at_first_success_or_client_error (k : nat) :
  Z.of_nat k ≤ maxRetries →
  (∀ j, (j < k)%nat → ∃ e, apiCall j = inr e ∧ Api.clientError e = false) →
  match apiCall k with
  | inl _ => True
  | inr e => Api.clientError e = true
  end →
  Api.withRetry apiCall jitter maxRetries baseDelay
  = Api.mkRetried
      (match apiCall k with
       | inl data => inl data
       | inr e => inr (Some e)
       end)
      (S k) (map backoff (seq 0 k)).
Proof. apply withRetry_stops. Qed.

(** X12.  When every attempt fails with something other than a client
    error, [withRetry] throws the error of the last attempt after
    [maxRetries + 1] calls and [maxRetries] sleeps, the sleep after
    attempt [j] being [baseDelay * 2^j] plus the jitter; with a negative
    [maxRetries] it makes no call and throws [undefined]. *)
Theorem X12_withRetry_gives_up_after_maxRetries :
  (∀ j, Z.of_nat j ≤ maxRetries →
        ∃ e, apiCall j = inr e ∧ Api.clientError e = false) →
  (maxRetries < 0
   ∧ Api.withRetry apiCall jitter maxRetries baseDelay = Api.mkRetried (inr None) 0 [])
  ∨ (0 ≤ maxRetries
     ∧ ∃ e, apiCall (Z.to_nat maxRetries) = inr e
            ∧ Api.withRetry apiCall jitter maxRetries baseDelay
              = Api.mkRetried (inr (Some e)) (S (Z.to_nat maxRetries))
                  (map backoff (seq 0 (Z.to_nat maxRetries)))).
Proof. apply withRetry_gives_up. Qed.

End RetryFacts.

(** X13.  A client error stops [withRetry] only when [apiCall] throws an
    [ApiError].  Around [apiRequest] itself, a response with a status from
    400 to 499 other than 408 ends the retries after one call; around an
    exported function, which converts the error to an [AppError], the
    same responses are retried until [maxRetries + 1] calls are made. *)
Theorem X13_withRetry_retries_converted_client_errors
    (fetches : nat → string → Api.RequestInit → Api.Settled (Api.Response Json T))
    endpoint options jitter maxRetries baseDelay :
  0 ≤ maxRetries →
  (∀ j, ∃ response,
     fetches j (Api.API_BASE_URL env +:+ endpoint)
       (Api.mkInit (Api.method options) (Api.body options)
          (("Content-Type", "application/json") :: Api.headers options))
     = Api.Fulfilled response
     ∧ 400 ≤ Api.responseStatus response < 500
     ∧ Api.responseStatus response ≠ 408) →
  Api.calls (Api.withRetry (Api.direct env fetches endpoint options)
               jitter maxRetries baseDelay) = 1%nat
  ∧ Api.calls (Api.withRetry
                 (Api.exported JSON_number JSON_string undefined ownProperties
                    env fetches endpoint options)
                 jitter maxRetries baseDelay)
    = S (Z.to_nat maxRetries).
Proof.
  intros Hmax Hresponses.
  assert (∀ j, ∃ e, Api.apiRequest env (fetches j) endpoint options = inr e
                    ∧ 400 ≤ Api.status e < 500 ∧ Api.status e ≠ 408) as Hfail.
  { intros j. destruct (Hresponses j) as (response & Hfetch & Hstatus & Hne).
    unfold Api.apiRequest. rewrite Hfetch.
    replace (Api.ok response) with false
      by (symmetry; unfold Api.ok; apply andb_false_iff; right; lia).
    simpl. destruct (Api.errorData response); eauto. }
  split.
  - rewrite (withRetry_stops
               (Api.direct env fetches endpoint options) jitter maxRetries baseDelay 0).
    + done.
    + lia.
    + intros j Hj. lia.
    + unfold Api.direct. destruct (Hfail 0%nat) as (e & -> & Hs & Hne). simpl.
      apply andb_true_iff. split; [apply andb_true_iff; split; lia|].
      apply negb_true_iff, Z.eqb_neq. done.
  - destruct (withRetry_gives_up
                (Api.exported JSON_number JSON_string undefined ownProperties
                   env fetches endpoint options) jitter maxRetries baseDelay)
      as [[? _]|(_ & e & _ & ->)]; [|lia|done].
    intros j _. unfold Api.exported, Api.converted.
    destruct (Hfail j) as (e & -> & _). eauto.
Qed.


Lemma slice_next (l : list (T + Api.Thrown Json)) i concurrency :
  0 ≤ i < Z.of_nat (length l) → 1 ≤ concurrency →
  (take (Z.to_nat i) l ++ Api.Array_slice i (i + concurrency) l)%list
  = take (Z.to_nat (i + concurrency)) l.
Proof.
  intros Hi Hc. unfold Api.Array_slice, Api.relative.
  replace (i <? 0) with false by (symmetry; apply Z.ltb_ge; lia).
  replace (i + concurrency <? 0) with false by (symmetry; apply Z.ltb_ge; lia).
  replace (Z.min i (Z.of_nat (length l))) with i by lia.
  rewrite take_take_drop.
  destruct (decide (i + concurrency ≤ Z.of_nat (length l))) as [Hle|Hgt].
  - f_equal. lia.
  - rewrite !take_ge by lia. done.
Qed.

Lemma batches_complete fuel i concurrency (requests : list (T + Api.Thrown Json)) :
  1 ≤ concurrency → 0 ≤ i →
  (Z.to_nat (Z.of_nat (length requests) - i) < fuel)%nat →
  Api.batches fuel i concurrency requests (take (Z.to_nat i) requests)
  = Some requests.
Proof.
  intros Hc. revert i. induction fuel as [|fuel IH]; intros i Hi Hfuel; [lia|].
  simpl. destruct (i <? Z.of_nat (length requests)) eqn:Hlt.
  - apply Z.ltb_lt in Hlt. unfold Api.capture. rewrite map_id.
    rewrite slice_next by lia. apply IH; lia.
  - apply Z.ltb_ge in Hlt. rewrite take_ge by lia. done.
Qed.

(** X14.  With a concurrency of at least one, [batchRequests] returns,
    for every list of requests, the outcome of each request at the
    position of the request: values and caught errors alike, none
    dropped, reordered or thrown. *)
Theorem X14_batchRequests_keeps_order
    (requests : list (T + Api.Thrown Json)) concurrency fuel :
  1 ≤ concurrency → (length requests < fuel)%nat →
  Api.batchRequests fuel requests concurrency = Some requests.
Proof.
  intros Hc Hfuel. unfold Api.batchRequests.
  apply (batches_complete fuel 0 concurrency requests); lia.
Qed.

Lemma batches_stuck fuel i concurrency
    (requests results : list (T + Api.Thrown Json)) :
  concurrency ≤ 0 → i ≤ 0 → requests ≠ [] →
  Api.batches fuel i concurrency requests results = None.
Proof.
  intros Hc Hi Hne. revert i results Hi.
  induction fuel as [|fuel IH]; intros i results Hi; [done|].
  simpl. replace (i <? Z.of_nat (length requests)) with true.
  - apply IH. lia.
  - symmetry. apply Z.ltb_lt. destruct requests; [done|]. simpl. lia.
Qed.

(** X15.  With a concurrency of zero or less and at least one request,
    the loop of [batchRequests] never ends: its index does not advance
    past the first request, whatever the number of iterations allowed. *)
Theorem X15_batchRequests_needs_positive_concurrency
    (requests : list (T + Api.Thrown Json)) concurrency fuel :
  concurrency ≤ 0 → requests ≠ [] →
  Api.batchRequests fuel requests concurrency = None.
Proof.
  intros Hc Hne. unfold Api.batchRequests. by apply batches_stuck.
Qed.

End ClientFacts.

(** X10 on a response with status 404. *)
Lemma X10_witness :
  ∃ error,
    Api.fetchContestants string (pretty : Z → string) id "undefined" (λ _, ∅) unit None
      Scenario.notFound = inr error
    ∧ (Api.recoverable error = true ↔ 404 < 500 ∧ 404 ≠ 0).
Proof.
  eexists. split; [reflexivity|].
  exact (X10_recoverable_iff_timeout_or_client_status string (pretty : Z → string) id
           "undefined" (λ _, ∅) unit None Scenario.notFound "/contestants"
           (Api.mkInit None None []) _ eq_refl).
Defined.

(** X11 on a call that fails twice and then succeeds. *)
Lemma X11_witness :
  Api.result (Api.withRetry Scenario.flaky (λ _, 0.5%Q) 3 1000%Q) = inl 7
  ∧ Api.calls (Api.withRetry Scenario.flaky (λ _, 0.5%Q) 3 1000%Q) = 3%nat
  ∧ Forall2 Qeq (Api.delays (Api.withRetry Scenario.flaky (λ _, 0.5%Q) 3 1000%Q))
      [1500%Q; 2500%Q].
Proof.
  rewrite (X11_withRetry_stops_at_first_success_or_client_error string Z
             Scenario.flaky (λ _, 0.5%Q) 3 1000%Q 2).
  - split; [reflexivity|]. split; [reflexivity|].
    repeat constructor.
  - simpl. lia.
  - intros j Hj. exists Api.ThrownOther.
    destruct j as [|[|j]]; [done..|lia].
  - exact I.
Defined.

(** X12 on a call that always fails, with two retries. *)
Lemma X12_witness :
  Api.calls (Api.withRetry Scenario.failing (λ _, 0.5%Q) 2 1000%Q) = 3%nat
  ∧ length (Api.delays (Api.withRetry Scenario.failing (λ _, 0.5%Q) 2 1000%Q))
    = 2%nat.
Proof.
  destruct (X12_withRetry_gives_up_after_maxRetries string Z Scenario.failing
              (λ _, 0.5%Q) 2 1000%Q) as [[Hneg _]|(_ & e & _ & ->)].
  - intros j _. by exists Api.ThrownOther.
  - lia.
  - split; reflexivity.
Defined.

(** X13 on a server that answers 404: one call around [apiRequest], four
    around an exported function with three retries. *)
Lemma X13_witness :
  Api.calls (Api.withRetry
               (Api.direct None (λ _, Scenario.notFound) "/contestants"
                  (Api.mkInit None None []))
               (λ _, 0.5%Q) 3 1000%Q) = 1%nat
  ∧ Api.calls (Api.withRetry
                 (Api.exported (pretty : Z → string) id "undefined" (λ _, ∅) None
                    (λ _, Scenario.notFound) "/contestants"
                    (Api.mkInit None None []))
                 (λ _, 0.5%Q) 3 1000%Q)
    = 4%nat.
Proof.
  apply (X13_withRetry_retries_converted_client_errors string (pretty : Z → string) id
           "undefined" (λ _, ∅) unit None (λ _, Scenario.notFound)
           "/contestants" (Api.mkInit None None []) (λ _, 0.5%Q) 3 1000%Q).
  - lia.
  - intros j. eexists. split; [reflexivity|]. simpl. lia.
Defined.

(** X14 on three requests, the second of which fails, two at a time. *)
Lemma X14_witness :
  Api.batchRequests 4 Scenario.outcomes 2 = Some Scenario.outcomes.
Proof.
  apply (X14_batchRequests_keeps_order string Z Scenario.outcomes 2 4).
  - lia.
  - simpl. lia.
Defined.

(** X15 on the same requests with a concurrency of zero. *)
Lemma X15_witness :
  Api.batchRequests 1000 Scenario.outcomes 0 = None.
Proof.
  apply (X15_batchRequests_needs_positive_concurrency string Z
           Scenario.outcomes 0 1000).
  - lia.
  - discriminate.
Defined.

(** ** The screen-size hook *)

Section ResponsiveFacts.

Import Responsive.

Lemma step_consistent e s :
  screenSize s = calculateScreenSize (width s) →
  screenSize (step e s) = calculateScreenSize (width (step e s)).
Proof.
  intros Hs. destruct e; simpl.
  - unfold mount, updateDimensions.
    destruct (window s) eqn:Hw; simpl; rewrite ?Hw; done.
  - unfold resize, handleResize. destruct (window s); simpl; [|done].
    by destruct (listening s).
  - unfold tick, updateDimensions. destruct (timeoutId s); simpl; [|done].
    destruct (_ <=? _)%nat; simpl; [|done]. by destruct (window s).
  - done.
Qed.

Lemma step_without_window e s :
  window s = None → listening s = false →
  cells (step e s) = cells s ∧ window (step e s) = None
  ∧ listening (step e s) = false.
Proof.
  intros Hw Hl. destruct e; simpl.
  - unfold mount, updateDimensions. by rewrite Hw, Hw.
  - unfold resize. by rewrite Hw.
  - unfold tick, updateDimensions. destruct (timeoutId s); simpl; [|done].
    destruct (_ <=? _)%nat; simpl; [|done]. by rewrite Hw.
  - done.
Qed.

(** X16.  In every state the hook reaches from its first render, the
    screen size is the one [calculateScreenSize] gives for the width the
    hook reports, so exactly the flag of that size is set; where there is
    no window the hook keeps reporting a mobile screen of width and height
    zero. *)
Theorem X16_screen_size_follows_width (window : option Window) events :
  let s := run events (initial window) in
  screenSize s = calculateScreenSize (width s)
  ∧ isDesktop (useResponsive s) = (1024 <=? width s)
  ∧ isTablet (useResponsive s) = (768 <=? width s) && (width s <? 1024)
  ∧ isMobile (useResponsive s) = (width s <? 768)
  ∧ (window = None → cells s = (mobile, 0, 0)).
Proof.
  simpl.
  assert (screenSize (run events (initial window))
          = calculateScreenSize (width (run events (initial window)))) as Hs.
  { generalize (initial window), (eq_refl : screenSize (initial window)
                                   = calculateScreenSize (width (initial window))).
    induction events as [|e events IH]; intros s Hs; [done|].
    simpl. by apply IH, step_consistent. }
  split_and!; [done|..].
  1-3: unfold useResponsive; simpl; rewrite Hs;
       unfold calculateScreenSize, BREAKPOINTS.desktop, BREAKPOINTS.tablet;
       generalize (width (run events (initial window))); intros w;
       destruct (Z.leb_spec 1024 w), (Z.leb_spec 768 w), (Z.ltb_spec w 1024),
         (Z.ltb_spec w 768); simpl; try done; lia.
  - intros ->.
    enough (∀ s, Responsive.window s = None → listening s = false →
                 cells (run events s) = cells s) as H
      by (by apply (H (initial None))).
    clear Hs. induction events as [|e events IH]; intros s Hw Hl; [done|].
    change (run (e :: events) s) with (run events (step e s)).
    destruct (step_without_window e s Hw Hl) as (<- & ? & ?). by apply IH.
Qed.


Lemma advance_add a b s : advance (a + b) s = advance a (advance b s).
Proof. apply Nat.iter_add. Qed.

Lemma advance_idle t s : timeoutId s = None → advance t s = s.
Proof.
  intros Hs. induction t as [|t IH]; [done|].
  simpl. fold (advance t s). rewrite IH. unfold tick. by rewrite Hs.
Qed.

Lemma advance_pending t c w h win l r :
  (t < r)%nat →
  advance t (mkState c w h win l (Some r)) = mkState c w h win l (Some (r - t)%nat).
Proof.
  induction t as [|t IH]; intros Ht.
  - simpl. by rewrite Nat.sub_0_r.
  - simpl. fold (advance t (mkState c w h win l (Some r))). rewrite IH by lia.
    unfold tick. simpl.
    replace (r - t <=? 1)%nat with false by (symmetry; apply Nat.leb_gt; lia).
    do 2 f_equal. lia.
Qed.

Lemma advance_fires t c w h win r :
  (0 < r ≤ t)%nat →
  advance t (mkState c w h (Some win) true (Some r))
  = mkState (calculateScreenSize (innerWidth win)) (innerWidth win)
            (innerHeight win) (Some win) true None.
Proof.
  intros Ht. replace t with ((t - r) + (1 + (r - 1)))%nat by lia.
  rewrite !advance_add, advance_pending by lia.
  replace (r - (r - 1))%nat with 1%nat by lia.
  by rewrite advance_idle.
Qed.

Lemma burst_cons gap win resizes s :
  burst ((gap, win) :: resizes) s
  = burst resizes (resize (innerWidth win) (innerHeight win) (advance gap s)).
Proof. done. Qed.

Lemma burst_pending resizes c w h win t0 s :
  s = mkState c w h (Some win) true t0 →
  (t0 = None ∨ t0 = Some 100%nat) →
  Forall (λ r, (fst r < 100)%nat) resizes →
  burst resizes s
  = mkState c w h (Some (default win (snd <$> last resizes))) true
            (if resizes is [] then t0 else Some 100%nat).
Proof.
  revert win t0 s. induction resizes as [|[gap win'] resizes IH];
    intros win t0 s -> Ht0 Hgaps; [done|].
  inversion Hgaps as [|? ? Hgap Hrest]; subst. simpl in Hgap.
  rewrite burst_cons.
  assert (resize (innerWidth win') (innerHeight win')
            (advance gap (mkState c w h (Some win) true t0))
          = mkState c w h (Some win') true (Some 100%nat)) as ->.
  { destruct Ht0 as [->| ->].
    - rewrite advance_idle by done. by destruct win'.
    - rewrite advance_pending by done. by destruct win'. }
  rewrite (IH win' (Some 100%nat) _ eq_refl) by (done || by right).
  f_equal; [|by destruct resizes].
  destruct resizes as [|r resizes]; [done|].
  rewrite last_cons_cons.
  destruct (last (r :: resizes)) eqn:Hlast; [done|]. by apply last_None in Hlast.
Qed.

(** X17.  Resizes that follow each other by less than 100 milliseconds
    are debounced: from a listening hook with nothing pending, the cells
    keep their values throughout the burst and for the 100 milliseconds
    after its last resize, and from then on they hold the dimensions of
    that last resize and the screen size of its width. *)
Theorem X17_resizes_are_debounced s win resizes gap last :
  window s = Some win → listening s = true → timeoutId s = None →
  Forall (λ r, (fst r < 100)%nat) (resizes ++ [(gap, last)]) →
  let s1 := burst (resizes ++ [(gap, last)]) s in
  (∀ t, (t < 100)%nat → cells (advance t s1) = cells s)
  ∧ (∀ t, (100 ≤ t)%nat →
       cells (advance t s1)
       = (calculateScreenSize (innerWidth last), innerWidth last, innerHeight last)).
Proof.
  intros Hw Hl Ht Hgaps s1.
  assert (s1 = mkState (screenSize s) (width s) (height s) (Some last) true
                       (Some 100%nat)) as ->.
  { unfold s1. rewrite (burst_pending _ (screenSize s) (width s) (height s) win None);
      [|destruct s; simpl in *; congruence|by left|done].
    rewrite last_snoc. simpl. by destruct resizes. }
  split; intros t Ht'.
  - by rewrite advance_pending.
  - by rewrite advance_fires by lia.
Qed.

End ResponsiveFacts.

(** X17 on a window dragged from 1280 to 500 pixels: the hook still
    reports the desktop screen 99 ms after the last resize, and the
    mobile screen from 100 ms on. *)
Lemma X17_witness :
  Responsive.cells
    (Responsive.advance 99 (Responsive.burst Scenario.dragged Scenario.wide))
  = (Responsive.desktop, 1280, 800)
  ∧ Responsive.cells
      (Responsive.advance 100 (Responsive.burst Scenario.dragged Scenario.wide))
    = (Responsive.mobile, 500, 400).
Proof.
  destruct (X17_resizes_are_debounced Scenario.wide
              (Responsive.mkWindow 1280 800)
              [(0%nat, Responsive.mkWindow 1000 700);
               (50%nat, Responsive.mkWindow 800 600)]
              99 (Responsive.mkWindow 500 400)) as [Hbefore Hafter].
  - reflexivity.
  - reflexivity.
  - reflexivity.
  - repeat constructor; simpl; lia.
  - split; [apply (Hbefore 99%nat); lia|apply (Hafter 100%nat); lia].
Defined.

(** ** The vote button *)

(** X18.  The vote button of a card is enabled exactly at the renders at
    which [handleVote] goes on to call [addVote]: an enabled button never
    ignores a click, and a click that gets past a disabled button does
    nothing.  The enabled button is the one labelled "Vote". *)
Theorem X18_vote_button_enabled_iff_handler_votes
    (render : ContestantCard.Render) (cell : bool) :
  snd (ContestantCard.handleVote_call render cell)
  = negb (ContestantCard.disabled (ContestantCard.getButtonState render))
  ∧ (ContestantCard.disabled (ContestantCard.getButtonState render) = false
     ↔ ContestantCard.text (ContestantCard.getButtonState render) = "Vote")
  ∧ (ContestantCard.disabled (ContestantCard.getButtonState render) = true
     → ContestantCard.handleVote_call render cell = (cell, false)).
Proof.
  destruct render as [[] [] [] []]; vm_compute; split_and!; try done;
    split; done.
Qed.

(** ** The first render of the provider *)

Section StartupFacts.

Import VotingProvider.

(** The entries left when the keys of [keys] that start with
    ["voting-state-"] are removed one after the other. *)
Lemma forEach_removes keys (b : Browser) :
  LocalStorage.blocked (localStorage b) = false →
  ∃ items',
    forEach keys
      (λ key, Js.when (String.prefix "voting-state-" key)
                (onLocal (LocalStorage.removeItem key))) b
    = (Js.Normal tt,
       mkBrowser (sessionStorage b)
         (LocalStorage.withItems items' (localStorage b)))
    ∧ ∀ k, items' !! k
           = if bool_decide (k ∈ keys) && String.prefix "voting-state-" k
             then None else LocalStorage.items (localStorage b) !! k.
Proof.
  revert b. induction keys as [|key keys IH]; intros b Hb.
  - exists (LocalStorage.items (localStorage b)). split.
    + simpl. by destruct b as [? []].
    + intros k. by rewrite bool_decide_eq_false_2 by apply not_elem_of_nil.
  - simpl. unfold Js.bind, Js.when.
    destruct (String.prefix "voting-state-" key) eqn:Hkey.
    + unfold onLocal at 1. unfold Js.zoom, LocalStorage.removeItem. rewrite Hb.
      destruct (IH (mkBrowser (sessionStorage b)
                      (LocalStorage.withItems
                         (delete key (LocalStorage.items (localStorage b)))
                         (localStorage b)))) as (items' & Hrun & Hitems); [done|].
      exists items'. split; [exact Hrun|]. intros k. rewrite Hitems. simpl.
      destruct (decide (k = key)) as [->|Hne].
      * rewrite (bool_decide_eq_true_2 (key ∈ key :: keys)) by apply list_elem_of_here.
        rewrite Hkey. simpl. rewrite lookup_delete_eq. by destruct (_ && _).
      * rewrite lookup_delete_ne by done.
        replace (bool_decide (k ∈ key :: keys)) with (bool_decide (k ∈ keys)); [done|].
        apply bool_decide_ext. rewrite elem_of_cons.
        split; [by right|by intros [?|?]].
    + unfold Js.ret. destruct (IH b Hb) as (items' & Hrun & Hitems).
      exists items'. split; [exact Hrun|]. intros k. rewrite Hitems.
      destruct (decide (k = key)) as [->|Hne].
      * rewrite Hkey, !andb_false_r. done.
      * replace (bool_decide (k ∈ key :: keys)) with (bool_decide (k ∈ keys)); [done|].
        apply bool_decide_ext. rewrite elem_of_cons.
        split; [by right|by intros [?|?]].
Qed.

(** X20.  When the provider renders with the flag
    ["voting-reset-in-progress"] set to ["true"] in session storage, it
    removes the flag and every entry of local storage whose key starts
    with ["voting-state-"], leaves every other entry as it is, and takes
    itself to be resetting; with the flag absent or different it changes
    neither storage. *)
Theorem X20_reset_flag_clears_the_vote_keys (b : Browser) :
  LocalStorage.blocked (sessionStorage b) = false →
  LocalStorage.blocked (localStorage b) = false →
  (LocalStorage.items (sessionStorage b) !! "voting-reset-in-progress" = Some "true" →
   detectReset true b
   = (Js.Normal true,
      mkBrowser
        (LocalStorage.withItems
           (delete "voting-reset-in-progress" (LocalStorage.items (sessionStorage b)))
           (sessionStorage b))
        (LocalStorage.withItems
           (filter (λ entry, String.prefix "voting-state-" (fst entry) = false)
                   (LocalStorage.items (localStorage b)))
           (localStorage b))))
  ∧ (LocalStorage.items (sessionStorage b) !! "voting-reset-in-progress" ≠ Some "true" →
     detectReset true b = (Js.Normal false, b)).
Proof.
  intros Hs Hl. unfold detectReset, onSession, LocalStorage.getItem. run_js.
  rewrite Hs. simpl. split.
  - intros Hflag. rewrite Hflag. rewrite bool_decide_eq_true_2 by done.
    unfold LocalStorage.removeItem. simpl. rewrite Hs. simpl.
    unfold onLocal at 1. unfold Js.zoom, Object_keys. simpl. rewrite Hl.
    destruct (forEach_removes (LocalStorage.keys (localStorage b))
                (mkBrowser
                   (LocalStorage.withItems
                      (delete "voting-reset-in-progress"
                         (LocalStorage.items (sessionStorage b)))
                      (sessionStorage b))
                   (localStorage b))) as (items' & Hrun & Hitems); [done|].
    simpl in Hrun, Hitems.
    match goal with
    | |- context [forEach ?ks ?f ?b0] =>
        replace (forEach ks f b0) with
          (Js.Normal tt,
           mkBrowser
             (LocalStorage.withItems
                (delete "voting-reset-in-progress"
                   (LocalStorage.items (sessionStorage b)))
                (sessionStorage b))
             (LocalStorage.withItems items' (localStorage b)))
          by (symmetry; exact Hrun)
    end.
    simpl. do 4 f_equal.
    apply map_eq. intros k. rewrite Hitems.
    destruct (String.prefix "voting-state-" k) eqn:Hk.
    + rewrite andb_true_r.
      destruct (bool_decide_reflect (k ∈ LocalStorage.keys (localStorage b)))
        as [Hin|Hout].
      * symmetry. apply map_lookup_filter_None. right. intros x _. simpl. congruence.
      * unfold LocalStorage.keys in Hout. rewrite elem_of_elements, elem_of_dom in Hout.
        apply eq_None_not_Some in Hout. rewrite Hout. symmetry.
        apply map_lookup_filter_None. by left.
    + rewrite andb_false_r.
      destruct (LocalStorage.items (localStorage b) !! k) as [v|] eqn:Hv.
      * symmetry. by apply map_lookup_filter_Some.
      * symmetry. apply map_lookup_filter_None. by left.
  - intros Hflag. rewrite bool_decide_eq_false_2 by done. by destruct b.
Qed.

End StartupFacts.

(** X20 on a browser that holds the flag, the votes of a session and a
    setting: the setting is all that is left in local storage. *)
Lemma X20_witness :
  fst (VotingProvider.detectReset true Scenario.resetting) = Js.Normal true
  ∧ LocalStorage.items
      (VotingProvider.localStorage
         (snd (VotingProvider.detectReset true Scenario.resetting)))
    = {["theme" := "dark"]}
  ∧ LocalStorage.items
      (VotingProvider.sessionStorage
         (snd (VotingProvider.detectReset true Scenario.resetting)))
    = ∅.
Proof.
  destruct (X20_reset_flag_clears_the_vote_keys Scenario.resetting
              eq_refl eq_refl) as [Hflag _].
  rewrite Hflag by reflexivity.
  split; [reflexivity|]. split; vm_compute; reflexivity.
Defined.

(** ** Sorting of strings *)

Lemma string_leb_trans (a b c : string) :
  String.leb a b = true → String.leb b c = true → String.leb a c = true.
Proof.
  unfold String.leb. revert b c.
  induction a as [|x a IH]; intros [|y b] [|z c]; simpl; try done.
  unfold Ascii.compare.
  destruct (N.compare_spec (Ascii.N_of_ascii x) (Ascii.N_of_ascii y)) as [Hxy|Hxy|Hxy];
    [|    |done];
  (destruct (N.compare_spec (Ascii.N_of_ascii y) (Ascii.N_of_ascii z)) as [Hyz|Hyz|Hyz];
    [|    |done]).
  - rewrite Hxy, Hyz, N.compare_refl. apply IH.
  - rewrite Hxy. intros _ _. by apply N.compare_lt_iff in Hyz as ->.
  - rewrite <- Hyz. intros _ _. by apply N.compare_lt_iff in Hxy as ->.
  - intros _ _.
    assert (Ascii.N_of_ascii x < Ascii.N_of_ascii z)%N as Hxz by lia.
    by apply N.compare_lt_iff in Hxz as ->.
Qed.

#[local] Instance strLe_transitive : Transitive strLe.
Proof. intros a b c. apply string_leb_trans. Qed.

#[local] Instance strLe_total : Total strLe.
Proof. intros a b. apply String.leb_total. Qed.

#[local] Instance strLe_antisymm : AntiSymm (=) strLe.
Proof. intros a b. apply String.leb_antisym. Qed.

(** Sorting a sorted array changes nothing. *)
Lemma Array_sort_idempotent (l : list string) :
  Array_sort (Array_sort l) = Array_sort l.
Proof.
  unfold Array_sort.
  apply (Sorted_unique strLe); try apply Sorted_merge_sort; try apply _.
  apply merge_sort_Permutation.
Qed.

Lemma everyEqualAt_eq (xs ys : list string) :
  length xs = length ys → everyEqualAt xs ys = true → xs = ys.
Proof.
  revert ys. induction xs as [|x xs IH]; intros [|y ys]; simpl; try done.
  intros [= Hlen] [Hxy Hrest]%andb_true_iff.
  apply String.eqb_eq in Hxy. f_equal; [done|by apply IH].
Qed.

Lemma everyEqualAt_refl (xs : list string) : everyEqualAt xs xs = true.
Proof. induction xs as [|x xs IH]; simpl; [done|]. by rewrite String.eqb_refl. Qed.

Lemma differs_false total ids otherTotal otherIds :
  differs total ids otherTotal otherIds = false
  ↔ total = otherTotal ∧ ids = otherIds.
Proof.
  unfold differs. rewrite !orb_false_iff, !negb_false_iff.
  rewrite Z.eqb_eq, Nat.eqb_eq. split.
  - intros [[-> Hlen] Hall]. split; [done|]. by apply everyEqualAt_eq.
  - intros [-> ->]. split_and!; [done|done|apply everyEqualAt_refl].
Qed.

(** ** The storage effects of the provider *)

Section EffectFacts.

Import Store VotingProvider.

Variable loadTime : Z.
Variable Date_toISOString : Z → string.
Variable Date_parse : string → Z.
Variable JSON_stringify : Stored → string.
Variable hasWindow : bool.

(** The stored value agrees with the vote state: the same total, and the
    sorted ids of the voted contestants. *)
Lemma synced_after_persist (p : t) :
  UserVoteState.sessionId (VotingState.userVoteState (state p)) ≠ "" →
  let p1 := snd (persistEffect Date_toISOString JSON_stringify hasWindow p p) in
  state p1 = state p
  ∧ SerializableUserVoteState.totalVotes (storedVoteState p1)
    = UserVoteState.totalVotes (VotingState.userVoteState (state p))
  ∧ SerializableUserVoteState.votedContestants (storedVoteState p1)
    = Array_sort (elements (UserVoteState.votedContestants
                              (VotingState.userVoteState (state p)))).
Proof.
  intros Hid. unfold persistEffect.
  apply String.eqb_neq in Hid. rewrite Hid. simpl. run_js.
  destruct (differs _ _ _ _) eqn:Hdiff; simpl.
  - unfold storedVoteState. simpl.
    rewrite setStoredValue_returns. simpl.
    rewrite setStoredValue_value. done.
  - apply differs_false in Hdiff as [Htotal Hids]. simpl in *.
    unfold storedVoteState in *. simpl. done.
Qed.

Lemma sortIds_sorted (v : Stored) :
  Array_sort (SerializableUserVoteState.votedContestants v)
  = SerializableUserVoteState.votedContestants v →
  sortIds v = v.
Proof. intros Hv. unfold sortIds. rewrite Hv. by destruct v. Qed.

Lemma sortStoredInPlace_sorted (p : t) :
  Array_sort (SerializableUserVoteState.votedContestants (storedVoteState p))
  = SerializableUserVoteState.votedContestants (storedVoteState p) →
  sortStoredInPlace sortIds p = p.
Proof.
  intros Hv. unfold sortStoredInPlace. rewrite sortIds_sorted by done.
  by destruct p as [? [[] ?]].
Qed.

Lemma synced_effects_rest now (p : t) :
  SerializableUserVoteState.totalVotes (storedVoteState p)
  = UserVoteState.totalVotes (VotingState.userVoteState (state p)) →
  SerializableUserVoteState.votedContestants (storedVoteState p)
  = Array_sort (elements (UserVoteState.votedContestants
                            (VotingState.userVoteState (state p)))) →
  restoreEffect loadTime Date_parse false now p = p
  ∧ persistEffect Date_toISOString JSON_stringify hasWindow p p = (Js.Normal tt, p).
Proof.
  intros Htotal Hids.
  assert (sortStoredInPlace sortIds p = p) as Hsorted.
  { apply sortStoredInPlace_sorted. by rewrite Hids, Array_sort_idempotent. }
  split.
  - unfold restoreEffect. destruct (_ && _ && _) eqn:Hguard; [|done].
    rewrite Hsorted. unfold restore, restoreApplies.
    replace (differs _ _ _ _) with false; [by rewrite andb_false_r; destruct p|].
    symmetry. apply differs_false. by rewrite Htotal, Hids, Array_sort_idempotent.
  - unfold persistEffect. destruct (negb _); [|done]. run_js.
    rewrite Hsorted.
    replace (differs _ _ _ _) with false; [done|].
    symmetry. apply differs_false. simpl.
    by rewrite Htotal, Hids, Array_sort_idempotent.
Qed.

Lemma sortStoredInPlace_idempotent (p : t) :
  sortStoredInPlace sortIds (sortStoredInPlace sortIds p)
  = sortStoredInPlace sortIds p.
Proof.
  unfold sortStoredInPlace, sortIds. simpl. by rewrite Array_sort_idempotent.
Qed.

Lemma persistEffect_sorted (p : t) :
  UserVoteState.sessionId (VotingState.userVoteState (state p)) ≠ "" →
  persistEffect Date_toISOString JSON_stringify hasWindow p
    (sortStoredInPlace sortIds p)
  = persistEffect Date_toISOString JSON_stringify hasWindow p p.
Proof.
  intros Hid. apply String.eqb_neq in Hid.
  unfold persistEffect. rewrite Hid. simpl.
  run_js. by rewrite sortStoredInPlace_idempotent.
Qed.

(** The serialization effect after a restore effect that dispatched
    nothing does what it does on the render itself: the restore effect
    has at most sorted the stored array, which the serialization effect
    sorts as well. *)
Lemma persistEffect_after_restore now (p : t) :
  UserVoteState.sessionId (VotingState.userVoteState (state p)) ≠ "" →
  restoreApplies false (storedVoteState p) (state p) = false →
  persistEffect Date_toISOString JSON_stringify hasWindow p
    (restoreEffect loadTime Date_parse false now p)
  = persistEffect Date_toISOString JSON_stringify hasWindow p p.
Proof.
  intros Hid Hno. unfold restoreEffect.
  destruct (_ && _ && _) eqn:Hguard; [|done].
  unfold restore. rewrite Hno.
  replace (mk (state p) (storage (sortStoredInPlace sortIds p)))
    with (sortStoredInPlace sortIds p) by done.
  by apply persistEffect_sorted.
Qed.

Lemma commit_without_restore now (c : Committed) :
  UserVoteState.sessionId (VotingState.userVoteState (state (provider c))) ≠ "" →
  restores c = false →
  commit loadTime Date_toISOString Date_parse JSON_stringify hasWindow now c
  = mkCommitted
      (snd (persistEffect Date_toISOString JSON_stringify hasWindow
              (provider c) (provider c)))
      (Some (restoreDeps (provider c))).
Proof.
  intros Hid Hno. unfold commit. unfold restores in Hno.
  destruct (restoreDue c); [|done]. simpl in Hno.
  by rewrite persistEffect_after_restore.
Qed.

(** X21.  At a commit both storage effects read the same render.  When
    the restore effect dispatches nothing at the commit of a vote state
    with a session id (it is not due, or its guard or its comparison
    fails), the commit keeps the vote state and leaves the stored value
    equal to it: the same total and the sorted ids.  The commit after
    that changes neither the state nor the adapter, and from then on a
    commit changes nothing at all. *)
Theorem X21_storage_effects_settle now now' now'' (c : Committed) :
  UserVoteState.sessionId (VotingState.userVoteState (state (provider c))) ≠ "" →
  restores c = false →
  let c1 := commit loadTime Date_toISOString Date_parse JSON_stringify
              hasWindow now c in
  let c2 := commit loadTime Date_toISOString Date_parse JSON_stringify
              hasWindow now' c1 in
  state (provider c1) = state (provider c)
  ∧ SerializableUserVoteState.totalVotes (storedVoteState (provider c1))
    = UserVoteState.totalVotes (VotingState.userVoteState (state (provider c)))
  ∧ SerializableUserVoteState.votedContestants (storedVoteState (provider c1))
    = Array_sort (elements (UserVoteState.votedContestants
                              (VotingState.userVoteState (state (provider c)))))
  ∧ provider c2 = provider c1
  ∧ commit loadTime Date_toISOString Date_parse JSON_stringify hasWindow
      now'' c2 = c2.
Proof.
  intros Hid Hno c1 c2.
  assert (c1 = mkCommitted
                 (snd (persistEffect Date_toISOString JSON_stringify hasWindow
                         (provider c) (provider c)))
                 (Some (restoreDeps (provider c)))) as Hc1
    by by apply commit_without_restore.
  destruct (synced_after_persist (provider c) Hid) as (Hstate & Htotal & Hids).
  set (p1 := snd (persistEffect Date_toISOString JSON_stringify hasWindow
                    (provider c) (provider c))) in *.
  assert (provider c1 = p1) as Hp1 by by rewrite Hc1.
  rewrite Hp1. split; [done|]. split; [done|]. split; [done|].
  rewrite <- Hstate in Htotal, Hids.
  assert (∀ t last,
            commit loadTime Date_toISOString Date_parse JSON_stringify
              hasWindow t (mkCommitted p1 last)
            = mkCommitted p1 (Some (restoreDeps p1))) as Hrest.
  { intros t last. unfold commit. simpl.
    destruct (synced_effects_rest t p1 Htotal Hids) as [Hr Hp].
    destruct (restoreDue _); by rewrite ?Hr, Hp. }
  assert (c2 = mkCommitted p1 (Some (restoreDeps p1))) as ->.
  { unfold c2. rewrite Hc1. apply Hrest. }
  split; [done|]. apply Hrest.
Qed.

End EffectFacts.

(** X21 on the sample provider when a vote for ["y"] has been added: the
    restore effect is not due, the commit writes the two votes, and the
    provider rests. *)
Lemma X21_witness :
  let voted :=
    VotingProvider.mkCommitted
      (VotingProvider.dispatch 0 60 (Store.ADD_VOTE "y") Sample.provider)
      (Some (VotingProvider.restoreDeps Sample.provider)) in
  let c1 := VotingProvider.commit 0 (λ _, "2024-01-01T10:01:00.000Z") (λ _, 60)
              Sample.stringify true 61 voted in
  SerializableUserVoteState.votedContestants
    (VotingProvider.storedVoteState (VotingProvider.provider c1)) = ["x"; "y"]
  ∧ VotingProvider.provider
      (VotingProvider.commit 0 (λ _, "2024-01-01T10:01:00.000Z") (λ _, 60)
         Sample.stringify true 62 c1)
    = VotingProvider.provider c1.
Proof.
  destruct (X21_storage_effects_settle 0 (λ _, "2024-01-01T10:01:00.000Z")
              (λ _, 60) Sample.stringify true 61 62 63
              (VotingProvider.mkCommitted
                 (VotingProvider.dispatch 0 60 (Store.ADD_VOTE "y")
                    Sample.provider)
                 (Some (VotingProvider.restoreDeps Sample.provider))))
    as (_ & _ & Hids & Hrest & _).
  - discriminate.
  - vm_compute. reflexivity.
  - split; [|exact Hrest]. rewrite Hids. vm_compute. reflexivity.
Defined.

(** When the restore effect does dispatch, the serialization effect of
    the same commit writes the vote state the render had.  A provider
    mounted over stored votes settles all the same, since what it writes
    first has a total of zero and is not restored: after three commits the
    state and the stored value hold the stored votes. *)
Example mount_over_stored_votes_settles :
  let commit := VotingProvider.commit 0 (λ _, "2024-01-01T10:00:00.000Z")
                  (λ _, 7) Sample.stringify true in
  let mounted :=
    VotingProvider.mkCommitted
      (VotingProvider.mk (Store.state Sample.mounted)
         (UseLocalStorage.mkWorld
            (UseLocalStorage.mkState Sample.storedX None true true)
            Sample.votedStorage))
      None in
  let c1 := commit 6 mounted in
  let c2 := commit 7 c1 in
  let c3 := commit 8 c2 in
  let votes c := UserVoteState.votedContestants
                   (Store.VotingState.userVoteState
                      (VotingProvider.state (VotingProvider.provider c))) in
  let stored c := SerializableUserVoteState.votedContestants
                    (VotingProvider.storedVoteState (VotingProvider.provider c)) in
  (votes c1 = {["x"]} ∧ stored c1 = [])
  ∧ (votes c2 = {["x"]} ∧ stored c2 = ["x"])
  ∧ VotingProvider.provider c3 = VotingProvider.provider c2
  ∧ commit 9 c3 = c3.
Proof. vm_compute. done. Qed.

(** A stored value with a positive total that differs from a vote state
    with another positive total (a vote cast in another tab, arriving
    through a storage event) is not settled by the effects: each commit
    restores the stored votes and writes those of the render, so the two
    change places commit after commit. *)
Example votes_of_another_tab_alternate :
  let commit := VotingProvider.commit 0 (λ _, "2024-01-01T10:00:00.000Z")
                  (λ _, 7) Sample.stringify true in
  let arrived :=
    VotingProvider.mkCommitted
      (VotingProvider.mk Sample.votedX
         (UseLocalStorage.mkWorld
            (UseLocalStorage.mkState
               (SerializableUserVoteState.mk "s1" ["x"; "y"] 2
                  "2024-01-01T10:00:00.000Z")
               None true true)
            (LocalStorage.mk {["voting-state-s1" := "s1:x,y"]} None false)))
      (Some (VotingProvider.restoreDeps Sample.provider)) in
  let total c := UserVoteState.totalVotes
                   (Store.VotingState.userVoteState
                      (VotingProvider.state (VotingProvider.provider c))) in
  let stored c := SerializableUserVoteState.totalVotes
                    (VotingProvider.storedVoteState (VotingProvider.provider c)) in
  (total arrived = 1 ∧ stored arrived = 2)
  ∧ (total (commit 8 arrived) = 2 ∧ stored (commit 8 arrived) = 1)
  ∧ (total (commit 9 (commit 8 arrived)) = 1
     ∧ stored (commit 9 (commit 8 arrived)) = 2)
  ∧ (total (commit 10 (commit 9 (commit 8 arrived))) = 2
     ∧ stored (commit 10 (commit 9 (commit 8 arrived))) = 1).
Proof. vm_compute. done. Qed.


(** ** More on the persistent store adapter *)

Section AdapterRoundTrip.

Import UseLocalStorage.

Variable T : Type.
Variable JSON_stringify : T → string.
Variable JSON_parse : string → option T.

(** X22.  A value the adapter has written and the facility has taken is
    the value a later mount of the adapter under the same key starts
    with, and the value an adapter in another tab holds after the storage
    event of the write, provided parsing undoes serialization for it. *)
Theorem X22_written_value_is_read_back
    key (render : State T) arg (w other : World T) defaultValue :
  isSupported render = true →
  LocalStorage.accepts key (JSON_stringify (valueToStore render arg))
    (localStorage w) = true →
  JSON_parse (JSON_stringify (valueToStore render arg))
  = Some (valueToStore render arg) →
  let w' := snd (setStoredValue T JSON_stringify true key render arg w) in
  initialValue T JSON_parse true key defaultValue (localStorage w')
  = (Js.Normal (valueToStore render arg), localStorage w')
  ∧ handleStorageChange T JSON_parse key defaultValue
      (mkEvent (Some key) (Some (JSON_stringify (valueToStore render arg)))) other
    = (Js.Normal tt,
       mkWorld (mkState (valueToStore render arg) None (isSupported (hook other))
                        (isInitialized (hook other)))
               (localStorage other)).
Proof.
  intros Hs Ha Hparse w'. split.
  - assert (LocalStorage.items (localStorage w') !! key
            = Some (JSON_stringify (valueToStore render arg))) as Hkey.
    { unfold w'. rewrite setStoredValue_persists by done. apply lookup_insert_eq. }
    assert (LocalStorage.blocked (localStorage w') = false) as Hb.
    { unfold w'. rewrite setStoredValue_unfold, Hs. simpl.
      rewrite setItem_accepts by done. simpl.
      unfold LocalStorage.accepts in Ha. apply andb_true_iff in Ha as [Hb _].
      by apply negb_true_iff in Hb. }
    unfold initialValue, LocalStorage.getItem. run_js.
    by rewrite Hb, Hkey, Hparse.
  - unfold handleStorageChange, parse, setValue, setError. simpl.
    rewrite bool_decide_eq_true_2 by done. run_js. by rewrite Hparse.
Qed.

(** X23.  [removeValue] never throws and always puts the default value
    in memory.  With support it deletes the key from a facility that
    allows access, so that a later mount starts with the default value,
    and it records a storage error when the facility denies access;
    without support it leaves the facility alone. *)
Theorem X23_removeValue_resets_to_default
    hasWindow key defaultValue (render : State T) (w : World T) :
  let r := removeValue T hasWindow key defaultValue render w in
  fst r = Js.Normal tt
  ∧ value (hook (snd r)) = defaultValue
  ∧ (isSupported render && hasWindow = true →
     LocalStorage.blocked (localStorage w) = false →
     error (hook (snd r)) = None
     ∧ LocalStorage.items (localStorage (snd r))
       = delete key (LocalStorage.items (localStorage w))
     ∧ fst (initialValue T JSON_parse true key defaultValue (localStorage (snd r)))
       = Js.Normal defaultValue)
  ∧ (isSupported render && hasWindow = true →
     LocalStorage.blocked (localStorage w) = true →
     error (hook (snd r))
     = Some (storageError
               ("Failed to remove value from localStorage for key " +:+ quoted key))
     ∧ localStorage (snd r) = localStorage w)
  ∧ (isSupported render && hasWindow = false →
     error (hook (snd r)) = None ∧ localStorage (snd r) = localStorage w).
Proof.
  unfold removeValue, onStorage, LocalStorage.removeItem, setValue, setError.
  run_js.
  destruct (isSupported render && hasWindow); simpl.
  - destruct (LocalStorage.blocked (localStorage w)) eqn:Hb; simpl.
    + split_and!; done.
    + split_and!; try done. intros _ _. split_and!; try done.
      unfold initialValue, LocalStorage.getItem. run_js.
      by rewrite Hb, lookup_delete_eq.
  - split_and!; done.
Qed.

(** X24.  The listener for storage events never writes to the facility
    and never throws.  It ignores events for other keys; for its own key
    it takes the parsed new value and clears the error, falls back to the
    default value when the key was removed (keeping the error), and keeps
    its value and records a storage error when the new value does not
    parse. *)
Theorem X24_storage_event_updates_memory_only
    key defaultValue (e : StorageEvent) (w : World T) :
  let r := handleStorageChange T JSON_parse key defaultValue e w in
  fst r = Js.Normal tt
  ∧ localStorage (snd r) = localStorage w
  ∧ isSupported (hook (snd r)) = isSupported (hook w)
  ∧ (UseLocalStorage.key e ≠ Some key → snd r = w)
  ∧ (UseLocalStorage.key e = Some key → newValue e = None →
     value (hook (snd r)) = defaultValue ∧ error (hook (snd r)) = error (hook w))
  ∧ (∀ text v, UseLocalStorage.key e = Some key → newValue e = Some text →
               JSON_parse text = Some v →
               value (hook (snd r)) = v ∧ error (hook (snd r)) = None)
  ∧ (∀ text, UseLocalStorage.key e = Some key → newValue e = Some text →
             JSON_parse text = None →
             value (hook (snd r)) = value (hook w)
             ∧ error (hook (snd r))
               = Some (storageError
                         ("Failed to sync localStorage value for key "
                          +:+ quoted key))).
Proof.
  unfold handleStorageChange, parse, setValue, setError.
  destruct (bool_decide_reflect (UseLocalStorage.key e = Some key)) as [He|He].
  - destruct (newValue e) as [text|] eqn:Hnew; run_js.
    + destruct (JSON_parse text) as [v|] eqn:Hparse; simpl;
        split_and!; try done; intros; simplify_eq; done.
    + split_and!; try done.
  - run_js. split_and!; done.
Qed.

End AdapterRoundTrip.

(** X22 on a string written under the key ["k"], with the identity as
    serialization. *)
Lemma X22_witness :
  UseLocalStorage.initialValue string Some true "k" "default"
    (UseLocalStorage.localStorage
       (snd (UseLocalStorage.setStoredValue string (λ s, s) true "k"
               (UseLocalStorage.mkState "default" None true true)
               (UseLocalStorage.Value "dark")
               (Sample.freshAdapter Sample.emptyStorage))))
  = (Js.Normal "dark",
     UseLocalStorage.localStorage
       (snd (UseLocalStorage.setStoredValue string (λ s, s) true "k"
               (UseLocalStorage.mkState "default" None true true)
               (UseLocalStorage.Value "dark")
               (Sample.freshAdapter Sample.emptyStorage)))).
Proof.
  destruct (X22_written_value_is_read_back string (λ s, s) Some "k"
              (UseLocalStorage.mkState "default" None true true)
              (UseLocalStorage.Value "dark")
              (Sample.freshAdapter Sample.emptyStorage)
              (Sample.freshAdapter Sample.emptyStorage) "default")
    as [Hmount _].
  - reflexivity.
  - vm_compute. reflexivity.
  - reflexivity.
  - exact Hmount.
Defined.

(** ** More on the per-contestant voting hook *)

Section HookOutcomes.

Import ContestantVoting.

Variable JSON_stringify : Stored → string.
Variable hasWindow : bool.

Lemma vote_settle_succeeded render response (w : World) :
  success response = true → isMounted (cells w) = true →
  vote_settle JSON_stringify hasWindow render (Resolved response) w
  = (Js.Normal tt,
     mkWorld (mkCells false (responseVoteCount response) (error (cells w)) true)
             (storage w)).
Proof.
  intros Hs Hm. unfold vote_settle, finallyBlock, setVoteCount, setIsVoting,
    setCells. run_js. rewrite Hm, Hs. simpl. by rewrite Hm.
Qed.

(** The error of the adapter after the optimistic write: none unless the
    facility was called and refused the write. *)
Lemma written_error render v s :
  UseLocalStorage.error
    (UseLocalStorage.hook (written JSON_stringify hasWindow render v s))
  = if VoteRender.storageSupported render && hasWindow then
      match fst (LocalStorage.setItem (storageKey (VoteRender.sessionId render))
                   (JSON_stringify v) (UseLocalStorage.localStorage s)) with
      | Js.Normal _ => None
      | Js.Throw _ =>
          Some (UseLocalStorage.saveError
                  (storageKey (VoteRender.sessionId render)))
      end
    else None.
Proof.
  unfold written. rewrite setStoredValue_unfold. simpl.
  destruct (VoteRender.storageSupported render && hasWindow); [|done].
  by destruct (LocalStorage.setItem _ _ _) as [[[]|reason] f'].
Qed.

(** X25.  A vote that the server accepts while the hook is mounted ends
    with the vote count the server answered, [isVoting] cleared, and the
    optimistic state kept as it was written, so the next render has the
    contestant voted for.  Between the call and the answer the hook is
    rendered and its effect for storage errors runs: the error is cleared
    at the end when the adapter holds no storage error after the
    optimistic write (the facility took the write, or was not called);
    when the facility refused the write, the error is the vote error the
    effect made of the storage error, which the success path does not
    clear. *)
Theorem X25_accepted_vote_keeps_the_optimistic_state
    nowISO contestantId sessionId (w : World) response :
  let render := currentRender contestantId sessionId w in
  hasVoted render = false → isVoting (cells w) = false →
  isMounted (cells w) = true → success response = true →
  let w1 := snd (vote_call JSON_stringify hasWindow nowISO render w) in
  let next := currentRender contestantId sessionId w1 in
  let storageError := UseLocalStorage.error (UseLocalStorage.hook (storage w1)) in
  let w1' := snd (storageErrorEffect next storageError (error (cells w1)) w1) in
  let w2 := snd (vote_settle JSON_stringify hasWindow render
                   (Resolved response) w1') in
  isVoting (cells w2) = false
  ∧ voteCount (cells w2) = responseVoteCount response
  ∧ isMounted (cells w2) = true
  ∧ storage w2 = storage w1
  ∧ UseLocalStorage.value (UseLocalStorage.hook (storage w2))
    = optimisticVoteState nowISO render
  ∧ hasVoted (currentRender contestantId sessionId w2) = true
  ∧ error (cells w2)
    = match storageError with
      | None => None
      | Some e =>
          Some (createVoteError next NETWORK_FAILURE
                  ("Storage error: " +:+ AppError.message e)
                  (Some ClearVoteError))
      end
  ∧ (VoteRender.storageSupported render && hasWindow = false
     ∨ LocalStorage.accepts (storageKey sessionId)
         (JSON_stringify (optimisticVoteState nowISO render))
         (UseLocalStorage.localStorage (storage w)) = true →
     error (cells w2) = None).
Proof.
  intros render Hv Hi Hm Hs. simpl.
  rewrite vote_call_passes by done. simpl. rewrite Hm.
  set (s1 := written JSON_stringify hasWindow render
               (optimisticVoteState nowISO render) (storage w)).
  assert (UseLocalStorage.value (UseLocalStorage.hook s1)
          = optimisticVoteState nowISO render) as Hvalue
    by apply written_value.
  pose proof (written_error render (optimisticVoteState nowISO render)
                (storage w)) as Herror.
  fold s1 in Herror. clearbody s1.
  assert (hasVoted (currentRender contestantId sessionId
                      (mkWorld (mkCells false (responseVoteCount response)
                                  None true) s1)) = true) as Hvoted.
  { unfold hasVoted. simpl. rewrite Hvalue. simpl.
    rewrite existsb_app. simpl. rewrite String.eqb_refl. by rewrite orb_true_r. }
  destruct (UseLocalStorage.error (UseLocalStorage.hook s1)) as [e|] eqn:He;
    unfold storageErrorEffect; simpl.
  - unfold setError, setCells. run_js.
    rewrite vote_settle_succeeded by done. simpl.
    split_and!; try done.
    intros Htaken.
    assert (VoteRender.storageSupported render && hasWindow = false
            ∨ LocalStorage.accepts (storageKey sessionId)
                (JSON_stringify (optimisticVoteState nowISO render))
                (UseLocalStorage.localStorage (storage w)) = true)
      as [Hoff | Hacc] by exact Htaken.
    + by rewrite Hoff in Herror.
    + destruct (VoteRender.storageSupported render && hasWindow); [|done].
      change (VoteRender.sessionId render) with sessionId in Herror.
      by rewrite setItem_accepts in Herror.
  - run_js. rewrite vote_settle_succeeded by done. simpl.
    split_and!; done.
Qed.

(** X26.  When the hook is unmounted before a submission fails, nothing
    is rolled back: the optimistic state stays in memory and, where the
    facility took the write, in local storage, so the rejected vote is
    still recorded there. *)
Theorem X26_failure_after_unmount_keeps_the_vote
    nowISO contestantId sessionId (w : World) outcome :
  let render := currentRender contestantId sessionId w in
  hasVoted render = false → isVoting (cells w) = false →
  failed outcome →
  let w1 := snd (unmount (snd (vote_call JSON_stringify hasWindow nowISO render w))) in
  let w2 := snd (vote_settle JSON_stringify hasWindow render outcome w1) in
  w2 = w1
  ∧ UseLocalStorage.value (UseLocalStorage.hook (storage w2))
    = optimisticVoteState nowISO render
  ∧ hasVoted (currentRender contestantId sessionId w2) = true
  ∧ (VoteRender.storageSupported render = true → hasWindow = true →
     LocalStorage.accepts (storageKey sessionId)
       (JSON_stringify (optimisticVoteState nowISO render))
       (UseLocalStorage.localStorage (storage w)) = true →
     LocalStorage.items (UseLocalStorage.localStorage (storage w2))
     !! storageKey sessionId
     = Some (JSON_stringify (optimisticVoteState nowISO render))).
Proof.
  intros render Hv Hi Hf w1 w2. subst w1 w2.
  rewrite vote_call_passes by done.
  unfold unmount, setCells. run_js.
  rewrite vote_settle_unmounted by done. simpl.
  split_and!; try done.
  - apply written_value.
  - unfold hasVoted. simpl. rewrite written_value. simpl.
    rewrite existsb_app. simpl. rewrite String.eqb_refl. by rewrite orb_true_r.
  - intros Hs Hw Ha. rewrite written_persisted by done. apply lookup_insert_eq.
Qed.

(** X27.  A write the facility refuses does not stop a vote: the
    optimistic state is still put in memory, the vote count is raised and
    the submission is left outstanding, while the adapter holds a storage
    error; the effect of the hook then turns that error into a recoverable
    vote error whose retry action only clears the error. *)
Theorem X27_refused_write_does_not_stop_the_vote
    nowISO contestantId sessionId (w : World) reason f' :
  let render := currentRender contestantId sessionId w in
  hasVoted render = false → isVoting (cells w) = false →
  VoteRender.storageSupported render = true →
  LocalStorage.setItem (storageKey sessionId)
    (JSON_stringify (optimisticVoteState nowISO render))
    (UseLocalStorage.localStorage (storage w)) = (Js.Throw reason, f') →
  let r := vote_call JSON_stringify true nowISO render w in
  let w1 := snd r in
  let storageError := UseLocalStorage.error (UseLocalStorage.hook (storage w1)) in
  fst r = Js.Normal (Some contestantId)
  ∧ cells w1 = mkCells true (voteCount (cells w) + 1) None (isMounted (cells w))
  ∧ UseLocalStorage.value (UseLocalStorage.hook (storage w1))
    = optimisticVoteState nowISO render
  ∧ UseLocalStorage.localStorage (storage w1)
    = UseLocalStorage.localStorage (storage w)
  ∧ storageError = Some (UseLocalStorage.saveError (storageKey sessionId))
  ∧ error (cells (snd (ContestantVoting.storageErrorEffect
                         (currentRender contestantId sessionId w1)
                         storageError (error (cells w1)) w1)))
    = Some (createVoteError (currentRender contestantId sessionId w1)
              NETWORK_FAILURE
              ("Storage error: Failed to save value to localStorage for key "
               +:+ UseLocalStorage.quoted (storageKey sessionId))
              (Some ClearVoteError)).
Proof.
  intros render Hv Hi Hs Hthrow r w1 storageError. subst r w1 storageError.
  rewrite vote_call_passes by done. simpl.
  unfold written. rewrite setStoredValue_unfold. simpl.
  change (UseLocalStorage.isSupported
            (UseLocalStorage.hook (storage w))) with
    (VoteRender.storageSupported render).
  rewrite Hs. simpl. simpl in Hthrow. rewrite Hthrow. simpl.
  rewrite (setItem_throws_unchanged _ _ _ _ _ Hthrow).
  split_and!; done.
Qed.

End HookOutcomes.

(** X25 on the sample hook: the server accepts the vote for ["x"] and
    answers a count of 12. *)
Lemma X25_witness :
  let called :=
    snd (ContestantVoting.vote_call Sample.stringify true
           "2024-01-01T10:00:00.000Z"
           (ContestantVoting.currentRender "x" "s1" Sample.hook) Sample.hook) in
  let rendered :=
    snd (ContestantVoting.storageErrorEffect
           (ContestantVoting.currentRender "x" "s1" called)
           (UseLocalStorage.error
              (UseLocalStorage.hook (ContestantVoting.storage called)))
           (ContestantVoting.error (ContestantVoting.cells called)) called) in
  let answered :=
    snd (ContestantVoting.vote_settle Sample.stringify true
           (ContestantVoting.currentRender "x" "s1" Sample.hook)
           (ContestantVoting.Resolved (ContestantVoting.mkResponse true 12 None))
           rendered) in
  ContestantVoting.hasVoted (ContestantVoting.currentRender "x" "s1" answered)
  = true
  ∧ ContestantVoting.error (ContestantVoting.cells answered) = None.
Proof.
  destruct (X25_accepted_vote_keeps_the_optimistic_state Sample.stringify true
              "2024-01-01T10:00:00.000Z" "x" "s1" Sample.hook
              (ContestantVoting.mkResponse true 12 None))
    as (_ & _ & _ & _ & _ & Hvoted & _ & Hclear); [reflexivity..|].
  split; [exact Hvoted|]. apply Hclear. right. vm_compute. reflexivity.
Defined.

(** X26 on the sample hook: the card is unmounted, then the submission is
    rejected; the vote for ["x"] stays in local storage. *)
Lemma X26_witness :
  LocalStorage.items
    (UseLocalStorage.localStorage
       (ContestantVoting.storage
          (snd (ContestantVoting.vote_settle Sample.stringify true
                  (ContestantVoting.currentRender "x" "s1" Sample.hook)
                  (ContestantVoting.Rejected (Some "Network timeout"))
                  (snd (ContestantVoting.unmount
                          (snd (ContestantVoting.vote_call Sample.stringify true
                                  "2024-01-01T10:00:00.000Z"
                                  (ContestantVoting.currentRender "x" "s1"
                                     Sample.hook)
                                  Sample.hook))))))))
  !! "voting-state-s1"
  = Some "s1:x".
Proof.
  destruct (X26_failure_after_unmount_keeps_the_vote Sample.stringify true
              "2024-01-01T10:00:00.000Z" "x" "s1" Sample.hook
              (ContestantVoting.Rejected (Some "Network timeout")))
    as (_ & _ & _ & Hstored); [reflexivity|reflexivity|exact I|].
  apply Hstored; reflexivity.
Defined.

(** X27 on the sample hook over a facility whose quota is used up. *)
Lemma X27_witness :
  fst (ContestantVoting.vote_call Sample.stringify true
         "2024-01-01T10:00:00.000Z"
         (ContestantVoting.currentRender "x" "s1"
            (ContestantVoting.mkWorld
               (ContestantVoting.mkCells false 0 None true)
               (UseLocalStorage.mkWorld
                  (UseLocalStorage.mkState Sample.storedEmpty None true true)
                  Sample.fullStorage)))
         (ContestantVoting.mkWorld
            (ContestantVoting.mkCells false 0 None true)
            (UseLocalStorage.mkWorld
               (UseLocalStorage.mkState Sample.storedEmpty None true true)
               Sample.fullStorage)))
  = Js.Normal (Some "x").
Proof.
  destruct (X27_refused_write_does_not_stop_the_vote Sample.stringify
              "2024-01-01T10:00:00.000Z" "x" "s1"
              (ContestantVoting.mkWorld
                 (ContestantVoting.mkCells false 0 None true)
                 (UseLocalStorage.mkWorld
                    (UseLocalStorage.mkState Sample.storedEmpty None true true)
                    Sample.fullStorage))
              "QuotaExceededError" Sample.fullStorage)
    as (Hcall & _); [reflexivity..|].
  exact Hcall.
Defined.

(** ** More on the polling controller *)

Section PollingOutcomes.

Import Polling.
#[local] Open Scope nat_scope.

Lemma executeCallback_unmounted s : isMounted s = false → executeCallback s = s.
Proof. intros Hm. unfold executeCallback. by rewrite Hm. Qed.

Lemma iter_executeCallback_unmounted n s :
  isMounted s = false → Nat.iter n executeCallback s = s.
Proof.
  intros Hm. induction n as [|n IH]; [done|]. simpl. rewrite IH.
  by apply executeCallback_unmounted.
Qed.

Lemma runTimeouts_unmounted s :
  isMounted s = false →
  runTimeouts s
  = mkState (isPolling s) (error s) (intervalRef s) false (timers s)
            (nextTimerId s) [] (invocations s) (rendered s).
Proof.
  intros Hm. unfold runTimeouts. rewrite Hm.
  generalize (timeouts s). intros l.
  induction l as [|o l IH]; [done|]. simpl. apply IH.
Qed.

(** An unmounted hook is not rendered. *)
Lemma render_unmounted options s : isMounted s = false → render options s = s.
Proof. intros Hm. unfold render. by rewrite Hm. Qed.

Lemma rerenders_unmounted fuel s : isMounted s = false → rerenders fuel s = s.
Proof.
  intros Hm. induction fuel as [|fuel IH]; [done|]. simpl.
  destruct (rendered s) as [[options polling]|]; [|done].
  destruct (upToDate s); [done|]. by rewrite render_unmounted.
Qed.

Lemma rerender_unmounted s : isMounted s = false → rerender s = s.
Proof. apply rerenders_unmounted. Qed.

Lemma tick_unmounted s : isMounted s = false → Polling.frozen s (tick s).
Proof.
  intros Hm. unfold tick. rewrite (rerender_unmounted s) by done.
  rewrite runTimeouts_unmounted by done.
  rewrite rerender_unmounted by done.
  unfold fire. rewrite iter_executeCallback_unmounted by done. by repeat split.
Qed.

Lemma frozen_trans s1 s2 s3 :
  Polling.frozen s1 s2 → Polling.frozen s2 s3 → Polling.frozen s1 s3.
Proof.
  unfold Polling.frozen.
  intros (? & ? & ? & ? & ?) (? & ? & ? & ? & ?). split_and!; congruence.
Qed.

Lemma advance_unmounted elapsed s :
  isMounted s = false → Polling.frozen s (advance elapsed s).
Proof.
  intros Hm. induction elapsed as [|t IH]; [by repeat split|].
  simpl. eapply frozen_trans; [exact IH|]. apply tick_unmounted. by destruct IH.
Qed.

Lemma perform_unmounted a s :
  isMounted s = false → Polling.frozen s (Polling.perform a s).
Proof.
  intros Hm. unfold perform.
  match goal with |- frozen _ (rerender ?inner) => set (s1 := inner) end.
  assert (Polling.frozen s s1) as H.
  { unfold s1. destruct a.
    - unfold start. rewrite Hm. by repeat split.
    - unfold stop. rewrite Hm. by repeat split.
    - unfold restart, stop. rewrite Hm. by repeat split.
    - by apply advance_unmounted.
    - unfold executeCallback_settle. rewrite Hm. by repeat split.
    - rewrite render_unmounted by done. by repeat split. }
  rewrite rerender_unmounted by by destruct H. done.
Qed.

(** X28.  After the cleanup of the hook has run, the controller is
    inert: whatever is called on it ([start], [stop], [restart], a
    settling refresh) and however much time passes, the refresh callback
    is not invoked again and [isPolling] and [error] keep their values. *)
Theorem X28_unmounted_controller_is_inert (s : State) actions :
  let s' := Polling.performAll actions (unmount s) in
  isMounted s' = false
  ∧ invocations s' = invocations s
  ∧ isPolling s' = isPolling s
  ∧ error s' = error s.
Proof.
  simpl.
  assert (Polling.frozen s (unmount s)) as Hu.
  { unfold unmount. by destruct (intervalRef s) eqn:Hi; simpl; repeat split. }
  enough (∀ s0, isMounted s0 = false →
                Polling.frozen s0 (Polling.performAll actions s0)) as H.
  { destruct (frozen_trans _ _ _ Hu (H _ (proj1 Hu))) as (? & ? & ? & ? & ?). done. }
  induction actions as [|a actions IH]; intros s0 Hm; [by repeat split|].
  change (Polling.performAll (a :: actions) s0)
    with (Polling.performAll actions (Polling.perform a s0)).
  pose proof (perform_unmounted a s0 Hm) as Ha.
  eapply frozen_trans; [exact Ha|]. apply IH. by destruct Ha.
Qed.


End PollingOutcomes.


(** ** Contestants of the store *)

(** X30.  [updateContestant] replaces entries and nothing else: the
    store holds the same contestant ids in the same order afterwards,
    every other field is kept, and for a contestant whose id the store
    does not hold the state does not change at all. *)
Theorem X30_updateContestant_keeps_the_ids
    loadTime now (state : Store.VotingState.t) (contestant : Contestant.t) :
  let state' := Store.votingReducer loadTime now state
                  (Store.UPDATE_CONTESTANT contestant) in
  map Contestant.id (Store.VotingState.contestants state')
  = map Contestant.id (Store.VotingState.contestants state)
  ∧ Store.VotingState.userVoteState state' = Store.VotingState.userVoteState state
  ∧ Store.VotingState.session state' = Store.VotingState.session state
  ∧ Store.VotingState.error state' = Store.VotingState.error state
  ∧ (Store.getContestantById state (Contestant.id contestant) = None →
     state' = state)
  ∧ (is_Some (Store.getContestantById state (Contestant.id contestant)) →
     Store.getContestantById state' (Contestant.id contestant) = Some contestant).
Proof.
  destruct state as [loading error session contestants uvs window]. simpl.
  unfold Store.getContestantById. simpl.
  split_and!; try done.
  - induction contestants as [|c l IH]; simpl; [done|]. rewrite IH.
    destruct (String.eqb (Contestant.id c) (Contestant.id contestant)) eqn:Heq;
      [|done].
    apply String.eqb_eq in Heq. by rewrite Heq.
  - intros Hnone. f_equal.
    induction contestants as [|c l IH]; simpl in *; [done|].
    destruct (String.eqb (Contestant.id c) (Contestant.id contestant)); [done|].
    by rewrite IH.
  - intros [found Hfound].
    induction contestants as [|c l IH]; simpl in *; [done|].
    destruct (String.eqb (Contestant.id c) (Contestant.id contestant)) eqn:Heq; simpl.
    + by rewrite String.eqb_refl.
    + rewrite Heq. by apply IH.
Qed.
